(** * BDConverter: the routes of [server.js]

    A shallow embedding of the conversion pipeline of BDConverter's
    express server: request parsing, task classification, page
    resolution for PDF and archive sources, double-page splitting,
    renumbering, archive assembly and the sequential task loop with its
    single [catch] handler; with them [getPageCount], the [/analyze]
    route and the filters the assembly step applies to the listing of
    a task directory.

    Conventions.
    - File names, paths and request fields are byte strings ([string]).
    - A JavaScript number that counts pages or levels is a [JS.num]:
      an integer, [NaN] (what [parseInt] gives for a field that holds
      no number) or [null] (what [getPageCount] gives when [pdfinfo]
      fails).  Integers are unbounded; values beyond 2^53 are outside
      the model.
    - [parseInt] is a parameter of the development: every theorem
      holds for whatever function turns a field into a number.
    - External tools ([pdfinfo], [pdftoppm], [pdfimages], [7z], [rar],
      [sharp]) are black boxes whose observable outcome (exit status,
      files produced, image sizes) is an input of the model.
    - Preview thumbnails, the polling of the task directory and the
      pixels of an image are left out; what is kept of the file system
      is which uploads, task directories, archives and outputs exist,
      and which numbered pages an output was packed from.
    - Paths follow the POSIX flavour of Node's [path] module.
    - What a tool prints is a string of characters below 256. *)

From Stdlib Require Import ZArith List String Ascii Lia Bool Permutation Sorted.
From Stdlib Require Import DecimalString Decimal DecimalNat DecimalFacts.
Import ListNotations.

Local Open Scope string_scope.
Local Open Scope Z_scope.

(** ** JavaScript numbers, strings and arrays *)

Module JS.

Inductive num : Type :=
| Null
| NaN
| Num (z : Z).

(** [ToNumber]: [null] converts to [0]; [None] stands for [NaN]. *)
Definition toNumber (v : num) : option Z :=
  match v with
  | Null => Some 0
  | NaN => None
  | Num z => Some z
  end.

Definition lift2 (f : Z -> Z -> Z) (a b : num) : num :=
  match toNumber a, toNumber b with
  | Some x, Some y => Num (f x y)
  | _, _ => NaN
  end.

Definition cmp2 (f : Z -> Z -> bool) (a b : num) : bool :=
  match toNumber a, toNumber b with
  | Some x, Some y => f x y
  | _, _ => false
  end.

(** [Math.max], [Math.min], [-], [+]: [NaN] is contagious. *)
Definition max := lift2 Z.max.
Definition min := lift2 Z.min.
Definition sub := lift2 Z.sub.
Definition add := lift2 Z.add.

(** [>=], [<], [>]: every comparison with [NaN] is false. *)
Definition ge := cmp2 Z.geb.
Definition lt := cmp2 Z.ltb.
Definition gt := cmp2 Z.gtb.

(** Truthiness of a number-or-null: [0], [NaN] and [null] are falsy. *)
Definition truthy (v : num) : bool :=
  match v with
  | Num z => negb (z =? 0)
  | _ => false
  end.

(** [v === k] for an integer literal [k]. *)
Definition strictEq (v : num) (k : Z) : bool :=
  match v with
  | Num z => z =? k
  | _ => false
  end.

Definition ofNat (n : nat) : num := Num (Z.of_nat n).

(** [n.toString()] for a non-negative integer held as a [nat]. *)
Definition natToString (n : nat) : string :=
  NilEmpty.string_of_uint (Nat.to_uint n).

(** [String(v)], also what a template literal inserts. *)
Definition toString (v : num) : string :=
  match v with
  | Null => "null"
  | NaN => "NaN"
  | Num z => NilZero.string_of_int (Z.to_int z)
  end.

Fixpoint zeros (n : nat) : string :=
  match n with
  | O => ""
  | S k => String "0" (zeros k)
  end.

(** [s.padStart(width, '0')]. *)
Definition padStart (s : string) (width : nat) : string :=
  if (width <=? String.length s)%nat then s
  else zeros (width - String.length s) ++ s.

(** A request field is [undefined] ([None]) or a string; the empty
    string is falsy like [undefined]. *)
Definition field := option string.

Definition given (f : field) : bool :=
  match f with
  | Some s => negb (String.eqb s "")
  | None => false
  end.

(** [f === lit]. *)
Definition fieldIs (f : field) (lit : string) : bool :=
  match f with
  | Some s => String.eqb s lit
  | None => false
  end.

(** [f || dflt]. *)
Definition orElse (f : field) (dflt : string) : string :=
  match f with
  | Some s => if String.eqb s "" then dflt else s
  | None => dflt
  end.

Definition lowerChar (c : ascii) : ascii :=
  let n := nat_of_ascii c in
  if ((65 <=? n) && (n <=? 90))%nat then ascii_of_nat (n + 32) else c.

(** [s.toLowerCase()] on the ASCII letters. *)
Fixpoint toLowerCase (s : string) : string :=
  match s with
  | EmptyString => EmptyString
  | String c r => String (lowerChar c) (toLowerCase r)
  end.

Fixpoint rev_acc (s acc : string) : string :=
  match s with
  | EmptyString => acc
  | String c r => rev_acc r (String c acc)
  end.

Definition endsWith (s suffix : string) : bool :=
  String.prefix (rev_acc suffix "") (rev_acc s "").

(** [arr.includes(s)] on an array of strings. *)
Definition includes (arr : list string) (s : string) : bool :=
  existsb (String.eqb s) arr.

(** [arr.slice(0, n)]: [NaN] and [null] count as [0], a negative [n]
    counts from the end. *)
Definition slice0 {A} (l : list A) (n : num) : list A :=
  match toNumber n with
  | None => []
  | Some z =>
      if z <? 0 then firstn (Z.to_nat (Z.of_nat (List.length l) + z)) l
      else firstn (Z.to_nat z) l
  end.

End JS.

(** A [parseInt] for the closed examples: plain decimal digits with an
    optional minus sign, [NaN] for anything else. *)
Fixpoint digitsValue (s : string) (acc : Z) : option Z :=
  match s with
  | EmptyString => Some acc
  | String c r =>
      let n := nat_of_ascii c in
      if ((48 <=? n) && (n <=? 57))%nat
      then digitsValue r (10 * acc + Z.of_nat (n - 48))
      else None
  end.

Definition parseDecimal (s : string) : JS.num :=
  match s with
  | EmptyString => JS.NaN
  | String "-" r =>
      match r with
      | EmptyString => JS.NaN
      | _ => match digitsValue r 0 with Some z => JS.Num (- z) | None => JS.NaN end
      end
  | _ => match digitsValue s 0 with Some z => JS.Num z | None => JS.NaN end
  end.

(** ** Node's [path] module (POSIX) *)

Module Path.

Definition rev (s : string) : string := JS.rev_acc s "".

Definition isSlash (c : ascii) : bool := Ascii.eqb c "/".
Definition isDot (c : ascii) : bool := Ascii.eqb c ".".

(** On the reversed path: skip the trailing slashes ... *)
Fixpoint dropSlashes (r : string) : string :=
  match r with
  | String c t => if isSlash c then dropSlashes t else r
  | EmptyString => EmptyString
  end.

(** ... and keep what precedes the next slash: the last component. *)
Fixpoint upToSlash (r : string) : string :=
  match r with
  | String c t => if isSlash c then EmptyString else String c (upToSlash t)
  | EmptyString => EmptyString
  end.

(** The last component of [p], reversed. *)
Definition lastPart (p : string) : string := upToSlash (dropSlashes (rev p)).

(** Split a reversed component at its first dot, which is the last dot
    of the component: [Some (what follows the dot, what precedes it)],
    both still reversed. *)
Fixpoint splitDot (r : string) : option (string * string) :=
  match r with
  | EmptyString => None
  | String c t =>
      if isDot c then Some (EmptyString, t)
      else match splitDot t with
           | Some (a, b) => Some (String c a, b)
           | None => None
           end
  end.

(** [path.extname(p)]: from the last dot of the last component to its
    end; empty when there is no dot, when the dot opens the component,
    and for the component [..]. *)
Definition extname (p : string) : string :=
  let rc := lastPart p in
  match splitDot rc with
  | None => ""
  | Some (rsuf, rpre) =>
      if String.eqb rpre "" then ""
      else if String.eqb rc ".." then ""
      else String "." (rev rsuf)
  end.

(** [path.parse(p).name]: the last component without its extension. *)
Definition parseName (p : string) : string :=
  let rc := lastPart p in
  match splitDot rc with
  | None => rev rc
  | Some (rsuf, rpre) =>
      if String.eqb rpre "" then rev rc
      else if String.eqb rc ".." then rev rc
      else rev rpre
  end.

(** [path.join(dir, name)] for a clean directory and an entry name. *)
Definition join (dir name : string) : string := dir ++ "/" ++ name.

End Path.

(** ** The request *)

(** The fields of [req.body] the handler reads. *)
Record body : Type := {
  dpi : JS.field;
  maxWidth : JS.field;
  colorMode : JS.field;
  pageStart : JS.field;
  pageEnd : JS.field;
  format : JS.field;
  compression : JS.field;
  archiveCompression : JS.field;
  imgFormat : JS.field;
  rotation : JS.field;
  splitDouble : JS.field;
  readingDir : JS.field
}.

(** An uploaded file as multer describes it.  [originalname] is the
    name the grouping logic reads, that is, after the handler has
    restored the client's relative paths from [filePaths]; re-reading
    the name as UTF-8 leaves its bytes as they are. *)
Record file : Type := {
  originalname : string;
  path : string
}.

Definition isOriginal (b : body) : bool := JS.fieldIs (dpi b) "original".

(** [(imgFormat || 'jpeg').toLowerCase()] *)
Definition safeImgFormat (b : body) : string :=
  JS.toLowerCase (JS.orElse (imgFormat b) "jpeg").

Definition allowedFormats : list string :=
  ["cbz"; "cbt"; "cb7"; "cbr"; "pdf"; "rar4"; "folder"].

(** [allowedFormats.includes(format) ? format : 'cbz'] *)
Definition safeFormat (b : body) : string :=
  match format b with
  | Some f => if JS.includes allowedFormats f then f else "cbz"
  | None => "cbz"
  end.

(** The name of the output artifact for a task whose base name is
    [base]; the same three lines serve both kinds of task. *)
Definition outputFileName (b : body) (base : string) : string :=
  let sf := safeFormat b in
  if String.eqb sf "folder" then base
  else if String.eqb sf "rar4" then base ++ ".cbr"
  else base ++ "." ++ sf.

Section Request.

Variable parseInt : string -> JS.num.

(** [f ? parseInt(f) : dflt] *)
Definition parsedOr (f : JS.field) (dflt : JS.num) : JS.num :=
  match f with
  | Some s => if String.eqb s "" then dflt else parseInt s
  | None => dflt
  end.

Definition rotAngle (b : body) : JS.num := parsedOr (rotation b) (JS.Num 0).
Definition maxW (b : body) : JS.num := parsedOr (maxWidth b) JS.Null.
Definition dpiVal (b : body) : JS.num :=
  if isOriginal b then JS.Null else parsedOr (dpi b) (JS.Num 225).
Definition compVal (b : body) : JS.num := parsedOr (compression b) (JS.Num 80).

(** [archiveCompression !== undefined ? parseInt(archiveCompression) : 5] *)
Definition archCompVal (b : body) : JS.num :=
  match archiveCompression b with
  | Some s => parseInt s
  | None => JS.Num 5
  end.

(** *** Effective page counts *)

(** The PDF branch of [processConvertTask]; [totalPages] is what
    [getPageCount] resolved to. *)
Definition effectiveTotalPages_pdf (b : body) (totalPages : JS.num) : JS.num :=
  if JS.truthy totalPages then
    let pStart := parsedOr (pageStart b) (JS.Num 1) in
    let pEnd := parsedOr (pageEnd b) totalPages in
    let actualStart := JS.max (JS.Num 1) pStart in
    let actualEnd := JS.min totalPages pEnd in
    if JS.ge actualEnd actualStart
    then JS.add (JS.sub actualEnd actualStart) (JS.Num 1)
    else totalPages
  else totalPages.

Definition effStart (b : body) : JS.num :=
  JS.max (JS.Num 1) (parsedOr (pageStart b) (JS.Num 1)).

Definition effEnd (b : body) (totalExtracted : nat) : JS.num :=
  JS.min (JS.ofNat totalExtracted) (parsedOr (pageEnd b) (JS.ofNat totalExtracted)).

(** The archive branch; [totalExtracted] is the number of images found
    in the extracted tree. *)
Definition effectiveTotalPages_archive (b : body) (totalExtracted : nat) : JS.num :=
  JS.max (JS.Num 0)
    (JS.add (JS.sub (effEnd b totalExtracted) (effStart b)) (JS.Num 1)).

End Request.

(** ** Archive assembly *)

(** What the assembly step runs, with the compression level it passes. *)
Inductive packer : Type :=
| CopyFolder
| PdfKit
| Tar
| SevenZip (archiveType : string) (level : JS.num)
| Rar (ma4 : bool) (level : JS.num).

(** The level the packer receives, for the kinds that take one. *)
Definition packerLevel (p : packer) : option JS.num :=
  match p with
  | SevenZip _ l => Some l
  | Rar _ l => Some l
  | _ => None
  end.

(** [const level = isOriginal ? 0 : archCompVal] *)
Definition sevenZipLevel (original : bool) (acv : JS.num) : JS.num :=
  if original then JS.Num 0 else acv.

(** [rarComp] as [processConvertTask] computes it. *)
Definition rarComp_convert (original : bool) (acv : JS.num) : JS.num :=
  if original then JS.Num 0
  else if JS.strictEq acv 0 then JS.Num 0
  else if JS.strictEq acv 1 then JS.Num 1
  else if JS.strictEq acv 3 then JS.Num 2
  else if JS.strictEq acv 5 then JS.Num 3
  else if JS.strictEq acv 7 then JS.Num 4
  else if JS.strictEq acv 9 then JS.Num 5
  else JS.Num 3.

(** [rarComp] as [processMergeTask] computes it:
    [isOriginal ? 0 : (archCompVal === 0 ? 0 : 3)]. *)
Definition rarComp_merge (original : bool) (acv : JS.num) : JS.num :=
  if original then JS.Num 0
  else if JS.strictEq acv 0 then JS.Num 0 else JS.Num 3.

(** The chain of tests on [safeFormat] that ends both kinds of task;
    the two chains differ only in how they compute [rarComp]. *)
Definition choosePacker (rarComp : bool -> JS.num -> JS.num)
    (sf : string) (original : bool) (acv : JS.num) : packer :=
  if String.eqb sf "folder" then CopyFolder
  else if String.eqb sf "pdf" then PdfKit
  else if String.eqb sf "cbt" then Tar
  else if String.eqb sf "cb7" then SevenZip "7z" (sevenZipLevel original acv)
  else if String.eqb sf "cbr" then Rar false (rarComp original acv)
  else if String.eqb sf "rar4" then Rar true (rarComp original acv)
  else SevenZip "zip" (sevenZipLevel original acv).

(** ** Page names *)

(** [(idx + 1).toString().padStart(Math.max(3, padding), '0')] *)
Definition pageNumber (padding idx : nat) : string :=
  JS.padStart (JS.natToString (idx + 1)) (Nat.max 3 padding).

(** The [forEach] that renames the final pages: the new name of the
    page at position [idx]. *)
Fixpoint renumberFrom (padding idx : nat) (l : list string) : list string :=
  match l with
  | [] => []
  | f :: r => (pageNumber padding idx ++ Path.extname f) :: renumberFrom padding (S idx) r
  end.

(** [finalPageCount], [padding] and the new names, in page order. *)
Definition renumber (finalPageFiles : list string) : list string :=
  let finalPageCount := List.length finalPageFiles in
  let padding := String.length (JS.natToString finalPageCount) in
  renumberFrom padding 0 finalPageFiles.

(** ** Pages of a PDF source *)

(** A page image the rasterizer left in the task's directory, with the
    pixel size [sharp] reads from it ([None]: the metadata cannot be
    read). *)
Record page : Type := {
  pname : string;
  psize : option (nat * nat)
}.

(** [meta.width && meta.height && (meta.width / meta.height) > 1.2].
    On integers the quotient exceeds 1.2 exactly when [5 w > 6 h]; the
    floating-point test agrees for every size an image can have. *)
Definition isDouble (w h : nat) : bool :=
  (negb (w =? 0) && negb (h =? 0) && (6 * h <? 5 * w))%nat.

Definition leftName (i : nat) : string := "split_" ++ JS.natToString (i + 1) ++ "_a.jpg".
Definition rightName (i : nat) : string := "split_" ++ JS.natToString (i + 1) ++ "_b.jpg".

(** [Math.floor(meta.width / 2)] *)
Definition halfW (w : nat) : nat := Nat.div w 2.

(** The argument of [extract]. *)
Record region : Type := {
  left : nat;
  top : nat;
  width : nat;
  height : nat
}.

(** The files one turn of the splitting loop writes for the page at
    index [i], each with the region of the page it holds. *)
Definition splitWrites (i : nat) (p : page) : list (string * region) :=
  match psize p with
  | Some (w, h) =>
      if isDouble w h
      then [ (leftName i, {| left := 0; top := 0; width := halfW w; height := h |});
             (rightName i, {| left := w - halfW w; top := 0; width := halfW w; height := h |}) ]
      else []
  | None => []
  end.

(** [(readingDir || 'ltr') === 'ltr'] *)
Definition leftToRight (b : body) : bool :=
  String.eqb (JS.orElse (readingDir b) "ltr") "ltr".

(** What one turn of the splitting loop pushes for the page at index [i]. *)
Definition splitPage (ltr : bool) (i : nat) (p : page) : list string :=
  match psize p with
  | Some (w, h) =>
      if isDouble w h
      then if ltr then [leftName i; rightName i] else [rightName i; leftName i]
      else [pname p]
  | None => [pname p]
  end.

Fixpoint splitFrom (ltr : bool) (i : nat) (pages : list page) : list string :=
  match pages with
  | [] => []
  | p :: r => splitPage ltr i p ++ splitFrom ltr (S i) r
  end.

(** How many turns [for (i = 0; i < bound; i++)] takes. *)
Definition turns (bound : JS.num) : nat :=
  match JS.toNumber bound with
  | Some z => Z.to_nat z
  | None => O
  end.

(** Whether the splitting branch is taken:
    [splitDouble === 'auto' && sharp && !isOriginal]. *)
Definition splitting (sharp : bool) (b : body) : bool :=
  JS.fieldIs (splitDouble b) "auto" && sharp && negb (isOriginal b).

(** [expandedFiles] for the sorted listing [imgFiles]. *)
Definition expandedFiles (sharp : bool) (b : body) (effectiveTotalPages : JS.num)
    (imgFiles : list page) : list string :=
  if splitting sharp b then
    let bound := JS.min (JS.ofNat (List.length imgFiles)) effectiveTotalPages in
    splitFrom (leftToRight b) 0 (firstn (turns bound) imgFiles)
  else map pname (JS.slice0 imgFiles effectiveTotalPages).

(** The rasterizer and its arguments. *)
Inductive tool : Type := Pdftoppm | Pdfimages.

Definition rangeArgs (b : body) : list string :=
  (match pageStart b with
   | Some s => if String.eqb s "" then [] else ["-f"; s]
   | None => []
   end) ++
  (match pageEnd b with
   | Some s => if String.eqb s "" then [] else ["-l"; s]
   | None => []
   end).

Definition grayArgs (b : body) : list string :=
  (if JS.fieldIs (colorMode b) "gray" then ["-gray"] else []) ++
  (if JS.fieldIs (colorMode b) "mono" then ["-mono"] else []).

Section Rasterizer.

Variable parseInt : string -> JS.num.

Definition scaleArgs (b : body) : list string :=
  let w := maxW parseInt b in
  if JS.truthy w && JS.gt w (JS.Num 0)
  then ["-scale-to-x"; JS.toString w; "-scale-to-y"; "-1"]
  else [].

Definition formatArgs (b : body) : list string :=
  let fmt := safeImgFormat b in
  if String.eqb fmt "png" then "-png" :: grayArgs b
  else if String.eqb fmt "tiff" then "-tiff" :: grayArgs b
  else "-jpeg" ::
       (if JS.given (compression b)
        then ["-jpegopt"; "quality=" ++ JS.toString (compVal parseInt b)] else []) ++
       (if JS.fieldIs (colorMode b) "gray" || JS.fieldIs (colorMode b) "mono"
        then ["-gray"] else []).

Definition pdfCommand (b : body) (filePath outputPrefix : string) : tool * list string :=
  if isOriginal b
  then (Pdfimages, ("-all" :: rangeArgs b ++ [filePath; outputPrefix])%list)
  else (Pdftoppm,
        (["-r"; JS.toString (dpiVal parseInt b)] ++ scaleArgs b ++ formatArgs b ++
         rangeArgs b ++ [filePath; outputPrefix])%list).

(** The rotation pass over the rasterized pages:
    [rotAngle !== 0 && sharp]. *)
Definition rotatesPdfPages (sharp : bool) (b : body) : bool :=
  negb (JS.strictEq (rotAngle parseInt b) 0) && sharp.

End Rasterizer.

(** ** Errors *)

(** What a task, or the classifier, can throw. *)
Inductive error : Type :=
| PushIsNotAFunction
| ChildProcessError (command : string)
| NoImagesGenerated (originalname : string)
| NoImagesInRange
| SharpError (input : string)
| ArchiveGenerationFailed (name : string)
| NoSuchFile (p : string).

Inductive outcome (A : Type) : Type :=
| Ok (a : A)
| Throw (e : error).

Arguments Ok {A} a.
Arguments Throw {A} e.

(** ** Pages of an archive source and of a merge task *)

(** What [sharp] makes of an input image. *)
Inductive imageState : Type := Readable | EmptyFile | Undecodable.

(** An image found in the extracted tree; the archive branch reads
    its pixel size only to resize it. *)
Record image : Type := {
  ipath : string;
  istate : imageState;
  isize : nat * nat
}.

(** The extension [sharp] writes in the archive branch. *)
Definition outExt_archive (b : body) : string :=
  let fmt := safeImgFormat b in
  if String.eqb fmt "jpeg" then ".jpg" else "." ++ fmt.

(** The extension [sharp] writes in a merge task. *)
Definition outExt_merge (b : body) (forceJpeg : bool) : string :=
  let fmt := safeImgFormat b in
  if forceJpeg then ".jpg"
  else if String.eqb fmt "png" then ".png"
  else if String.eqb fmt "tiff" then ".tiff"
  else ".jpg".

Section Pages.

Variable parseInt : string -> JS.num.
Variable sharp : bool.
Variable b : body.

(** [!isOriginal || (rotAngle !== 0)] *)
Definition needsProcessing : bool :=
  negb (isOriginal b) || negb (JS.strictEq (rotAngle parseInt b) 0).

(** The loop over [extractedImages]: the names written to the
    [processed] directory, in order; [i] is the loop index and
    [processedCount] the running counter. *)
Fixpoint archiveLoop (total padding i processedCount : nat)
    (imgs : list image) : outcome (list string) :=
  match imgs with
  | [] => Ok []
  | img :: r =>
      let currentNum := JS.ofNat (i + 1) in
      if JS.lt currentNum (effStart parseInt b) || JS.gt currentNum (effEnd parseInt b total)
      then archiveLoop total padding (S i) processedCount r
      else
        let num := pageNumber padding processedCount in
        let ext := JS.toLowerCase (Path.extname (ipath img)) in
        let copied := num ++ ext in
        let written :=
          if negb needsProcessing then Ok (Some copied)
          else if sharp then
            match istate img with
            | EmptyFile => Ok None
            | Undecodable => Throw (SharpError (ipath img))
            | Readable => Ok (Some (num ++ outExt_archive b))
            end
          else Ok (Some copied) in
        match written with
        | Throw e => Throw e
        | Ok w =>
            match archiveLoop total padding (S i) (S processedCount) r with
            | Throw e => Throw e
            | Ok names => Ok (match w with Some n => n :: names | None => names end)
            end
        end
  end.

(** The archive branch from [totalExtracted] on: the effective page
    count and the page names, or the error thrown. *)
Definition archivePages (extractedImages : list image)
    : outcome (JS.num * list string) :=
  let totalExtracted := List.length extractedImages in
  let effectiveTotalPages := effectiveTotalPages_archive parseInt b totalExtracted in
  if JS.strictEq effectiveTotalPages 0 then Throw NoImagesInRange
  else
    let padding := String.length (JS.toString effectiveTotalPages) in
    match archiveLoop totalExtracted padding 0 0 extractedImages with
    | Throw e => Throw e
    | Ok names => Ok (effectiveTotalPages, names)
    end.

(** The PDF branch once the rasterizer has run: the effective page
    count, the final page files and their new names. *)
Definition pdfPages (originalname : string) (totalPages : JS.num)
    (imgFiles : list page) : outcome (JS.num * list string * list string) :=
  let effectiveTotalPages := effectiveTotalPages_pdf parseInt b totalPages in
  match imgFiles with
  | [] => Throw (NoImagesGenerated originalname)
  | _ =>
      let finalPageFiles := expandedFiles sharp b effectiveTotalPages imgFiles in
      Ok (effectiveTotalPages, finalPageFiles, renumber finalPageFiles)
  end.

(** [sharp && (forceJpeg || rotAngle !== 0 || !isOriginal)] *)
Definition shouldUseSharp (forceJpeg : bool) : bool :=
  sharp && (forceJpeg || negb (JS.strictEq (rotAngle parseInt b) 0) || negb (isOriginal b)).

(** The loop of a merge task over its files: each is given as its
    [originalname], its upload path and what [sharp] makes of it. *)
Fixpoint mergeLoop (padding idx : nat)
    (taskFiles : list (string * string * imageState)) : outcome (list string) :=
  match taskFiles with
  | [] => Ok []
  | (name, upload, st) :: r =>
      let ext := JS.toLowerCase (Path.extname name) in
      let isExotic := JS.includes [".webp"; ".bmp"] ext in
      let num := pageNumber padding idx in
      let written :=
        if shouldUseSharp isExotic then
          match st with
          | Readable => Ok (num ++ outExt_merge b isExotic)
          | _ => Throw (SharpError upload)
          end
        else Ok (num ++ ext) in
      match written with
      | Throw e => Throw e
      | Ok n =>
          match mergeLoop padding (S idx) r with
          | Throw e => Throw e
          | Ok names => Ok (n :: names)
          end
      end
  end.

End Pages.

(** ** Task classification *)

(** A task refers to the uploaded files by their position in
    [req.files]: the file objects are shared with the handler. *)
Inductive task : Type :=
| MERGE (files : list nat) (name : string)
| CONVERT (file : nat).

Definition imageSuffixes : list string :=
  [".jpg"; ".jpeg"; ".png"; ".tif"; ".tiff"; ".bmp"; ".webp"].

(** [/\.(jpg|jpeg|png|tif|tiff|bmp|webp)$/i.test(f.originalname)] *)
Definition isImageFile (f : file) : bool :=
  existsb (JS.endsWith (JS.toLowerCase (originalname f))) imageSuffixes.

(** A slash, or a backslash that the handler turns into one. *)
Definition isSeparator (c : ascii) : bool :=
  let n := nat_of_ascii c in ((n =? 47) || (n =? 92))%nat.

(** [parts[0]] when [name.split('/')] has more than one part. *)
Fixpoint rootDir (name : string) : option string :=
  match name with
  | EmptyString => None
  | String c t =>
      if isSeparator c then Some EmptyString
      else match rootDir t with
           | Some d => Some (String c d)
           | None => None
           end
  end.

(** The properties every object inherits from [Object.prototype]; all
    of them are truthy and none has a [push]. *)
Definition objectPrototypeKeys : list string :=
  ["constructor"; "__defineGetter__"; "__defineSetter__"; "hasOwnProperty";
   "__lookupGetter__"; "__lookupSetter__"; "isPrototypeOf";
   "propertyIsEnumerable"; "toString"; "valueOf"; "__proto__"; "toLocaleString"].

(** The own properties of [groups], in creation order. *)
Definition groupsObject : Type := list (string * list (nat * file)).

Fixpoint pushOwn (k : string) (x : nat * file) (g : groupsObject) : option groupsObject :=
  match g with
  | [] => None
  | (k', v) :: r =>
      if String.eqb k k' then Some ((k', (v ++ [x])%list) :: r)
      else match pushOwn k x r with
           | Some r' => Some ((k', v) :: r')
           | None => None
           end
  end.

(** [if (!groups[rootDir]) groups[rootDir] = []; groups[rootDir].push(file)] *)
Definition groupPush (k : string) (x : nat * file) (g : groupsObject) : outcome groupsObject :=
  match pushOwn k x g with
  | Some g' => Ok g'
  | None =>
      if JS.includes objectPrototypeKeys k then Throw PushIsNotAFunction
      else Ok (g ++ [(k, [x])])%list
  end.

(** The first loop of the grouping logic. *)
Fixpoint groupFiles (idx : nat) (files : list file) (groups : groupsObject)
    (rootFiles : list (nat * file)) : outcome (groupsObject * list (nat * file)) :=
  match files with
  | [] => Ok (groups, rootFiles)
  | f :: r =>
      match rootDir (originalname f) with
      | Some d =>
          match groupPush d (idx, f) groups with
          | Ok g' => groupFiles (S idx) r g' rootFiles
          | Throw e => Throw e
          end
      | None => groupFiles (S idx) r groups (rootFiles ++ [(idx, f)])%list
      end
  end.

(** The value of a key that is an array index: a canonical decimal
    numeral below [2^32 - 1]. *)
Definition arrayIndex (k : string) : option Z :=
  match k with
  | EmptyString => None
  | String "0" EmptyString => Some 0
  | String "0" _ => None
  | _ => match digitsValue k 0 with
         | Some z => if z <? 4294967295 then Some z else None
         | None => None
         end
  end.

Fixpoint insertByIndex {A} (z : Z) (x : A) (l : list (Z * A)) : list (Z * A) :=
  match l with
  | [] => [(z, x)]
  | (z', y) :: r => if z <=? z' then (z, x) :: l else (z', y) :: insertByIndex z x r
  end.

Fixpoint indexEntries {A} (g : list (string * A)) : list (Z * (string * A)) :=
  match g with
  | [] => []
  | (k, v) :: r =>
      match arrayIndex k with
      | Some z => insertByIndex z (k, v) (indexEntries r)
      | None => indexEntries r
      end
  end.

Definition isNamedKey {A} (e : string * A) : bool :=
  match arrayIndex (fst e) with Some _ => false | None => true end.

(** [Object.entries(groups)]: array-index keys in ascending order,
    then the other keys in creation order. *)
Definition Object_entries {A} (g : list (string * A)) : list (string * A) :=
  map snd (indexEntries g) ++ filter isNamedKey g.

Definition isImage (x : nat * file) : bool := isImageFile (snd x).

Definition rootTask (rootImages : list (nat * file)) : list task :=
  match rootImages with
  | [] => []
  | first :: rest =>
      let base := Path.parseName (originalname (snd first)) in
      let name := match rest with [] => base | _ => base ++ "_set" end in
      [MERGE (map fst rootImages) name]
  end.

Definition folderTask (entry : string * list (nat * file)) : list task :=
  match filter isImage (snd entry) with
  | [] => []
  | images => [MERGE (map fst images) (fst entry)]
  end.

(** The grouping logic: the task list, or the error thrown. *)
Definition classify (files : list file) : outcome (list task) :=
  match groupFiles 0 files [] [] with
  | Throw e => Throw e
  | Ok (groups, rootFiles) =>
      Ok (rootTask (filter isImage rootFiles) ++
          flat_map folderTask (Object_entries groups) ++
          map (fun d => CONVERT (fst d)) (filter (fun d => negb (isImage d)) rootFiles))%list
  end.

(** The positions of [req.files] a task holds. *)
Definition taskFiles (t : task) : list nat :=
  match t with
  | MERGE fs _ => fs
  | CONVERT f => [f]
  end.

(** ** The handler's state *)

(** Progress events, by what they announce.  Of the events a task
    sends, the trace keeps the one that opens the task and the one that
    announces assembly. *)
Inductive event : Type :=
| Received (files : nat)
| Identified (tasks : nat)
| Started (currentFileIndex totalFiles : nat) (name : string)
| Assembling (currentFileIndex : nat).

(** The per-task output record. *)
Record result : Type := {
  name : string;
  rpath : string;
  size : nat;
  pages : JS.num
}.

(** - [uploads]: the file objects of [req.files]; a task that renames
      its source updates the object, and the [catch] handler reads it.
    - [disk]: the paths that exist among uploaded files, task
      directories, temporary archives and output artifacts.
    - [artifacts]: for each output artifact written, the numbered page
      files its task directory held when it was packed.
    - [events]: what was sent to the progress channel, oldest first. *)
Record state : Type := {
  uploads : list file;
  disk : list string;
  artifacts : list (string * list string);
  events : list event
}.

(** A step of the handler: it may change the state, and it returns a
    value or throws. *)
Definition M (A : Type) : Type := state -> outcome A * state.

Definition ret {A} (a : A) : M A := fun st => (Ok a, st).

Definition throw {A} (e : error) : M A := fun st => (Throw e, st).

Definition bind {A B} (m : M A) (k : A -> M B) : M B :=
  fun st =>
    match m st with
    | (Ok a, st') => k a st'
    | (Throw e, st') => (Throw e, st')
    end.

Notation "x <- c1 ;; c2" := (bind c1 (fun x => c2))
  (at level 61, c1 at next level, right associativity).
Notation "c1 ;; c2" := (bind c1 (fun _ => c2))
  (at level 61, right associativity).

(** A pure step that may throw. *)
Definition lift {A} (o : outcome A) : M A := fun st => (o, st).

(** [fs.existsSync(p)] on the list of existing paths. *)
Definition existsSync (p : string) (l : list string) : bool := existsb (String.eqb p) l.

Definition removed (p : string) (l : list string) : list string :=
  filter (fun q => negb (String.eqb p q)) l.

Definition created (p : string) (l : list string) : list string :=
  if existsSync p l then l else (l ++ [p])%list.

Definition setDisk (d : list string) (st : state) : state :=
  {| uploads := uploads st; disk := d; artifacts := artifacts st; events := events st |}.

Definition sendProgress (e : event) : M unit :=
  fun st => (Ok tt, {| uploads := uploads st; disk := disk st;
                       artifacts := artifacts st; events := (events st ++ [e])%list |}).

(** [fs.mkdirSync(p, { recursive: true })] *)
Definition mkdirSync (p : string) : M unit :=
  fun st => (Ok tt, setDisk (created p (disk st)) st).

(** A tool, or a write stream, leaves the file [p]. *)
Definition writeFile (p : string) : M unit :=
  fun st => (Ok tt, setDisk (created p (disk st)) st).

(** [fs.rmSync(p, { recursive: true, force: true })] *)
Definition rmSync (p : string) : M unit :=
  fun st => (Ok tt, setDisk (removed p (disk st)) st).

(** [fs.unlinkSync(p)] *)
Definition unlinkSync (p : string) : M unit :=
  fun st =>
    if existsSync p (disk st) then (Ok tt, setDisk (removed p (disk st)) st)
    else (Throw (NoSuchFile p), st).

(** [fs.copyFileSync(src, dst)] *)
Definition copyFileSync (src dst : string) : M unit :=
  fun st =>
    if existsSync src (disk st) then (Ok tt, setDisk (created dst (disk st)) st)
    else (Throw (NoSuchFile src), st).

(** The file object at position [i]; a task built by [classify]
    always finds it. *)
Definition getFile (i : nat) : M file :=
  fun st =>
    match nth_error (uploads st) i with
    | Some f => (Ok f, st)
    | None => (Throw (NoSuchFile ""), st)
    end.

Fixpoint setPath (i : nat) (p : string) (l : list file) : list file :=
  match l, i with
  | [], _ => []
  | f :: r, O => {| originalname := originalname f; path := p |} :: r
  | f :: r, S k => f :: setPath k p r
  end.

(** [try { fs.renameSync(file.path, newPath); file.path = newPath; } catch ...]
    on the file object at position [i]. *)
Definition renameUpload (i : nat) (newPath : string) : M unit :=
  fun st =>
    match nth_error (uploads st) i with
    | Some f =>
        if existsSync (path f) (disk st)
        then (Ok tt, {| uploads := setPath i newPath (uploads st);
                        disk := created newPath (removed (path f) (disk st));
                        artifacts := artifacts st; events := events st |})
        else (Ok tt, st)
    | None => (Ok tt, st)
    end.

(** The artifact [p] is written from a directory that holds the
    numbered pages [numbered]. *)
Definition recordArtifact (p : string) (numbered : list string) : M unit :=
  fun st => (Ok tt, {| uploads := uploads st; disk := disk st;
                       artifacts := (artifacts st ++ [(p, numbered)])%list;
                       events := events st |}).

(** ** The two kinds of task *)

(** The installation: directories, and whether [require('sharp')]
    succeeded. *)
Record server : Type := {
  dirname : string;
  TEMP_DIR : string;
  OUTPUT_DIR : string;
  sharp : bool
}.

(** What the outside world does during one task.
    - [dirStamp], [dirRandom]: [Date.now()] and the random suffix when
      the task names its directory; [archiveStamp], [archiveRandom]:
      the same when it names the temporary archive.
    - [totalPages]: what [getPageCount] resolves to, [null] when
      [pdfinfo] fails.
    - [rasterized]: [None] when the rasterizer exits with an error,
      else the page images it left, as [imgFiles] lists them after
      filtering and sorting.
    - [extracted]: [None] when every extractor of the fallback chain
      fails, else the images of the extracted tree, sorted.
    - [decoded]: what [sharp] makes of an uploaded image, by path.
    - [packed]: [None] when the packer exits with an error, else
      whether it left the archive.
    - [artifactSize]: the size [statSync] reports for the output. *)
Record taskEnv : Type := {
  dirStamp : nat;
  dirRandom : string;
  archiveStamp : nat;
  archiveRandom : string;
  totalPages : JS.num;
  rasterized : option (list page);
  extracted : option (list image);
  decoded : string -> imageState;
  packed : option bool;
  artifactSize : nat
}.

Definition isDigit (c : ascii) : bool :=
  let n := nat_of_ascii c in ((48 <=? n) && (n <=? 57))%nat.

Definition isHexOrDash (c : ascii) : bool :=
  let n := nat_of_ascii c in
  (isDigit c || ((97 <=? n) && (n <=? 102)) || ((65 <=? n) && (n <=? 70)) || (n =? 45))%nat.

Fixpoint takeClass (p : ascii -> bool) (n : nat) (s : string) : option string :=
  match n with
  | O => Some s
  | S k =>
      match s with
      | String c t => if p c then takeClass p k t else None
      | EmptyString => None
      end
  end.

(** [fileName.replace(/_\d{13}_[a-f0-9\-]{36}$/i, '')] *)
Definition stripTechnicalSuffix (fileName : string) : string :=
  match takeClass isHexOrDash 36 (Path.rev fileName) with
  | Some (String "_" r1) =>
      match takeClass isDigit 13 r1 with
      | Some (String "_" r2) => Path.rev r2
      | _ => fileName
      end
  | _ => fileName
  end.

(** [safeTempArchiveName] *)
Definition tempArchiveName (env : taskEnv) (sf : string) : string :=
  "archive_" ++ JS.natToString (archiveStamp env) ++ "_" ++ archiveRandom env ++ "." ++
  (if String.eqb sf "rar4" then "cbr" else sf).

(** The assembly step: run the packer chosen for the format. *)
Definition runPacker (env : taskEnv) (p : packer) (tempOutputPath : string) : M unit :=
  match p with
  | CopyFolder => ret tt
  | PdfKit => writeFile tempOutputPath
  | Tar | SevenZip _ _ | Rar _ _ =>
      match packed env with
      | None => throw (ChildProcessError
                         (match p with Tar => "tar" | SevenZip _ _ => "7z" | _ => "rar" end))
      | Some true => writeFile tempOutputPath
      | Some false => ret tt
      end
  end.

Section Tasks.

Variable parseInt : string -> JS.num.
Variable srv : server.
Variable b : body.

(** [processConvertTask(file, taskIdx, totalTasks)] *)
Definition processConvertTask (env : taskEnv) (file taskIdx totalTasks : nat) : M result :=
  f <- getFile file ;;
  sendProgress (Started (taskIdx + 1) totalTasks (originalname f)) ;;
  let fileName := stripTechnicalSuffix (Path.parseName (originalname f)) in
  let tempDir := Path.join (Path.join (dirname srv) "upload")
                   (fileName ++ "_temp_" ++ JS.natToString (dirStamp env)) in
  mkdirSync tempDir ;;
  resolved <-
    (if JS.endsWith (JS.toLowerCase (originalname f)) ".pdf" then
       (if JS.endsWith (JS.toLowerCase (path f)) ".pdf" then ret tt
        else renameUpload file (path f ++ ".pdf")) ;;
       match rasterized env with
       | None =>
           throw (ChildProcessError (if isOriginal b then "pdfimages" else "pdftoppm"))
       | Some imgFiles =>
           r <- lift (pdfPages parseInt (sharp srv) b (originalname f) (totalPages env) imgFiles) ;;
           ret (fst (fst r), snd r)
       end
     else
       let ext := JS.toLowerCase (Path.extname (originalname f)) in
       (if negb (String.eqb ext "") && negb (JS.endsWith (JS.toLowerCase (path f)) ext)
        then renameUpload file (path f ++ ext) else ret tt) ;;
       match extracted env with
       | None => throw (ChildProcessError "7z")
       | Some extractedImages => lift (archivePages parseInt (sharp srv) b extractedImages)
       end) ;;
  let effectiveTotalPages := fst resolved in
  sendProgress (Assembling (taskIdx + 1)) ;;
  let sf := safeFormat b in
  let outputFileName := outputFileName b fileName in
  let safeTempArchiveName := tempArchiveName env sf in
  let tempOutputPath := Path.join (TEMP_DIR srv) safeTempArchiveName in
  runPacker env (choosePacker rarComp_convert sf (isOriginal b) (archCompVal parseInt b))
    tempOutputPath ;;
  st <- (fun st => (Ok st, st)) ;;
  (if negb (String.eqb sf "folder") && negb (existsSync tempOutputPath (disk st))
   then throw (ArchiveGenerationFailed safeTempArchiveName) else ret tt) ;;
  let persistentPath := Path.join (OUTPUT_DIR srv) outputFileName in
  (if String.eqb sf "folder"
   then rmSync persistentPath ;; mkdirSync persistentPath
   else copyFileSync tempOutputPath persistentPath ;; unlinkSync tempOutputPath) ;;
  recordArtifact persistentPath (snd resolved) ;;
  rmSync tempDir ;;
  f' <- getFile file ;;
  unlinkSync (path f') ;;
  ret {| name := outputFileName; rpath := persistentPath;
         size := artifactSize env; pages := effectiveTotalPages |}.

Definition describe (env : taskEnv) (f : file) : string * string * imageState :=
  (originalname f, path f, decoded env (path f)).

Fixpoint getFiles (l : list nat) : M (list file) :=
  match l with
  | [] => ret []
  | i :: r => f <- getFile i ;; fs <- getFiles r ;; ret (f :: fs)
  end.

(** [taskFiles.forEach(f => { if (fs.existsSync(f.path)) fs.unlinkSync(f.path); })] *)
Fixpoint unlinkExisting (fs : list file) : M unit :=
  match fs with
  | [] => ret tt
  | f :: r => rmSync (path f) ;; unlinkExisting r
  end.

(** [processMergeTask(taskFiles, baseName, taskIdx, totalTasks)] *)
Definition processMergeTask (env : taskEnv) (files : list nat) (baseName : string)
    (taskIdx totalTasks : nat) : M result :=
  sendProgress (Started (taskIdx + 1) totalTasks baseName) ;;
  let tempDir := Path.join (TEMP_DIR srv)
                   ("merge_" ++ JS.natToString (dirStamp env) ++ "_" ++ dirRandom env) in
  mkdirSync tempDir ;;
  fs <- getFiles files ;;
  let padding := String.length (JS.natToString (List.length fs)) in
  numbered <- lift (mergeLoop parseInt (sharp srv) b padding 0 (map (describe env) fs)) ;;
  sendProgress (Assembling (taskIdx + 1)) ;;
  let sf := safeFormat b in
  let outputFileName := outputFileName b baseName in
  let tempOutputPath := Path.join (TEMP_DIR srv) (tempArchiveName env sf) in
  runPacker env (choosePacker rarComp_merge sf (isOriginal b) (archCompVal parseInt b))
    tempOutputPath ;;
  let persistentPath := Path.join (OUTPUT_DIR srv) outputFileName in
  (if String.eqb sf "folder"
   then rmSync persistentPath ;; mkdirSync persistentPath
   else copyFileSync tempOutputPath persistentPath ;; unlinkSync tempOutputPath) ;;
  recordArtifact persistentPath numbered ;;
  rmSync tempDir ;;
  unlinkExisting fs ;;
  ret {| name := outputFileName; rpath := persistentPath;
         size := artifactSize env; pages := JS.ofNat (List.length fs) |}.

Definition processTask (envs : nat -> taskEnv) (t : task) (idx total : nat) : M result :=
  match t with
  | MERGE files name => processMergeTask (envs idx) files name idx total
  | CONVERT file => processConvertTask (envs idx) file idx total
  end.

End Tasks.

(** ** The task loop and the [catch] handler *)

(** [for (const [idx, task] of tasks.entries()) { ... results.push(res) }] *)
Fixpoint taskLoop (process : task -> nat -> nat -> M result) (total idx : nat)
    (tasks : list task) (results : list result) : M (list result) :=
  match tasks with
  | [] => ret results
  | t :: r =>
      res <- process t idx total ;;
      taskLoop process total (S idx) r (results ++ [res])%list
  end.

(** [r.pages || 0] *)
Definition pagesOrZero (r : result) : Z :=
  match pages r with
  | JS.Num z => z
  | _ => 0
  end.

(** What the handler answers: status 400, the batch summary, or
    status 500 with the error's message. *)
Inductive response : Type :=
| BadRequest
| Completed (totalFiles : nat) (totalPages : Z) (totalSize : nat) (files : list result)
| ConversionError (e : error).

(** The body of the [try] block, for any way of processing a task. *)
Definition tryBlock (process : task -> nat -> nat -> M result) : M (list result) :=
  st <- (fun st => (Ok st, st)) ;;
  sendProgress (Received (List.length (uploads st))) ;;
  tasks <- lift (classify (uploads st)) ;;
  sendProgress (Identified (List.length tasks)) ;;
  taskLoop process (List.length tasks) 0 tasks [].

(** [req.files.forEach(f => { if (fs.existsSync(f.path)) fs.unlinkSync(f.path); })] *)
Definition sweepUploads (st : state) : state :=
  setDisk (fold_left (fun d f => removed (path f) d) (uploads st) (disk st)) st.

(** The handler with [try] and [catch]: the response, and the state it
    leaves. *)
Definition handle (process : task -> nat -> nat -> M result) (st : state) : response * state :=
  match uploads st with
  | [] => (BadRequest, st)
  | _ =>
      match tryBlock process st with
      | (Ok results, st') =>
          (Completed (List.length results)
             (fold_left (fun acc r => acc + pagesOrZero r) results 0)
             (fold_left (fun acc r => (acc + size r)%nat) results O)
             results, st')
      | (Throw e, st') => (ConversionError e, sweepUploads st')
      end
  end.

(** [app.post('/convert', ...)] *)
Definition convert (parseInt : string -> JS.num) (srv : server) (b : body)
    (envs : nat -> taskEnv) (st : state) : response * state :=
  handle (processTask parseInt srv b envs) st.

(** ** Sample requests and installations *)

Definition emptyBody : body :=
  {| dpi := None; maxWidth := None; colorMode := None; pageStart := None;
     pageEnd := None; format := None; compression := None;
     archiveCompression := None; imgFormat := None; rotation := None;
     splitDouble := None; readingDir := None |}.

Definition withDpi (v : string) (b : body) : body :=
  {| dpi := Some v; maxWidth := maxWidth b; colorMode := colorMode b;
     pageStart := pageStart b; pageEnd := pageEnd b; format := format b;
     compression := compression b; archiveCompression := archiveCompression b;
     imgFormat := imgFormat b; rotation := rotation b;
     splitDouble := splitDouble b; readingDir := readingDir b |}.

Definition withRange (s e : string) (b : body) : body :=
  {| dpi := dpi b; maxWidth := maxWidth b; colorMode := colorMode b;
     pageStart := Some s; pageEnd := Some e; format := format b;
     compression := compression b; archiveCompression := archiveCompression b;
     imgFormat := imgFormat b; rotation := rotation b;
     splitDouble := splitDouble b; readingDir := readingDir b |}.

Definition withFormat (v : string) (b : body) : body :=
  {| dpi := dpi b; maxWidth := maxWidth b; colorMode := colorMode b;
     pageStart := pageStart b; pageEnd := pageEnd b; format := Some v;
     compression := compression b; archiveCompression := archiveCompression b;
     imgFormat := imgFormat b; rotation := rotation b;
     splitDouble := splitDouble b; readingDir := readingDir b |}.

Definition withArchiveCompression (v : string) (b : body) : body :=
  {| dpi := dpi b; maxWidth := maxWidth b; colorMode := colorMode b;
     pageStart := pageStart b; pageEnd := pageEnd b; format := format b;
     compression := compression b; archiveCompression := Some v;
     imgFormat := imgFormat b; rotation := rotation b;
     splitDouble := splitDouble b; readingDir := readingDir b |}.

Definition withSplit (mode dir : string) (b : body) : body :=
  {| dpi := dpi b; maxWidth := maxWidth b; colorMode := colorMode b;
     pageStart := pageStart b; pageEnd := pageEnd b; format := format b;
     compression := compression b; archiveCompression := archiveCompression b;
     imgFormat := imgFormat b; rotation := rotation b;
     splitDouble := Some mode; readingDir := Some dir |}.

(** The Docker image: the application lives in [/app], [sharp] is
    installed. *)
Definition docker : server :=
  {| dirname := "/app"; TEMP_DIR := "/app/temp"; OUTPUT_DIR := "/app/output";
     sharp := true |}.

(** Every tool succeeds; a PDF has one page, 2000 by 1000 pixels once
    rendered; the first archive of the batch holds no image, the others
    one. *)
Definition calmEnv (i : nat) : taskEnv :=
  {| dirStamp := 1700 + i; dirRandom := "k3x9a";
     archiveStamp := 1800 + i; archiveRandom := "q7m2c";
     totalPages := JS.Num 1;
     rasterized := Some [ {| pname := "page-1.jpg"; psize := Some (2000, 1000)%nat |} ];
     extracted := Some (match i with
                        | O => []
                        | _ => [ {| ipath := "/app/upload/b_temp_1701/01.png";
                                    istate := Readable; isize := (2000, 1000)%nat |} ]
                        end);
     decoded := fun _ => Readable;
     packed := Some true;
     artifactSize := 4096 |}.

(** The state multer leaves: every uploaded file is on disk. *)
Definition uploaded (files : list file) : state :=
  {| uploads := files; disk := map path files; artifacts := []; events := [] |}.

Definition render300 : body := withDpi "300" emptyBody.

Definition splitRtl : body := withSplit "auto" "rtl" render300.

Definition cbr9 : body := withArchiveCompression "9" (withFormat "cbr" render300).

Definition originalGray : body :=
  {| dpi := Some "original"; maxWidth := Some "1200"; colorMode := Some "gray";
     pageStart := Some "2"; pageEnd := None; format := Some "cbr";
     compression := Some "60"; archiveCompression := Some "9";
     imgFormat := Some "png"; rotation := Some "90";
     splitDouble := Some "auto"; readingDir := Some "rtl" |}.

Definition twoArchives : list file :=
  [ {| originalname := "a.cbz"; path := "/app/upload/5d0c" |};
    {| originalname := "b.cbz"; path := "/app/upload/91fe" |} ].

Definition onePdf : list file :=
  [ {| originalname := "book.pdf"; path := "/app/upload/3f2a" |} ].

Definition widePage : page :=
  {| pname := "page-1.jpg"; psize := Some (2000, 1000)%nat |}.

Definition wideImage : image :=
  {| ipath := "/app/upload/b_temp_1701/01.png"; istate := Readable;
     isize := (2000, 1000)%nat |}.


(** ** Notions used in the statements *)

Fixpoint allChars (p : ascii -> bool) (s : string) : bool :=
  match s with
  | EmptyString => true
  | String c r => p c && allChars p r
  end.

(** Neither a slash nor a dot. *)
Definition plain (c : ascii) : bool := negb (Path.isSlash c) && negb (Path.isDot c).

(** A file whose name has a single segment. *)
Definition isRoot (x : nat * file) : bool :=
  match rootDir (originalname (snd x)) with
  | None => true
  | Some _ => false
  end.

(** The files from position [idx] on, each with its position. *)
Definition numbered (idx : nat) (files : list file) : list (nat * file) :=
  combine (seq idx (List.length files)) files.

(** Every member of a group has the group's key as first segment. *)
Definition keyed (g : groupsObject) : Prop :=
  forall k v x, In (k, v) g -> In x v -> rootDir (originalname (snd x)) = Some k.

(** A file some task takes: it lies at the root or is an image. *)
Definition kept (x : nat * file) : bool := isRoot x || isImage x.

(** The pages the splitting loop visits. *)
Definition visited (effectiveTotalPages : JS.num) (imgFiles : list page) : list page :=
  firstn (turns (JS.min (JS.ofNat (List.length imgFiles)) effectiveTotalPages)) imgFiles.


(** The extensions [exts] numbered from the counter [c] on. *)
Fixpoint numberFrom (padding c : nat) (exts : list string) : list string :=
  match exts with
  | [] => []
  | e :: r => (pageNumber padding c ++ e) :: numberFrom padding (S c) r
  end.

(** Eight readable images, as an archive holds them once extracted
    and sorted. *)
Definition eightImages : list image :=
  map (fun n => {| ipath := "/app/upload/vol_temp_1700/" ++ n; istate := Readable;
                   isize := (1200, 1800)%nat |})
    ["01.JPG"; "02.JPG"; "03.JPG"; "04.JPG"; "05.png"; "06.png"; "07.png"; "08.png"].

(** The double pages among [pages]: those the splitting loop cuts. *)
Definition doubles (pages : list page) : list page :=
  filter (fun p => match psize p with
                   | Some (w, h) => isDouble w h
                   | None => false
                   end) pages.

(** The state when the task loop starts: the two opening events have
    been sent. *)
Definition opened (st : state) (tasks : nat) : state :=
  {| uploads := uploads st; disk := disk st; artifacts := artifacts st;
     events := ((events st ++ [Received (List.length (uploads st))]) ++
                [Identified tasks])%list |}.

(** ** The page count of a PDF *)

(** [\s] on the characters below 256: tab, line feed, vertical tab,
    form feed, carriage return, space and no-break space. *)
Definition isSpace (c : ascii) : bool :=
  let n := nat_of_ascii c in
  (((9 <=? n) && (n <=? 13)) || (n =? 32) || (n =? 160))%nat.

Fixpoint takeWhile (p : ascii -> bool) (s : string) : string :=
  match s with
  | String c r => if p c then String c (takeWhile p r) else EmptyString
  | EmptyString => EmptyString
  end.

Fixpoint dropWhile (p : ascii -> bool) (s : string) : string :=
  match s with
  | String c r => if p c then dropWhile p r else s
  | EmptyString => EmptyString
  end.

(** What follows the literal [lit] at the start of [s]. *)
Fixpoint afterLiteral (lit s : string) : option string :=
  match lit with
  | EmptyString => Some s
  | String a lit' =>
      match s with
      | String c r => if Ascii.eqb a c then afterLiteral lit' r else None
      | EmptyString => None
      end
  end.

(** [/Pages:\s+(\d+)/] anchored at the start of [s]: the digits it
    captures.  Both quantifiers are greedy and a blank is no digit, so
    backtracking finds nothing more. *)
Definition matchPagesAt (s : string) : option string :=
  match afterLiteral "Pages:" s with
  | Some r =>
      match takeWhile isSpace r, takeWhile isDigit (dropWhile isSpace r) with
      | String _ _, String d ds => Some (String d ds)
      | _, _ => None
      end
  | None => None
  end.

(** [stdout.match(/Pages:\s+(\d+)/)]: the capture of the leftmost
    match. *)
Fixpoint matchPages (stdout : string) : option string :=
  match matchPagesAt stdout with
  | Some ds => Some ds
  | None =>
      match stdout with
      | String _ r => matchPages r
      | EmptyString => None
      end
  end.

(** [getPageCount(filePath)], given what [pdfinfo] printed ([None]:
    it exited with an error).  On a string of digits [parseInt] is the
    decimal value. *)
Definition getPageCount (pdfinfo : option string) : JS.num :=
  match pdfinfo with
  | None => JS.Null
  | Some stdout =>
      match matchPages stdout with
      | Some ds => parseDecimal ds
      | None => JS.Null
      end
  end.

(** ** The [/analyze] route *)

(** [s.startsWith(p)] *)
Definition startsWith (s p : string) : bool := String.prefix p s.

(** [s.includes(sub)] on strings. *)
Fixpoint stringIncludes (s sub : string) : bool :=
  match s with
  | String _ r => String.prefix sub s || stringIncludes r sub
  | EmptyString => String.prefix sub s
  end.

Definition isLF (c : ascii) : bool := (nat_of_ascii c =? 10)%nat.
Definition isCR (c : ascii) : bool := (nat_of_ascii c =? 13)%nat.

(** The first line of a non-empty list of lines gets one more
    character in front. *)
Definition consToFirst (c : ascii) (l : list string) : list string :=
  match l with
  | first :: rest => String c first :: rest
  | [] => [String c EmptyString]
  end.

(** [stdout.split(/\r?\n/)] *)
Fixpoint splitLines (stdout : string) : list string :=
  match stdout with
  | EmptyString => [EmptyString]
  | String c r =>
      if isLF c then EmptyString :: splitLines r
      else if isCR c then
        match r with
        | String c' r' =>
            if isLF c' then EmptyString :: splitLines r'
            else consToFirst c (splitLines r)
        | EmptyString => consToFirst c (splitLines r)
        end
      else consToFirst c (splitLines r)
  end.

Definition analyzeSuffixes : list string :=
  [".jpg"; ".jpeg"; ".png"; ".gif"; ".webp"; ".tiff"; ".bmp"].

(** The test a line of the listing passes to count as a page:
    [/\.(jpg|jpeg|png|gif|webp|tiff|bmp)$/i.test(line) &&
     !line.includes('__MACOSX') && !line.includes('thumbs.db')] *)
Definition countsAsPage (line : string) : bool :=
  existsb (JS.endsWith (JS.toLowerCase line)) analyzeSuffixes &&
  negb (stringIncludes line "__MACOSX") &&
  negb (stringIncludes line "thumbs.db").

(** [count] after the loop over the lines. *)
Definition countPages (stdout : string) : nat :=
  List.length (filter countsAsPage (splitLines stdout)).

(** What [/analyze] answers: status 400 with [pages: 0], or the page
    count. *)
Inductive analysis : Type :=
| NoFile
| PageCount (pages : nat).

(** [app.post('/analyze', ...)]: the answer and the files left on
    disk.  [listing] is what [7z l] printed ([None]: it exited with an
    error). *)
Definition analyze (upload : option file) (listing : option string)
    (d : list string) : analysis * list string :=
  match upload with
  | None => (NoFile, d)
  | Some f =>
      let ext := JS.toLowerCase (Path.extname (originalname f)) in
      let renamed :=
        if negb (String.eqb ext "") && negb (JS.endsWith (JS.toLowerCase (path f)) ext)
        then if existsSync (path f) d
             then (path f ++ ext, created (path f ++ ext) (removed (path f) d))
             else (path f, d)
        else (path f, d) in
      let d' := removed (fst renamed) (snd renamed) in
      match listing with
      | None => (PageCount 1, d')
      | Some stdout =>
          let count := countPages stdout in
          (PageCount (if (count =? 0)%nat then 1%nat else count), d')
      end
  end.

(** ** The task directory at assembly *)

(** [arr.sort()] on strings: ascending by code units. *)
Fixpoint insertSorted (x : string) (l : list string) : list string :=
  match l with
  | [] => [x]
  | y :: r => if String.leb x y then x :: l else y :: insertSorted x r
  end.

Definition sort (l : list string) : list string := fold_right insertSorted [] l.

Definition validExts : list string :=
  [".jpg"; ".jpeg"; ".png"; ".tif"; ".tiff"; ".bmp"].

(** [/^thumb_/i.test(f)] *)
Definition isThumb (f : string) : bool := startsWith (JS.toLowerCase f) "thumb_".

(** The filter that gives [imgFiles]:
    [validExts.includes(path.extname(f).toLowerCase()) && !/^thumb_/i.test(f)] *)
Definition isPageImage (f : string) : bool :=
  JS.includes validExts (JS.toLowerCase (Path.extname f)) && negb (isThumb f).

Definition pdfSuffixes : list string := [".jpg"; ".jpeg"; ".png"].

(** [/\.(jpg|jpeg|png)$/i.test(f)] *)
Definition isPdfImage (f : string) : bool :=
  existsb (JS.endsWith (JS.toLowerCase f)) pdfSuffixes.

(** The images the PDF assembly embeds, one page each, for a task
    directory that lists [dir]:
    [fs.readdirSync(tempDir).filter(f => /\.(jpg|jpeg|png)$/i.test(f)).sort()] *)
Definition pdfImages (dir : list string) : list string :=
  sort (filter isPdfImage dir).

(** The test a file of the task directory passes to reach a folder
    output:
    [!f.startsWith('thumb_') && !f.startsWith('.') &&
     /\.(jpg|jpeg|png|tif|tiff|bmp|webp)$/i.test(f)] *)
Definition isCopied (f : string) : bool :=
  negb (startsWith f "thumb_") && negb (startsWith f ".") &&
  existsb (JS.endsWith (JS.toLowerCase f)) imageSuffixes.

(** [filesToCopy] for a task directory that lists [dir]. *)
Definition filesToCopy (dir : list string) : list string := filter isCopied dir.

(** ** Notions *)

(** A line feed, and a carriage return followed by one. *)
Definition LF : string := String "010" EmptyString.
Definition CRLF : string := String "013" (String "010" EmptyString).

(** The lines [ls] joined by the separator [sep]. *)
Fixpoint joinLines (sep : string) (ls : list string) : string :=
  match ls with
  | [] => EmptyString
  | [l] => l
  | l :: r => l ++ sep ++ joinLines sep r
  end.

(** Neither a line feed nor a carriage return. *)
Definition inLine (c : ascii) : bool := negb (isLF c) && negb (isCR c).

(** The extension a merge task gives the page it writes for a file. *)
Definition mergeExt (parseInt : string -> JS.num) (sharp : bool) (b : body)
    (x : string * string * imageState) : string :=
  let ext := JS.toLowerCase (Path.extname (fst (fst x))) in
  let isExotic := JS.includes [".webp"; ".bmp"] ext in
  if shouldUseSharp parseInt sharp b isExotic then outExt_merge b isExotic else ext.

(** The name a task gives its output, before the extension. *)
Definition taskBase (files : list file) (t : task) : string :=
  match t with
  | MERGE _ name => name
  | CONVERT i =>
      match nth_error files i with
      | Some f => stripTechnicalSuffix (Path.parseName (originalname f))
      | None => ""
      end
  end.

(** Strictly ascending by code units. *)
Definition ascending (l : list string) : Prop :=
  StronglySorted (fun a b => String.ltb a b = true) l.

(** What does not start with a character of the class [p]. *)
Definition stopsAt (p : ascii -> bool) (s : string) : bool :=
  match s with
  | String c _ => negb (p c)
  | EmptyString => true
  end.

(** Without a dot. *)
Definition noDot (s : string) : bool := allChars (fun c => negb (Path.isDot c)) s.

(** A dot followed by characters that are no dots. *)
Definition isExtension (sfx : string) : bool :=
  match sfx with
  | String c t => Path.isDot c && noDot t
  | EmptyString => false
  end.

(** No own property of [groups] is named like a property of
    [Object.prototype]. *)
Definition ownKeysOnly (g : groupsObject) : Prop :=
  forall k, In k (map fst g) -> JS.includes objectPrototypeKeys k = false.

(** A file in a folder for whose name a plain object holds an
    inherited property instead of an array. *)
Definition inPrototypeFolder (f : file) : bool :=
  match rootDir (originalname f) with
  | Some d => JS.includes objectPrototypeKeys d
  | None => false
  end.

(** Positions in upload order. *)
Definition increasing (l : list nat) : Prop := StronglySorted lt l.

(** The positions a list of files holds are increasing and below [idx]. *)
Definition inOrderBelow (idx : nat) (v : list (nat * file)) : Prop :=
  increasing (map fst v) /\ Forall (fun i => (i < idx)%nat) (map fst v).

Definition groupsInOrder (idx : nat) (g : groupsObject) : Prop :=
  forall k v, In (k, v) g -> inOrderBelow idx v.

(** From [s] to [s'] the file objects and the artifacts written are
    the same, and the disk gained at most the paths [X]. *)
Definition grows (X : list string) (s s' : state) : Prop :=
  uploads s' = uploads s /\
  artifacts s' = artifacts s /\
  forall p, existsSync p (disk s') = true -> existsSync p (disk s) = true \/ In p X.

(** From [s] to [s'] the file object at position [i] may have been
    renamed: the other file objects are the same, every name is, and
    the only path that may have appeared is the one the object at [i]
    carries in [s']. *)
Definition renames (i : nat) (s s' : state) : Prop :=
  map originalname (uploads s') = map originalname (uploads s) /\
  (forall j, j <> i -> nth_error (uploads s') j = nth_error (uploads s) j) /\
  (forall p, existsSync p (disk s') = true ->
     existsSync p (disk s) = true \/
     exists f', nth_error (uploads s') i = Some f' /\ p = path f').

(** What the result [r] says of the task [t] of a batch whose files
    were uploaded as [files]: the output is named after the task, lies
    in the output directory and, for a merge task, has one page per
    file. *)
Definition reports (srv : server) (b : body) (files : list file) (t : task) (r : result) : Prop :=
  name r = outputFileName b (taskBase files t) /\
  rpath r = Path.join (OUTPUT_DIR srv) (name r) /\
  (forall fs nm, t = MERGE fs nm -> pages r = JS.ofNat (List.length fs)).

(** * Properties *)

(** ** Node's [path] functions on examples from its documentation *)

Example extname_html : Path.extname "index.html" = ".html".
Proof. reflexivity. Qed.

Example extname_two_dots : Path.extname "index.coffee.md" = ".md".
Proof. reflexivity. Qed.

Example extname_trailing_dot : Path.extname "index." = ".".
Proof. reflexivity. Qed.

Example extname_none : Path.extname "index" = "".
Proof. reflexivity. Qed.

Example extname_hidden : Path.extname ".index" = "".
Proof. reflexivity. Qed.

Example extname_hidden_md : Path.extname ".index.md" = ".md".
Proof. reflexivity. Qed.

Example extname_dotdot : Path.extname "a/.." = "" /\ Path.extname "..." = ".".
Proof. split; reflexivity. Qed.

Example parseName_pdf : Path.parseName "Tome 1.v2.pdf" = "Tome 1.v2".
Proof. reflexivity. Qed.

Example stripTechnicalSuffix_upload :
  stripTechnicalSuffix "Tome 1_1700000000000_123e4567-e89b-12d3-a456-426614174000" = "Tome 1".
Proof. reflexivity. Qed.

Example parseDecimal_examples :
  parseDecimal "12" = JS.Num 12 /\ parseDecimal "-3" = JS.Num (-3) /\
  parseDecimal "abc" = JS.NaN /\ parseDecimal "" = JS.NaN.
Proof. repeat split. Qed.

(** ** Strings *)

Lemma append_nil_r (s : string) : s ++ "" = s.
Proof. induction s as [|c s IH]; simpl; [reflexivity | now rewrite IH]. Qed.

Lemma append_assoc (a b c : string) : (a ++ b) ++ c = a ++ b ++ c.
Proof. induction a as [|x a IH]; simpl; [reflexivity | now rewrite IH]. Qed.

Lemma rev_acc_spec (s acc : string) : JS.rev_acc s acc = JS.rev_acc s "" ++ acc.
Proof.
  revert acc. induction s as [|c s IH]; intros acc; simpl; [reflexivity|].
  rewrite IH. rewrite (IH (String c "")). now rewrite append_assoc.
Qed.

Lemma rev_app (a b : string) : Path.rev (a ++ b) = Path.rev b ++ Path.rev a.
Proof.
  unfold Path.rev. induction a as [|c a IH]; simpl.
  - now rewrite append_nil_r.
  - rewrite rev_acc_spec, IH, (rev_acc_spec a (String c "")). apply append_assoc.
Qed.

Lemma rev_cons (c : ascii) (s : string) : Path.rev (String c s) = Path.rev s ++ String c "".
Proof. unfold Path.rev. simpl. apply rev_acc_spec. Qed.

Lemma rev_involutive (s : string) : Path.rev (Path.rev s) = s.
Proof.
  induction s as [|c s IH]; [reflexivity|].
  rewrite rev_cons, rev_app, IH. reflexivity.
Qed.

Lemma allChars_app p (a b : string) :
  allChars p (a ++ b) = allChars p a && allChars p b.
Proof. induction a as [|c a IH]; simpl; [reflexivity|]. now rewrite IH, andb_assoc. Qed.

Lemma allChars_rev p (s : string) : allChars p (Path.rev s) = allChars p s.
Proof.
  induction s as [|c s IH]; [reflexivity|].
  rewrite rev_cons, allChars_app, IH. simpl. rewrite andb_true_r. apply andb_comm.
Qed.

Lemma allChars_weaken (p q : ascii -> bool) (s : string) :
  (forall c, p c = true -> q c = true) -> allChars p s = true -> allChars q s = true.
Proof.
  intros Hpq. induction s as [|c s IH]; simpl; [reflexivity|].
  intros H. apply andb_true_iff in H as [Hc Hs]. now rewrite (Hpq _ Hc), IH.
Qed.

(** *** Decimal numerals *)

Lemma string_of_uint_digits (d : uint) : allChars isDigit (NilEmpty.string_of_uint d) = true.
Proof. induction d; simpl; auto. Qed.

Lemma to_uint_nonnil (n : nat) : Nat.to_uint n <> Nil.
Proof.
  rewrite <- (Unsigned.of_to n) at 1. rewrite Unsigned.to_of. apply unorm_nonnil.
Qed.

Lemma natToString_digits (n : nat) : allChars isDigit (JS.natToString n) = true.
Proof. apply string_of_uint_digits. Qed.

Lemma natToString_nonempty (n : nat) : JS.natToString n <> "".
Proof.
  unfold JS.natToString. generalize (to_uint_nonnil n).
  destruct (Nat.to_uint n); simpl; congruence.
Qed.

Lemma zeros_digits (n : nat) : allChars isDigit (JS.zeros n) = true.
Proof. induction n; simpl; auto. Qed.

Lemma pageNumber_digits (padding idx : nat) : allChars isDigit (pageNumber padding idx) = true.
Proof.
  unfold pageNumber, JS.padStart.
  destruct (_ <=? _)%nat.
  - apply natToString_digits.
  - now rewrite allChars_app, zeros_digits, natToString_digits.
Qed.

Lemma pageNumber_nonempty (padding idx : nat) : pageNumber padding idx <> "".
Proof.
  unfold pageNumber, JS.padStart.
  destruct (_ <=? _)%nat.
  - apply natToString_nonempty.
  - generalize (natToString_nonempty (idx + 1)).
    destruct (JS.zeros _); simpl; [tauto | congruence].
Qed.

Lemma digit_plain (c : ascii) : isDigit c = true -> plain c = true.
Proof.
  unfold isDigit, plain, Path.isSlash, Path.isDot. intros H.
  destruct (Ascii.eqb_spec c "/") as [->|_]; [discriminate H|].
  destruct (Ascii.eqb_spec c ".") as [->|_]; [discriminate H|]. reflexivity.
Qed.

(** *** [path.extname] *)


Lemma splitDot_app (a b : string) :
  allChars (fun c => negb (Path.isDot c)) a = true ->
  Path.splitDot (a ++ String "." b) = Some (a, b).
Proof.
  induction a as [|c a IH]; simpl; [reflexivity|].
  intros H. apply andb_true_iff in H as [Hc Ha].
  apply negb_true_iff in Hc. now rewrite Hc, IH.
Qed.

Lemma splitDot_some (r a b : string) :
  Path.splitDot r = Some (a, b) ->
  r = a ++ String "." b /\ allChars (fun c => negb (Path.isDot c)) a = true.
Proof.
  revert a b. induction r as [|c r IH]; simpl; intros a b H; [discriminate|].
  destruct (Path.isDot c) eqn:Hc.
  - injection H as <- <-. apply Ascii.eqb_eq in Hc. subst c. now split.
  - destruct (Path.splitDot r) as [[a' b']|]; [|discriminate].
    injection H as <- <-. destruct (IH _ _ eq_refl) as [-> Ha].
    simpl. now rewrite Hc.
Qed.

Lemma upToSlash_noslash (s : string) :
  allChars (fun c => negb (Path.isSlash c)) (Path.upToSlash s) = true.
Proof.
  induction s as [|c s IH]; simpl; [reflexivity|].
  destruct (Path.isSlash c) eqn:Hc; simpl; [reflexivity|]. now rewrite Hc, IH.
Qed.

Lemma upToSlash_id (s : string) :
  allChars (fun c => negb (Path.isSlash c)) s = true -> Path.upToSlash s = s.
Proof.
  induction s as [|c s IH]; simpl; [reflexivity|].
  intros H. apply andb_true_iff in H as [Hc Hs].
  apply negb_true_iff in Hc. now rewrite Hc, IH.
Qed.

Lemma dropSlashes_id (s : string) :
  allChars (fun c => negb (Path.isSlash c)) s = true -> Path.dropSlashes s = s.
Proof.
  destruct s as [|c s]; simpl; [reflexivity|].
  intros H. apply andb_true_iff in H as [Hc _].
  apply negb_true_iff in Hc. now rewrite Hc.
Qed.

Lemma lastPart_plain (s : string) :
  allChars (fun c => negb (Path.isSlash c)) s = true -> Path.lastPart s = Path.rev s.
Proof.
  intros H. unfold Path.lastPart.
  rewrite dropSlashes_id, upToSlash_id; auto; now rewrite allChars_rev.
Qed.

Lemma plain_both (s : string) :
  allChars (fun c => negb (Path.isSlash c)) s = true ->
  allChars (fun c => negb (Path.isDot c)) s = true ->
  allChars plain s = true.
Proof.
  induction s as [|c r IH]; simpl; [reflexivity|].
  intros H1 H2. apply andb_true_iff in H1 as [H1 H1']. apply andb_true_iff in H2 as [H2 H2'].
  rewrite IH by assumption. unfold plain. now rewrite H1, H2.
Qed.

(** The extension is empty, or a dot followed by characters that are
    neither dots nor slashes. *)
Lemma extname_shape (p : string) :
  Path.extname p = "" \/
  exists suf, Path.extname p = String "." suf /\ allChars plain suf = true.
Proof.
  unfold Path.extname.
  destruct (Path.splitDot (Path.lastPart p)) as [[rsuf rpre]|] eqn:Hs; [|now left].
  destruct (String.eqb rpre ""); [now left|].
  destruct (String.eqb (Path.lastPart p) ".."); [now left|].
  right. exists (Path.rev rsuf). split; [reflexivity|].
  apply splitDot_some in Hs as [Hrc Hdot].
  pose proof (upToSlash_noslash (Path.dropSlashes (Path.rev p))) as Hsl.
  fold (Path.lastPart p) in Hsl. rewrite Hrc, allChars_app in Hsl.
  apply andb_true_iff in Hsl as [Hsl _].
  rewrite allChars_rev. now apply plain_both.
Qed.

Lemma plain_noslash (s : string) :
  allChars plain s = true -> allChars (fun c => negb (Path.isSlash c)) s = true.
Proof. apply allChars_weaken. intros c H. now apply andb_true_iff in H as [H _]. Qed.

Lemma plain_nodot (s : string) :
  allChars plain s = true -> allChars (fun c => negb (Path.isDot c)) s = true.
Proof. apply allChars_weaken. intros c H. now apply andb_true_iff in H as [_ H]. Qed.


(** ** Renumbering *)





Example renumber_twelve_pages :
  renumber ["page-09.jpg"; "split_10_b.jpg"; "split_10_a.jpg"; "page-11.png"] =
  ["001.jpg"; "002.jpg"; "003.jpg"; "004.png"].
Proof. reflexivity. Qed.

Local Open Scope list_scope.

(** ** Lists *)

Lemma Permutation_filter {A} (f : A -> bool) (l l' : list A) :
  Permutation l l' -> Permutation (filter f l) (filter f l').
Proof.
  induction 1 as [|x l l' _ IH|x y l|l l' l'' _ IH1 _ IH2]; simpl.
  - constructor.
  - destruct (f x); [now constructor | assumption].
  - destruct (f x), (f y); try reflexivity. apply perm_swap.
  - now transitivity (filter f l').
Qed.

Lemma filter_partition {A} (f : A -> bool) (l : list A) :
  Permutation (filter f l ++ filter (fun x => negb (f x)) l) l.
Proof.
  induction l as [|x l IH]; simpl; [constructor|].
  destruct (f x); simpl.
  - now constructor.
  - symmetry. apply Permutation_cons_app. now symmetry.
Qed.

Lemma flat_map_filter_map {A B} (p : B -> bool) (g : A -> list B) (l : list A) :
  flat_map (fun e => filter p (g e)) l = filter p (flat_map g l).
Proof.
  induction l as [|x l IH]; simpl; [reflexivity|]. now rewrite filter_app, IH.
Qed.

(** ** [Object.entries] *)

Lemma insertByIndex_perm {A} (z : Z) (x : A) (l : list (Z * A)) :
  Permutation (insertByIndex z x l) ((z, x) :: l).
Proof.
  induction l as [|[z' y] l IH]; simpl; [reflexivity|].
  destruct (z <=? z')%Z; [reflexivity|].
  rewrite IH. apply perm_swap.
Qed.

Lemma indexEntries_perm {A} (g : list (string * A)) :
  Permutation (map snd (indexEntries g)) (filter (fun e => negb (isNamedKey e)) g).
Proof.
  induction g as [|[k v] g IH]; simpl; [constructor|].
  unfold isNamedKey at 1. simpl.
  destruct (arrayIndex k) as [z|]; simpl; [|exact IH].
  rewrite insertByIndex_perm. simpl. now constructor.
Qed.

Lemma Object_entries_perm {A} (g : list (string * A)) :
  Permutation (Object_entries g) g.
Proof.
  unfold Object_entries. rewrite indexEntries_perm.
  rewrite Permutation_app_comm. apply filter_partition.
Qed.

(** ** The grouping loop *)

Lemma pushOwn_perm k x g g' :
  pushOwn k x g = Some g' -> Permutation (flat_map snd g') (x :: flat_map snd g).
Proof.
  revert g'. induction g as [|[k' v] g IH]; simpl; intros g' H; [discriminate|].
  destruct (String.eqb k k').
  - injection H as <-. simpl. rewrite <- List.app_assoc. simpl.
    symmetry. apply Permutation_cons_app. reflexivity.
  - destruct (pushOwn k x g) as [r'|]; [|discriminate]. injection H as <-.
    simpl. rewrite (IH _ eq_refl). symmetry. apply Permutation_middle.
Qed.

Lemma pushOwn_keyed k x g g' :
  pushOwn k x g = Some g' -> rootDir (originalname (snd x)) = Some k ->
  keyed g -> keyed g'.
Proof.
  revert g'. induction g as [|[k' v] g IH]; simpl; intros g' H Hx Hg; [discriminate|].
  destruct (String.eqb_spec k k') as [<-|Hne].
  - injection H as <-. intros k1 v1 y [E|Hin] Hy.
    + injection E as <- <-. apply in_app_or in Hy as [Hy|[<-|[]]]; [|exact Hx].
      eapply Hg; [left; reflexivity | exact Hy].
    + eapply Hg; [right; exact Hin | exact Hy].
  - destruct (pushOwn k x g) as [r'|]; [|discriminate]. injection H as <-.
    assert (Hr : keyed r').
    { apply (IH _ eq_refl Hx). intros k1 v1 y Hin Hy. eapply Hg; [right; exact Hin | exact Hy]. }
    intros k1 v1 y [E|Hin] Hy.
    + injection E as <- <-. eapply Hg; [left; reflexivity | exact Hy].
    + eapply Hr; eassumption.
Qed.

Lemma groupPush_perm k x g g' :
  groupPush k x g = Ok g' -> Permutation (flat_map snd g') (x :: flat_map snd g).
Proof.
  unfold groupPush. destruct (pushOwn k x g) as [g1|] eqn:Hp.
  - intros H. injection H as <-. now apply pushOwn_perm with (k := k).
  - destruct (JS.includes objectPrototypeKeys k); [discriminate|].
    intros H. injection H as <-. rewrite flat_map_app. simpl.
    symmetry. apply Permutation_cons_append.
Qed.

Lemma groupPush_keyed k x g g' :
  groupPush k x g = Ok g' -> rootDir (originalname (snd x)) = Some k ->
  keyed g -> keyed g'.
Proof.
  unfold groupPush. destruct (pushOwn k x g) as [g1|] eqn:Hp.
  - intros H. injection H as <-. now apply pushOwn_keyed with (k := k) (x := x) (g := g).
  - destruct (JS.includes objectPrototypeKeys k); [discriminate|].
    intros H Hx Hg. injection H as <-.
    intros k1 v1 y Hin Hy. apply in_app_or in Hin as [Hin|[E|[]]].
    + eapply Hg; eassumption.
    + injection E as <- <-. destruct Hy as [<-|[]]. exact Hx.
Qed.

Lemma groupFiles_spec files : forall idx groups rootFiles G R,
  groupFiles idx files groups rootFiles = Ok (G, R) ->
  R = rootFiles ++ filter isRoot (numbered idx files) /\
  Permutation (flat_map snd G)
    (flat_map snd groups ++ filter (fun x => negb (isRoot x)) (numbered idx files)) /\
  (keyed groups -> keyed G).
Proof.
  induction files as [|f files IH]; simpl; intros idx groups rootFiles G R H.
  - injection H as <- <-. unfold numbered. simpl. rewrite !List.app_nil_r. auto.
  - change (numbered idx (f :: files)) with ((idx, f) :: numbered (S idx) files).
    simpl filter.
    destruct (rootDir (originalname f)) as [d|] eqn:Hd.
    + assert (Hr : isRoot (idx, f) = false) by (unfold isRoot; simpl; now rewrite Hd).
      rewrite Hr. simpl.
      destruct (groupPush d (idx, f) groups) as [g'|e] eqn:Hp; [|discriminate].
      destruct (IH _ _ _ _ _ H) as (HR & HG & HK).
      split; [exact HR|]. split.
      * rewrite HG, (groupPush_perm _ _ _ _ Hp). simpl. apply Permutation_middle.
      * intros Hg. apply HK. apply (groupPush_keyed _ _ _ _ Hp); [exact Hd | exact Hg].
    + assert (Hr : isRoot (idx, f) = true) by (unfold isRoot; simpl; now rewrite Hd).
      rewrite Hr. simpl.
      destruct (IH _ _ _ _ _ H) as (HR & HG & HK).
      split; [|split; assumption].
      rewrite HR, <- List.app_assoc. reflexivity.
Qed.

Lemma numbered_fst idx files : map fst (numbered idx files) = seq idx (List.length files).
Proof.
  unfold numbered. revert idx. induction files as [|f files IH]; intros idx; simpl; [reflexivity|].
  now rewrite IH.
Qed.

Lemma numbered_In files : forall idx i f,
  In (i, f) (numbered idx files) <-> (idx <= i)%nat /\ nth_error files (i - idx) = Some f.
Proof.
  induction files as [|g files IH]; intros idx i f.
  - unfold numbered. simpl. split; [tauto|]. intros [_ H]. destruct (i - idx)%nat; discriminate.
  - change (numbered idx (g :: files)) with ((idx, g) :: numbered (S idx) files).
    simpl. rewrite IH. split.
    + intros [E | [Hle Hn]].
      * injection E as <- <-. split; [lia|]. now rewrite Nat.sub_diag.
      * split; [lia|]. replace (i - idx)%nat with (S (i - S idx)) by lia. exact Hn.
    + intros [Hle Hn]. destruct (Nat.eq_dec i idx) as [->|Hne].
      * left. rewrite Nat.sub_diag in Hn. simpl in Hn. now injection Hn as <-.
      * right. split; [lia|]. replace (i - idx)%nat with (S (i - S idx)) in Hn by lia. exact Hn.
Qed.


(** ** Which files the tasks hold *)

Lemma taskFiles_rootTask l : flat_map taskFiles (rootTask l) = map fst l.
Proof. destruct l as [|x l]; simpl; [reflexivity|]. now rewrite List.app_nil_r. Qed.

Lemma taskFiles_folderTask e :
  flat_map taskFiles (folderTask e) = map fst (filter isImage (snd e)).
Proof.
  unfold folderTask. destruct (filter isImage (snd e)); simpl; [reflexivity|].
  now rewrite List.app_nil_r.
Qed.

Lemma taskFiles_folderTasks E :
  flat_map taskFiles (flat_map folderTask E) = map fst (filter isImage (flat_map snd E)).
Proof.
  induction E as [|e E IH]; simpl; [reflexivity|].
  now rewrite flat_map_app, filter_app, map_app, IH, taskFiles_folderTask.
Qed.

Lemma taskFiles_convertTasks (l : list (nat * file)) :
  flat_map taskFiles (map (fun d => CONVERT (fst d)) l) = map fst l.
Proof. induction l as [|x l IH]; simpl; [reflexivity|]. now rewrite IH. Qed.

Lemma kept_split (l : list (nat * file)) :
  Permutation
    (filter isImage (filter isRoot l) ++
     filter isImage (filter (fun x => negb (isRoot x)) l) ++
     filter (fun d => negb (isImage d)) (filter isRoot l))
    (filter kept l).
Proof.
  induction l as [|x l IH]; simpl; [constructor|].
  unfold kept at 1. destruct (isRoot x) eqn:Hr, (isImage x) eqn:Hi; simpl; rewrite ?Hi; simpl.
  - now constructor.
  - rewrite List.app_assoc. rewrite <- Permutation_middle. constructor. now rewrite <- List.app_assoc.
  - rewrite <- Permutation_middle. now constructor.
  - exact IH.
Qed.

Lemma classify_files files tasks :
  classify files = Ok tasks ->
  Permutation (flat_map taskFiles tasks) (map fst (filter kept (numbered 0 files))).
Proof.
  unfold classify. destruct (groupFiles 0 files [] []) as [[G R]|e] eqn:Hg; [|discriminate].
  intros H. injection H as <-.
  destruct (groupFiles_spec _ _ _ _ _ _ Hg) as (HR & HG & _). simpl in HR, HG.
  rewrite !flat_map_app, taskFiles_rootTask, taskFiles_folderTasks, taskFiles_convertTasks.
  rewrite <- !map_app. apply Permutation_map.
  rewrite <- kept_split, HR.
  apply Permutation_app_head. apply Permutation_app_tail.
  apply Permutation_filter.
  rewrite <- HG. apply Permutation_flat_map. apply Object_entries_perm.
Qed.

Lemma kept_NoDup files : NoDup (map fst (filter kept (numbered 0 files))).
Proof.
  assert (H : forall (l : list (nat * file)), NoDup (map fst l) -> NoDup (map fst (filter kept l))).
  { induction l as [|x l IH]; simpl; intros Hn; [constructor|].
    inversion Hn as [|? ? Hx Hl]; subst.
    destruct (kept x); simpl; [|now apply IH].
    constructor; [|now apply IH].
    intros Hin. apply Hx. apply in_map_iff in Hin as [y [Hy Hin]].
    apply filter_In in Hin as [Hin _]. apply in_map_iff. now exists y. }
  apply H. rewrite numbered_fst. apply seq_NoDup.
Qed.




(** Three loose images: one merge task named after the first. *)
Example classify_three_root_images :
  classify [ {| originalname := "p1.png"; path := "/app/upload/a1" |};
             {| originalname := "p2.png"; path := "/app/upload/a2" |};
             {| originalname := "p3.png"; path := "/app/upload/a3" |} ]
  = Ok [MERGE [0%nat; 1%nat; 2%nat] "p1_set"].
Proof. reflexivity. Qed.

Example classify_folder_named_constructor :
  classify [ {| originalname := "constructor/page01.jpg"; path := "/app/upload/0c1d" |} ]
  = Throw PushIsNotAFunction.
Proof. reflexivity. Qed.

Example classify_numeric_folders_first :
  classify [ {| originalname := "b/1.jpg"; path := "/app/upload/01" |};
             {| originalname := "10/1.jpg"; path := "/app/upload/02" |};
             {| originalname := "2/1.jpg"; path := "/app/upload/03" |} ]
  = Ok [MERGE [2%nat] "2"; MERGE [1%nat] "10"; MERGE [0%nat] "b"].
Proof. reflexivity. Qed.

Local Open Scope string_scope.
Local Open Scope Z_scope.

(** ** Effective page counts *)

Section PageCounts.

Variable parseInt : string -> JS.num.

Lemma effective_archive_value (b : body) (T : nat) (s e : Z) :
  parsedOr parseInt (pageStart b) (JS.Num 1) = JS.Num s ->
  parsedOr parseInt (pageEnd b) (JS.ofNat T) = JS.Num e ->
  effectiveTotalPages_archive parseInt b T =
    JS.Num (Z.max 0 (Z.min (Z.of_nat T) e - Z.max 1 s + 1)).
Proof.
  intros Hs He.
  unfold effectiveTotalPages_archive, effEnd, effStart. rewrite Hs, He. reflexivity.
Qed.

(** C2 (amended). With a total of [T] pages and a requested range
    whose bounds are the integers [s] and [e] (1 and [T] when the
    fields are not given), the archive branch counts
    [max(0, min(T, e) - max(1, s) + 1)] pages; the PDF branch counts
    [min(T, e) - max(1, s) + 1] pages when [max(1, s) <= min(T, e)],
    and keeps the total [T] when the range is empty. *)
Theorem C2_effective_page_count (b : body) (T : nat) (s e : Z) :
  parsedOr parseInt (pageStart b) (JS.Num 1) = JS.Num s ->
  parsedOr parseInt (pageEnd b) (JS.ofNat T) = JS.Num e ->
  effectiveTotalPages_archive parseInt b T =
    JS.Num (Z.max 0 (Z.min (Z.of_nat T) e - Z.max 1 s + 1)) /\
  effectiveTotalPages_pdf parseInt b (JS.ofNat T) =
    JS.Num (if Z.max 1 s <=? Z.min (Z.of_nat T) e
            then Z.min (Z.of_nat T) e - Z.max 1 s + 1
            else Z.of_nat T).
Proof.
  intros Hs He. split.
  - now apply effective_archive_value.
  - unfold effectiveTotalPages_pdf. unfold JS.ofNat in *. simpl JS.truthy.
    destruct (Z.eqb_spec (Z.of_nat T) 0) as [E0|Hne]; simpl.
    + rewrite E0. destruct (Z.leb_spec (Z.max 1 s) (Z.min 0 e)); [lia | reflexivity].
    + rewrite Hs, He. unfold JS.ge, JS.cmp2, JS.max, JS.min, JS.lift2. simpl.
      rewrite Z.geb_leb. destruct (Z.max 1 s <=? Z.min (Z.of_nat T) e); reflexivity.
Qed.

End PageCounts.

(** Ten pages, range 3 to 7: five pages on both branches. *)
Lemma C2_witness :
  effectiveTotalPages_archive parseDecimal (withRange "3" "7" emptyBody) 10 = JS.Num 5 /\
  effectiveTotalPages_pdf parseDecimal (withRange "3" "7" emptyBody) (JS.ofNat 10) = JS.Num 5.
Proof.
  exact (C2_effective_page_count parseDecimal (withRange "3" "7" emptyBody) 10 3 7
           eq_refl eq_refl).
Defined.

(** Ten pages, range 8 to 3: the range is empty, so the clamped
    formula gives 0, but the PDF branch keeps 10. *)
Lemma C2_counterexample :
  effectiveTotalPages_pdf parseDecimal (withRange "8" "3" emptyBody) (JS.Num 10) = JS.Num 10 /\
  Z.max 0 (Z.min 10 3 - Z.max 1 8 + 1) = 0.
Proof. split; reflexivity. Qed.

Example archive_empty_range :
  effectiveTotalPages_archive parseDecimal (withRange "8" "3" emptyBody) 10 = JS.Num 0.
Proof. reflexivity. Qed.

(** A range that is no number: every comparison with [NaN] fails, so
    no image is skipped, and the count itself is [NaN]. *)
Example archive_range_not_a_number :
  archivePages parseDecimal true (withRange "abc" "" render300)
    [wideImage; wideImage] = Ok (JS.NaN, ["001.jpg"; "002.jpg"]).
Proof. reflexivity. Qed.

(** A ten-page PDF rendered for the range 3 to 7: five pages, [001]
    to [005]. *)
Example pdf_range_three_to_seven :
  pdfPages parseDecimal true (withRange "3" "7" render300) "book.pdf" (JS.Num 10)
    (map (fun n => {| pname := n; psize := Some (1200, 1800)%nat |})
       ["page-03.jpg"; "page-04.jpg"; "page-05.jpg"; "page-06.jpg"; "page-07.jpg"])
  = Ok (JS.Num 5,
        ["page-03.jpg"; "page-04.jpg"; "page-05.jpg"; "page-06.jpg"; "page-07.jpg"],
        ["001.jpg"; "002.jpg"; "003.jpg"; "004.jpg"; "005.jpg"]).
Proof. reflexivity. Qed.

Example pdf_unknown_total :
  effectiveTotalPages_pdf parseDecimal (withRange "3" "7" emptyBody) JS.Null = JS.Null.
Proof. reflexivity. Qed.

(** ** Pages of an archive source *)

Section Archive.

Variable parseInt : string -> JS.num.
Variable sharp : bool.
Variable b : body.


Lemma numberFrom_length padding exts : forall c,
  List.length (numberFrom padding c exts) = List.length exts.
Proof. induction exts as [|e r IH]; intros c; simpl; [reflexivity | now rewrite IH]. Qed.

End Archive.


(** ** Double-page splitting *)

Lemma splitFrom_app ltr l1 : forall i l2,
  splitFrom ltr i (l1 ++ l2) =
  (splitFrom ltr i l1 ++ splitFrom ltr (i + List.length l1) l2)%list.
Proof.
  induction l1 as [|p l1 IH]; intros i l2; simpl.
  - now rewrite Nat.add_0_r.
  - rewrite IH, <- List.app_assoc. now rewrite Nat.add_succ_l, <- Nat.add_succ_r.
Qed.

Lemma splitFrom_at ltr pages k p :
  nth_error pages k = Some p ->
  splitFrom ltr 0 pages =
  (splitFrom ltr 0 (firstn k pages) ++ splitPage ltr k p ++
   splitFrom ltr (S k) (skipn (S k) pages))%list.
Proof.
  intros Hn.
  destruct (nth_error_split pages k Hn) as (l1 & l2 & -> & Hlen).
  rewrite firstn_app, Hlen, Nat.sub_diag, firstn_all2 by lia. simpl firstn.
  rewrite List.app_nil_r.
  replace (skipn (S k) (l1 ++ p :: l2)) with l2.
  2:{ rewrite skipn_app, Hlen. rewrite skipn_all2 by lia.
      replace (S k - k)%nat with 1%nat by lia. reflexivity. }
  rewrite splitFrom_app. simpl. rewrite Hlen. reflexivity.
Qed.

(** C4 (amended). For the pages rasterized from a PDF, in auto split
    mode outside original mode and with [sharp] loaded: the output
    sequence is the output of the pages before page [k], then the
    block of page [k], then the output of the pages after it.  When
    the size of page [k] is read and its width/height ratio exceeds
    1.2, two files are written, the left and the right half, each
    half as wide as the page, and the block is these two: right half
    first for reading direction rtl (for any direction but ltr), left
    half first for ltr or no direction.  When the ratio is at most
    1.2, or the size cannot be read, the block is the page itself. *)
Theorem C4_split_of_document_pages (b : body) (eff : JS.num) (imgFiles : list page)
    (k : nat) (p : page) :
  JS.fieldIs (splitDouble b) "auto" = true ->
  isOriginal b = false ->
  nth_error (visited eff imgFiles) k = Some p ->
  exists block,
    expandedFiles true b eff imgFiles =
      (splitFrom (leftToRight b) 0 (firstn k (visited eff imgFiles)) ++ block ++
       splitFrom (leftToRight b) (S k) (skipn (S k) (visited eff imgFiles)))%list /\
    (forall w h, psize p = Some (w, h) -> (0 < h)%nat -> (6 * h < 5 * w)%nat ->
       splitWrites k p =
         [ (leftName k, {| left := 0; top := 0; width := Nat.div w 2; height := h |});
           (rightName k, {| left := w - Nat.div w 2; top := 0;
                            width := Nat.div w 2; height := h |}) ] /\
       (forall d, readingDir b = Some d -> d <> "" -> d <> "ltr" ->
          block = [rightName k; leftName k]) /\
       ((readingDir b = Some "ltr" \/ JS.given (readingDir b) = false) ->
          block = [leftName k; rightName k])) /\
    (forall w h, psize p = Some (w, h) -> (5 * w <= 6 * h)%nat -> block = [pname p]) /\
    (psize p = None -> block = [pname p]).
Proof.
  intros Hauto Horig Hn. exists (splitPage (leftToRight b) k p). split; [|split; [|split]].
  - unfold expandedFiles, splitting. rewrite Hauto, Horig. simpl.
    fold (visited eff imgFiles). now apply splitFrom_at.
  - intros w h Hs Hh Hw. unfold splitPage, splitWrites. rewrite Hs.
    assert (Hd : isDouble w h = true).
    { unfold isDouble. apply andb_true_iff. split; [apply andb_true_iff; split|].
      - apply negb_true_iff, Nat.eqb_neq. lia.
      - apply negb_true_iff, Nat.eqb_neq. lia.
      - apply Nat.ltb_lt. lia. }
    rewrite Hd. unfold leftToRight. split; [reflexivity|]. split.
    + intros d Hdir Hne Hltr. rewrite Hdir. simpl.
      destruct (String.eqb_spec d "") as [E|_]; [contradiction|].
      destruct (String.eqb_spec d "ltr") as [E|_]; [contradiction|]. reflexivity.
    + intros [-> | Hg]; [reflexivity|].
      unfold JS.given in Hg. unfold JS.orElse.
      destruct (readingDir b) as [s|]; [|reflexivity].
      apply negb_false_iff in Hg. now rewrite Hg.
  - intros w h Hs Hw. unfold splitPage. rewrite Hs.
    assert (Hd : isDouble w h = false).
    { unfold isDouble. apply andb_false_iff. right. apply Nat.ltb_ge. lia. }
    now rewrite Hd.
  - intros Hs. unfold splitPage. now rewrite Hs.
Qed.

(** One wide page, read right to left: [split_1_b.jpg] then
    [split_1_a.jpg]. *)
Lemma C4_witness :
  expandedFiles true splitRtl (JS.Num 1) [widePage] = ["split_1_b.jpg"; "split_1_a.jpg"].
Proof.
  destruct (C4_split_of_document_pages splitRtl (JS.Num 1) [widePage] 0 widePage
              eq_refl eq_refl eq_refl) as (block & Hout & Hwide & _).
  destruct (Hwide 2000%nat 1000%nat eq_refl) as (_ & Hrtl & _); [lia | lia |].
  rewrite Hout, (Hrtl "rtl" eq_refl); [reflexivity | discriminate | discriminate].
Defined.

(** In auto split mode, outside original mode, a page of 2000 by 1000
    pixels stays whole when [sharp] is not loaded, and when it comes
    from an archive. *)
Lemma C4_counterexample :
  JS.fieldIs (splitDouble splitRtl) "auto" = true /\
  isOriginal splitRtl = false /\
  isDouble 2000 1000 = true /\
  expandedFiles false splitRtl (JS.Num 1) [widePage] = ["page-1.jpg"] /\
  archivePages parseDecimal true splitRtl [wideImage] = Ok (JS.Num 1, ["001.jpg"]).
Proof. repeat split. Qed.

Lemma splitPage_length ltr i p :
  List.length (splitPage ltr i p) =
  match psize p with
  | Some (w, h) => if isDouble w h then 2%nat else 1%nat
  | None => 1%nat
  end.
Proof.
  unfold splitPage. destruct (psize p) as [[w h]|]; [|reflexivity].
  destruct (isDouble w h); [destruct ltr|]; reflexivity.
Qed.

(** Splitting adds one page per double page. *)
Lemma splitFrom_length ltr pages : forall i,
  List.length (splitFrom ltr i pages) =
  (List.length pages + List.length (doubles pages))%nat.
Proof.
  induction pages as [|p pages IH]; intros i; simpl; [reflexivity|].
  rewrite length_app, IH, splitPage_length. unfold doubles. simpl.
  destruct (psize p) as [[w h]|]; [destruct (isDouble w h)|]; simpl; lia.
Qed.

(** In auto split mode, outside original mode and with [sharp]
    loaded, the final pages of a PDF task number the visited pages
    plus one per double page among them. *)
Theorem expandedFiles_length (b : body) (eff : JS.num) (imgFiles : list page) :
  JS.fieldIs (splitDouble b) "auto" = true ->
  isOriginal b = false ->
  List.length (expandedFiles true b eff imgFiles) =
  (List.length (visited eff imgFiles) + List.length (doubles (visited eff imgFiles)))%nat.
Proof.
  intros Hauto Horig. unfold expandedFiles, splitting. rewrite Hauto, Horig. simpl.
  fold (visited eff imgFiles). apply splitFrom_length.
Qed.

Lemma expandedFiles_length_witness :
  List.length (expandedFiles true splitRtl (JS.Num 1) [widePage]) = 2%nat.
Proof.
  exact (expandedFiles_length splitRtl (JS.Num 1) [widePage] eq_refl eq_refl).
Defined.

(** ** Original mode and compression levels *)

Section OriginalMode.

Variable parseInt : string -> JS.num.

(** C5. In original mode the level passed to the packer is 0 for cbz,
    cb7, cbr and rar4, in convert and merge tasks alike, whatever
    level was requested; the rasterizer command for a PDF is
    [pdfimages -all] with the page range only, so it carries no
    colour, format, quality or resize option and does not depend on
    them; the pages are not split; and a requested rotation is still
    applied. *)
Theorem C5_original_mode (b : body) :
  isOriginal b = true ->
  (forall sf, In sf ["cbz"; "cb7"; "cbr"; "rar4"] ->
     packerLevel (choosePacker rarComp_convert sf (isOriginal b) (archCompVal parseInt b))
       = Some (JS.Num 0) /\
     packerLevel (choosePacker rarComp_merge sf (isOriginal b) (archCompVal parseInt b))
       = Some (JS.Num 0)) /\
  (forall filePath outputPrefix,
     pdfCommand parseInt b filePath outputPrefix =
     (Pdfimages, ("-all" :: rangeArgs b ++ [filePath; outputPrefix])%list)) /\
  (forall b' filePath outputPrefix,
     isOriginal b' = true -> pageStart b' = pageStart b -> pageEnd b' = pageEnd b ->
     pdfCommand parseInt b' filePath outputPrefix = pdfCommand parseInt b filePath outputPrefix) /\
  (forall sharp eff imgFiles,
     expandedFiles sharp b eff imgFiles = map pname (JS.slice0 imgFiles eff)) /\
  (JS.strictEq (rotAngle parseInt b) 0 = false -> rotatesPdfPages parseInt true b = true).
Proof.
  intros Ho. split; [|split; [|split; [|split]]].
  - intros sf Hsf. rewrite Ho. simpl in Hsf.
    destruct Hsf as [<-|[<-|[<-|[<-|[]]]]]; split; reflexivity.
  - intros f o. unfold pdfCommand. now rewrite Ho.
  - intros b' f o Ho' Hs He. unfold pdfCommand, rangeArgs. now rewrite Ho, Ho', Hs, He.
  - intros sharp eff imgFiles. unfold expandedFiles, splitting.
    rewrite Ho, andb_false_r. reflexivity.
  - intros Hr. unfold rotatesPdfPages. now rewrite Hr.
Qed.

End OriginalMode.

(** Original mode with gray, png, quality 60, width 1200 and level 9
    requested: [rar] gets level 0 and [pdfimages] only the range. *)
Lemma C5_witness :
  packerLevel (choosePacker rarComp_convert "cbr" (isOriginal originalGray)
                 (archCompVal parseDecimal originalGray)) = Some (JS.Num 0) /\
  pdfCommand parseDecimal originalGray "/app/upload/3f2a.pdf" "/app/upload/book_temp_1700/page" =
    (Pdfimages, ["-all"; "-f"; "2"; "/app/upload/3f2a.pdf"; "/app/upload/book_temp_1700/page"]).
Proof.
  destruct (C5_original_mode parseDecimal originalGray eq_refl) as (Hl & Hc & _).
  split.
  - apply (Hl "cbr"). simpl. tauto.
  - apply Hc.
Defined.


(** C8 (the code departs from it). With format cbr and level 9
    requested outside original mode, a convert task passes level 5 to
    [rar] and a merge task level 3; a merge task also turns the levels
    1, 3 and 7 into 3. *)
Theorem C8_merge_task_level :
  choosePacker rarComp_convert (safeFormat cbr9) (isOriginal cbr9) (archCompVal parseDecimal cbr9)
    = Rar false (JS.Num 5) /\
  choosePacker rarComp_merge (safeFormat cbr9) (isOriginal cbr9) (archCompVal parseDecimal cbr9)
    = Rar false (JS.Num 3) /\
  rarComp_merge false (JS.Num 1) = JS.Num 3 /\
  rarComp_merge false (JS.Num 3) = JS.Num 3 /\
  rarComp_merge false (JS.Num 7) = JS.Num 3.
Proof. repeat split. Qed.

(** ** Output format *)



Section OutputFormat.

Variable parseInt : string -> JS.num.


End OutputFormat.


Example no_format_is_cbz : safeFormat emptyBody = "cbz".
Proof. reflexivity. Qed.

(** ** The task loop *)

Lemma taskLoop_abort process total pre : forall idx results t post st rs st1 e st2,
  taskLoop process total idx pre results st = (Ok rs, st1) ->
  process t (idx + List.length pre)%nat total st1 = (Throw e, st2) ->
  taskLoop process total idx (pre ++ t :: post) results st = (Throw e, st2).
Proof.
  induction pre as [|u pre IH]; simpl; intros idx results t post st rs st1 e st2 Hpre Ht.
  - unfold ret in Hpre. injection Hpre as _ <-.
    rewrite Nat.add_0_r in Ht. unfold bind. now rewrite Ht.
  - unfold bind in *. destruct (process u idx total st) as [[res|e'] st'] eqn:Hu.
    + eapply IH; [exact Hpre|]. now rewrite Nat.add_succ_l, <- Nat.add_succ_r.
    + discriminate.
Qed.

(** C1 (amended). When the tasks before [t] complete and [t] raises
    the error [e], the batch stops there: whatever tasks [post] follow
    are not run, the state is the one [t] left, with the uploaded
    files swept, and the response is the single error [e], which
    carries no task result, not even those of the tasks that had
    completed. *)
Theorem C1_failure_aborts_batch (process : task -> nat -> nat -> M result)
    (st : state) (pre post : list task) (t : task)
    (rs : list result) (st1 st2 : state) (e : error) :
  uploads st <> [] ->
  classify (uploads st) = Ok (pre ++ t :: post)%list ->
  taskLoop process (List.length (pre ++ t :: post)) 0 pre []
    (opened st (List.length (pre ++ t :: post))) = (Ok rs, st1) ->
  process t (List.length pre) (List.length (pre ++ t :: post)) st1 = (Throw e, st2) ->
  handle process st = (ConversionError e, sweepUploads st2).
Proof.
  intros Hne Hc Hpre Ht. unfold handle.
  destruct (uploads st) as [|f fs] eqn:Hu; [contradiction|].
  unfold tryBlock, bind, sendProgress, lift. simpl. rewrite Hu, Hc.
  unfold opened in Hpre. rewrite Hu in Hpre. simpl in Hpre.
  erewrite taskLoop_abort; [reflexivity | exact Hpre | exact Ht].
Qed.

(** Two archives, the first without any image: the handler answers
    with the first task's error. *)
Lemma C1_witness :
  handle (processTask parseDecimal docker render300 calmEnv) (uploaded twoArchives) =
  (ConversionError NoImagesInRange,
   sweepUploads (snd (processTask parseDecimal docker render300 calmEnv (CONVERT 0) 0 2
                        (opened (uploaded twoArchives) 2)))).
Proof.
  apply (C1_failure_aborts_batch (processTask parseDecimal docker render300 calmEnv)
           (uploaded twoArchives) [] [CONVERT 1] (CONVERT 0) []
           (opened (uploaded twoArchives) 2)).
  - discriminate.
  - reflexivity.
  - reflexivity.
  - vm_compute. reflexivity.
Defined.

(** Two archives, the first without any image: the batch has two
    tasks, the response is the error of the first, no event of the
    second task was sent and no artifact written, although the second
    task, run in the same state, completes. *)
Lemma C1_counterexample :
  classify twoArchives = Ok [CONVERT 0; CONVERT 1] /\
  fst (convert parseDecimal docker render300 calmEnv (uploaded twoArchives))
    = ConversionError NoImagesInRange /\
  events (snd (convert parseDecimal docker render300 calmEnv (uploaded twoArchives)))
    = [Received 2; Identified 2; Started 1 2 "a.cbz"] /\
  artifacts (snd (convert parseDecimal docker render300 calmEnv (uploaded twoArchives))) = [] /\
  fst (processConvertTask parseDecimal docker render300 (calmEnv 1) 1 1 2 (uploaded twoArchives))
    = Ok {| name := "b.cbz"; rpath := "/app/output/b.cbz"; size := 4096; pages := JS.Num 1 |}.
Proof. vm_compute. repeat split. Qed.

Lemma existsSync_removed_same p l : existsSync p (removed p l) = false.
Proof.
  unfold existsSync, removed. induction l as [|q l IH]; simpl; [reflexivity|].
  destruct (String.eqb_spec p q) as [->|Hne]; simpl; [exact IH|].
  destruct (String.eqb_spec p q); [contradiction | exact IH].
Qed.

Lemma existsSync_removed_other p q l : existsSync p l = false -> existsSync p (removed q l) = false.
Proof.
  unfold existsSync, removed. induction l as [|r l IH]; simpl; [reflexivity|].
  intros H. apply orb_false_iff in H as [H1 H2].
  destruct (String.eqb q r); simpl; [now apply IH|]. now rewrite H1, IH.
Qed.

Lemma sweep_removes (fs : list file) : forall d f,
  In f fs -> existsSync (path f) (fold_left (fun d g => removed (path g) d) fs d) = false.
Proof.
  induction fs as [|g fs IH]; intros d f Hin; [destruct Hin|].
  simpl. destruct Hin as [->|Hin]; [|now apply IH].
  clear IH. generalize (existsSync_removed_same (path f) d).
  generalize (removed (path f) d). induction fs as [|h fs IH]; intros d' H; simpl; [exact H|].
  apply IH. now apply existsSync_removed_other.
Qed.

(** When the handler answers with an error, no uploaded file is left
    on disk, under whatever path its file object then carries. *)
Theorem failure_sweeps_uploads (process : task -> nat -> nat -> M result)
    (st st' : state) (e : error) :
  handle process st = (ConversionError e, st') ->
  forall f, In f (uploads st') -> existsSync (path f) (disk st') = false.
Proof.
  unfold handle. destruct (uploads st) as [|f0 fs0]; [discriminate|].
  destruct (tryBlock process st) as [[rs|e'] st1]; [discriminate|].
  intros H. injection H as _ <-. intros f Hin. simpl in *. now apply sweep_removes.
Qed.

Lemma failure_sweeps_uploads_witness :
  existsSync "/app/upload/5d0c.cbz"
    (disk (snd (convert parseDecimal docker render300 calmEnv (uploaded twoArchives)))) = false.
Proof.
  refine (failure_sweeps_uploads (processTask parseDecimal docker render300 calmEnv)
            (uploaded twoArchives)
            (snd (convert parseDecimal docker render300 calmEnv (uploaded twoArchives)))
            NoImagesInRange _
            {| originalname := "a.cbz"; path := "/app/upload/5d0c.cbz" |} _).
  - vm_compute. reflexivity.
  - vm_compute. left. reflexivity.
Defined.

(** ** What a completed PDF task reports *)

Section ConvertResult.

Variable parseInt : string -> JS.num.
Variable srv : server.
Variable b : body.

Lemma bind_Ok {A B} (m : M A) (k : A -> M B) st r st' :
  bind m k st = (Ok r, st') ->
  exists a st1, m st = (Ok a, st1) /\ k a st1 = (Ok r, st').
Proof.
  unfold bind. destruct (m st) as [[a|e] st1]; [|discriminate].
  intros H. now exists a, st1.
Qed.


Lemma artifacts_setDisk d st : artifacts (setDisk d st) = artifacts st.
Proof. reflexivity. Qed.

End ConvertResult.


(** C9 (the code departs from it). Two archives are uploaded and the
    first holds no image.  After the handler has answered with the
    error, both uploaded files are gone but the directory of the
    failed task is still on disk. *)
Theorem C9_failed_task_leaves_directory :
  disk (uploaded twoArchives) = ["/app/upload/5d0c"; "/app/upload/91fe"] /\
  fst (convert parseDecimal docker render300 calmEnv (uploaded twoArchives))
    = ConversionError NoImagesInRange /\
  disk (snd (convert parseDecimal docker render300 calmEnv (uploaded twoArchives)))
    = ["/app/upload/a_temp_1700"].
Proof. vm_compute. repeat split. Qed.

(** C3 (the code departs from it). A one-page PDF whose page is a
    double page, converted in auto split mode: the artifact holds the
    two renumbered halves, the result reports one page. *)
Theorem C3_split_pages_not_reported :
  fst (convert parseDecimal docker splitRtl calmEnv (uploaded onePdf)) =
    Completed 1 1 4096
      [ {| name := "book.cbz"; rpath := "/app/output/book.cbz"; size := 4096;
           pages := JS.Num 1 |} ] /\
  artifacts (snd (convert parseDecimal docker splitRtl calmEnv (uploaded onePdf))) =
    [ ("/app/output/book.cbz", ["001.jpg"; "002.jpg"]) ].
Proof. vm_compute. split; reflexivity. Qed.

Example success_removes_directory_and_upload :
  disk (snd (convert parseDecimal docker render300 calmEnv (uploaded onePdf)))
  = ["/app/output/book.cbz"].
Proof. vm_compute. reflexivity. Qed.

(** * Further properties *)

(** ** Numerals and numbered names *)

(** *** The value of a numeral *)

Lemma isDigit_value (c : ascii) :
  isDigit c = true ->
  0 <= Z.of_nat (nat_of_ascii c - 48) <= 9.
Proof.
  unfold isDigit. intros H. apply andb_true_iff in H as [H1 H2].
  apply Nat.leb_le in H1, H2. lia.
Qed.

Lemma digitsValue_cons (c : ascii) (s : string) (acc : Z) :
  digitsValue (String c s) acc =
  if isDigit c then digitsValue s (10 * acc + Z.of_nat (nat_of_ascii c - 48)) else None.
Proof. reflexivity. Qed.

(** On a string of digits [digitsValue] is defined, and the
    accumulator counts for the digits to the left. *)
Lemma digitsValue_digits (s : string) :
  allChars isDigit s = true ->
  exists v, 0 <= v < 10 ^ Z.of_nat (String.length s) /\
            forall acc, digitsValue s acc = Some (acc * 10 ^ Z.of_nat (String.length s) + v).
Proof.
  induction s as [|c s IH]; simpl allChars; intros H.
  - exists 0. change (Z.of_nat (String.length "")) with 0. rewrite Z.pow_0_r.
    split; [lia|]. intros acc. simpl digitsValue. now rewrite Z.mul_1_r, Z.add_0_r.
  - apply andb_true_iff in H as [Hc Hs]. destruct (IH Hs) as (v & Hv & Hacc).
    pose proof (isDigit_value c Hc) as Hd.
    exists (Z.of_nat (nat_of_ascii c - 48) * 10 ^ Z.of_nat (String.length s) + v).
    change (String.length (String c s)) with (S (String.length s)).
    rewrite Nat2Z.inj_succ, Z.pow_succ_r by lia.
    split; [nia|].
    intros acc. rewrite digitsValue_cons, Hc, Hacc. f_equal. ring.
Qed.

Lemma digitsValue_uint (d : uint) : forall acc,
  digitsValue (NilEmpty.string_of_uint d) (Z.of_nat acc) = Some (Z.of_nat (Nat.of_uint_acc d acc)).
Proof.
  induction d; intros acc; cbn [NilEmpty.string_of_uint Nat.of_uint_acc]; try reflexivity;
    rewrite digitsValue_cons;
    match goal with |- context [isDigit ?c] => change (isDigit c) with true end;
    cbv iota; simpl (nat_of_ascii _ - 48)%nat;
    rewrite Nat.tail_mul_spec, <- IHd; f_equal; lia.
Qed.

(** The decimal numeral of [n] reads back as [n]. *)
Lemma digitsValue_natToString (n : nat) :
  digitsValue (JS.natToString n) 0 = Some (Z.of_nat n).
Proof.
  unfold JS.natToString. change 0 with (Z.of_nat 0).
  rewrite (digitsValue_uint (Nat.to_uint n) 0).
  fold (Nat.of_uint (Nat.to_uint n)). now rewrite Unsigned.of_to.
Qed.

Lemma natToString_zero_or_nonzero_head (n : nat) :
  JS.natToString n = "0" \/
  exists c s, JS.natToString n = String c s /\ c <> "0"%char.
Proof.
  unfold JS.natToString.
  assert (Hn : Nat.to_uint n = unorm (Nat.to_uint n)).
  { rewrite <- (Unsigned.of_to n) at 1. apply Unsigned.to_of. }
  rewrite Hn. unfold unorm.
  pose proof (nzhead_nonzero (Nat.to_uint n)) as Hnz.
  destruct (nzhead (Nat.to_uint n)) as [|d|d|d|d|d|d|d|d|d|d]; simpl;
    try (now left); try (exfalso; now apply (Hnz d));
    right; eexists _, _; (split; [reflexivity | discriminate]).
Qed.

Lemma natToString_upper (n : nat) :
  Z.of_nat n < 10 ^ Z.of_nat (String.length (JS.natToString n)).
Proof.
  destruct (digitsValue_digits _ (natToString_digits n)) as (v & Hv & Hacc).
  pose proof (digitsValue_natToString n) as H. rewrite Hacc in H.
  injection H as H. lia.
Qed.

Lemma natToString_lower (n : nat) :
  (0 < n)%nat ->
  10 ^ (Z.of_nat (String.length (JS.natToString n)) - 1) <= Z.of_nat n.
Proof.
  intros Hpos.
  pose proof (digitsValue_natToString n) as Hval.
  pose proof (natToString_digits n) as Hdig.
  destruct (natToString_zero_or_nonzero_head n) as [E | (c & s & E & Hc)].
  - rewrite E in Hval. simpl in Hval. injection Hval as Hval. lia.
  - rewrite E in Hval, Hdig |- *. simpl in Hdig.
    apply andb_true_iff in Hdig as [Hcd Hsd].
    destruct (digitsValue_digits s Hsd) as (v & Hv & Hacc).
    rewrite digitsValue_cons, Hcd, Hacc in Hval. injection Hval as Hval.
    change (String.length (String c s)) with (S (String.length s)).
    rewrite Nat2Z.inj_succ. replace (Z.succ (Z.of_nat (String.length s)) - 1)
      with (Z.of_nat (String.length s)) by lia.
    assert (Hge : 1 <= Z.of_nat (nat_of_ascii c - 48)).
    { unfold isDigit in Hcd. apply andb_true_iff in Hcd as [H1 H2]. apply Nat.leb_le in H1, H2.
      assert (nat_of_ascii c <> 48%nat).
      { intros E48. apply Hc. rewrite <- (ascii_nat_embedding c), E48. reflexivity. }
      lia. }
    nia.
Qed.

(** The numeral of a smaller number is not longer. *)
Lemma natToString_length_mono (m n : nat) :
  (m <= n)%nat ->
  (String.length (JS.natToString m) <= String.length (JS.natToString n))%nat.
Proof.
  intros Hle.
  destruct (Nat.eq_dec m 0) as [->|Hm].
  - pose proof (natToString_nonempty n). destruct (JS.natToString n); [contradiction|].
    simpl. lia.
  - pose proof (natToString_lower m ltac:(lia)) as Hlo.
    pose proof (natToString_upper n) as Hup.
    destruct (Nat.le_gt_cases (String.length (JS.natToString m))
                (String.length (JS.natToString n))) as [H|H]; [exact H|].
    exfalso.
    assert (10 ^ Z.of_nat (String.length (JS.natToString n))
            <= 10 ^ (Z.of_nat (String.length (JS.natToString m)) - 1))
      by (apply Z.pow_le_mono_r; lia).
    lia.
Qed.

(** *** Numerals in code-unit order *)

Lemma length_append (a b : string) :
  String.length (a ++ b) = (String.length a + String.length b)%nat.
Proof. induction a as [|c a IH]; simpl; [reflexivity | now rewrite IH]. Qed.

Lemma length_zeros (k : nat) : String.length (JS.zeros k) = k.
Proof. induction k as [|k IH]; simpl; [reflexivity | now rewrite IH]. Qed.

Lemma compare_refl (s : string) : String.compare s s = Eq.
Proof.
  induction s as [|c s IH]; simpl; [reflexivity|].
  unfold Ascii.compare. now rewrite N.compare_refl.
Qed.

Lemma digit_char_compare (c1 c2 : ascii) :
  isDigit c1 = true -> isDigit c2 = true ->
  Ascii.compare c1 c2 =
  (Z.of_nat (nat_of_ascii c1 - 48) ?= Z.of_nat (nat_of_ascii c2 - 48)).
Proof.
  unfold isDigit. intros H1 H2.
  apply andb_true_iff in H1 as [H1 _]. apply andb_true_iff in H2 as [H2 _].
  apply Nat.leb_le in H1, H2.
  unfold Ascii.compare. rewrite Nnat.N2Nat.inj_compare.
  fold (nat_of_ascii c1). fold (nat_of_ascii c2).
  destruct (Nat.compare_spec (nat_of_ascii c1) (nat_of_ascii c2)) as [E|L|G].
  - rewrite E. symmetry. apply Z.compare_refl.
  - symmetry. apply Z.compare_lt_iff. lia.
  - symmetry. apply Z.compare_gt_iff. lia.
Qed.

(** Of two numerals of the same length, the one of smaller value
    comes first, whatever follows them. *)
Lemma numerals_in_order (a : string) : forall b x y acc va vb,
  allChars isDigit a = true -> allChars isDigit b = true ->
  String.length a = String.length b ->
  digitsValue a acc = Some va -> digitsValue b acc = Some vb ->
  va < vb ->
  String.compare (a ++ x) (b ++ y) = Lt.
Proof.
  induction a as [|ca a IH]; intros b x y acc va vb Ha Hb Hlen Hva Hvb Hlt.
  - destruct b; [|discriminate]. simpl in Hva, Hvb. injection Hva as <-. injection Hvb as <-. lia.
  - destruct b as [|cb b]; [discriminate|].
    simpl in Ha, Hb. apply andb_true_iff in Ha as [Hca Ha]. apply andb_true_iff in Hb as [Hcb Hb].
    injection Hlen as Hlen.
    rewrite digitsValue_cons, Hca in Hva. rewrite digitsValue_cons, Hcb in Hvb.
    simpl. rewrite (digit_char_compare _ _ Hca Hcb).
    pose proof (isDigit_value _ Hca) as Hda. pose proof (isDigit_value _ Hcb) as Hdb.
    destruct (Z.compare_spec (Z.of_nat (nat_of_ascii ca - 48)) (Z.of_nat (nat_of_ascii cb - 48)))
      as [E|L|G].
    + rewrite E in Hva. eapply IH; eassumption.
    + reflexivity.
    + exfalso.
      destruct (digitsValue_digits a Ha) as (ra & Hra & Haa).
      destruct (digitsValue_digits b Hb) as (rb & Hrb & Hbb).
      rewrite Haa in Hva. rewrite Hbb in Hvb. injection Hva as <-. injection Hvb as <-.
      rewrite Hlen in *. nia.
Qed.

Lemma digitsValue_zeros (k : nat) (s : string) :
  digitsValue (JS.zeros k ++ s) 0 = digitsValue s 0.
Proof. induction k as [|k IH]; simpl JS.zeros; [reflexivity|]. simpl append. now rewrite digitsValue_cons. Qed.

(** The number of a page: its width is [max(3, padding)] and its
    value the position counted from 1, as long as the numeral of the
    position fits the width. *)
Lemma pageNumber_spec (padding idx : nat) :
  Z.of_nat (idx + 1) < 10 ^ Z.of_nat (Nat.max 3 padding) ->
  String.length (pageNumber padding idx) = Nat.max 3 padding /\
  digitsValue (pageNumber padding idx) 0 = Some (Z.of_nat (idx + 1)).
Proof.
  intros Hfit.
  assert (Hlen : (String.length (JS.natToString (idx + 1)) <= Nat.max 3 padding)%nat).
  { pose proof (natToString_lower (idx + 1) ltac:(lia)) as Hlo.
    destruct (Nat.le_gt_cases (String.length (JS.natToString (idx + 1))) (Nat.max 3 padding))
      as [H|H]; [exact H|]. exfalso.
    assert (10 ^ Z.of_nat (Nat.max 3 padding)
            <= 10 ^ (Z.of_nat (String.length (JS.natToString (idx + 1))) - 1))
      by (apply Z.pow_le_mono_r; lia).
    lia. }
  unfold pageNumber, JS.padStart.
  destruct (Nat.leb_spec (Nat.max 3 padding) (String.length (JS.natToString (idx + 1)))) as [H|H].
  - split; [lia | apply digitsValue_natToString].
  - rewrite length_append, length_zeros, digitsValue_zeros.
    split; [lia | apply digitsValue_natToString].
Qed.

Lemma pageNumbers_in_order (padding i j : nat) (x y : string) :
  (i < j)%nat -> Z.of_nat (j + 1) < 10 ^ Z.of_nat (Nat.max 3 padding) ->
  String.ltb (pageNumber padding i ++ x) (pageNumber padding j ++ y) = true.
Proof.
  intros Hij Hfit.
  destruct (pageNumber_spec padding i ltac:(lia)) as [Hli Hvi].
  destruct (pageNumber_spec padding j Hfit) as [Hlj Hvj].
  unfold String.ltb.
  rewrite (numerals_in_order _ _ x y 0 _ _ (pageNumber_digits padding i)
             (pageNumber_digits padding j) ltac:(congruence) Hvi Hvj ltac:(lia)).
  reflexivity.
Qed.

(** *** Numbered names *)

Lemma renumberFrom_numberFrom (padding : nat) (l : list string) : forall idx,
  renumberFrom padding idx l = numberFrom padding idx (map Path.extname l).
Proof. induction l as [|f l IH]; intros idx; simpl; [reflexivity | now rewrite IH]. Qed.

Lemma numberFrom_In (padding : nat) (exts : list string) : forall c x,
  In x (numberFrom padding c exts) ->
  exists k e, x = pageNumber padding k ++ e /\ (c <= k < c + List.length exts)%nat.
Proof.
  induction exts as [|e exts IH]; intros c x Hin; [destruct Hin|].
  destruct Hin as [<-|Hin].
  - exists c, e. split; [reflexivity | simpl; lia].
  - destruct (IH _ _ Hin) as (k & e' & -> & Hk). exists k, e'. split; [reflexivity | simpl; lia].
Qed.

Lemma numberFrom_ascending (padding : nat) (exts : list string) : forall c,
  Z.of_nat (c + List.length exts) < 10 ^ Z.of_nat (Nat.max 3 padding) ->
  ascending (numberFrom padding c exts).
Proof.
  induction exts as [|e exts IH]; intros c Hfit; simpl numberFrom; [constructor|].
  simpl List.length in Hfit. constructor.
  - apply IH. rewrite Nat.add_succ_l, <- Nat.add_succ_r. exact Hfit.
  - apply Forall_forall. intros x Hin.
    destruct (numberFrom_In _ _ _ _ Hin) as (k & e' & -> & Hk).
    apply pageNumbers_in_order; lia.
Qed.

Lemma ascending_sort (l : list string) : ascending l -> sort l = l.
Proof.
  induction 1 as [|x l Hl IH Hx]; [reflexivity|].
  simpl. rewrite IH. destruct l as [|y r]; [reflexivity|].
  simpl. inversion Hx as [|? ? Hxy _]; subst.
  unfold String.ltb in Hxy. unfold String.leb.
  destruct (String.compare x y); try discriminate. reflexivity.
Qed.

Lemma ascending_NoDup (l : list string) : ascending l -> NoDup l.
Proof.
  induction 1 as [|x l Hl IH Hx]; constructor; [|exact IH].
  intros Hin. rewrite Forall_forall in Hx. specialize (Hx _ Hin).
  unfold String.ltb in Hx. now rewrite compare_refl in Hx.
Qed.


Lemma renumber_ascending (finalPageFiles : list string) : ascending (renumber finalPageFiles).
Proof.
  unfold renumber. rewrite renumberFrom_numberFrom. apply numberFrom_ascending.
  rewrite length_map, Nat.add_0_l.
  pose proof (natToString_upper (List.length finalPageFiles)) as Hup.
  assert (10 ^ Z.of_nat (String.length (JS.natToString (List.length finalPageFiles)))
          <= 10 ^ Z.of_nat (Nat.max 3 (String.length (JS.natToString (List.length finalPageFiles)))))
    by (apply Z.pow_le_mono_r; lia).
  lia.
Qed.

(** The names the renumbering gives are strictly ascending in the
    order of JavaScript's default [sort]: they are pairwise distinct,
    and sorting the renumbered pages, as the PDF assembly does when it
    lists the task directory, leaves them in page order. *)
Theorem renumber_in_sort_order (finalPageFiles : list string) :
  ascending (renumber finalPageFiles) /\
  NoDup (renumber finalPageFiles) /\
  sort (renumber finalPageFiles) = renumber finalPageFiles.
Proof.
  pose proof (renumber_ascending finalPageFiles) as H.
  split; [exact H|]. split; [now apply ascending_NoDup | now apply ascending_sort].
Qed.

(** ** The task directory at assembly *)

(** *** Suffix tests *)

Lemma toLowerCase_app (a b : string) :
  JS.toLowerCase (a ++ b) = JS.toLowerCase a ++ JS.toLowerCase b.
Proof. induction a as [|c a IH]; simpl; [reflexivity | now rewrite IH]. Qed.

Lemma toLowerCase_rev (s : string) :
  JS.toLowerCase (Path.rev s) = Path.rev (JS.toLowerCase s).
Proof.
  induction s as [|c s IH]; [reflexivity|].
  simpl JS.toLowerCase. rewrite !rev_cons, toLowerCase_app, IH. reflexivity.
Qed.

Lemma lowerChar_dot (c : ascii) : Path.isDot (JS.lowerChar c) = Path.isDot c.
Proof.
  unfold JS.lowerChar.
  destruct ((65 <=? nat_of_ascii c)%nat && (nat_of_ascii c <=? 90)%nat) eqn:H; [|reflexivity].
  apply andb_true_iff in H as [H1 H2]. apply Nat.leb_le in H1, H2.
  unfold Path.isDot.
  destruct (Ascii.eqb_spec (ascii_of_nat (nat_of_ascii c + 32)) ".") as [E|_];
    destruct (Ascii.eqb_spec c ".") as [E'|_]; try reflexivity.
  - apply (f_equal nat_of_ascii) in E. rewrite nat_ascii_embedding in E by lia.
    change (nat_of_ascii ".") with 46%nat in E. lia.
  - subst c. change (nat_of_ascii ".") with 46%nat in H1. lia.
Qed.

Lemma noDot_toLowerCase (s : string) : noDot (JS.toLowerCase s) = noDot s.
Proof.
  unfold noDot. induction s as [|c s IH]; simpl; [reflexivity|].
  now rewrite lowerChar_dot, IH.
Qed.

Lemma lowerChar_digit (c : ascii) : isDigit c = true -> JS.lowerChar c = c.
Proof.
  unfold isDigit, JS.lowerChar. intros H. apply andb_true_iff in H as [_ H].
  apply Nat.leb_le in H.
  destruct (Nat.leb_spec 65 (nat_of_ascii c)); [lia | reflexivity].
Qed.

Lemma toLowerCase_digits (s : string) : allChars isDigit s = true -> JS.toLowerCase s = s.
Proof.
  induction s as [|c s IH]; simpl; [reflexivity|].
  intros H. apply andb_true_iff in H as [Hc Hs]. now rewrite lowerChar_digit, IH.
Qed.

Lemma endsWith_rev (s suffix : string) :
  JS.endsWith s suffix = String.prefix (Path.rev suffix) (Path.rev s).
Proof. reflexivity. Qed.

Lemma prefix_cons (a b : ascii) (p s : string) :
  String.prefix (String a p) (String b s) = Ascii.eqb a b && String.prefix p s.
Proof.
  simpl. destruct (ascii_dec a b) as [->|Hne].
  - now rewrite Ascii.eqb_refl.
  - destruct (Ascii.eqb_spec a b); [contradiction | reflexivity].
Qed.

Lemma prefix_nil (s : string) : String.prefix "" s = true.
Proof. destruct s; reflexivity. Qed.

Lemma prefix_app (p t : string) : String.prefix p (p ++ t) = true.
Proof.
  induction p as [|c p IH]; [apply prefix_nil|].
  simpl append. now rewrite prefix_cons, Ascii.eqb_refl, IH.
Qed.

(** A test for a suffix [.t] on a name with a single dot compares [t]
    with what follows the dot. *)
Lemma prefix_up_to_dot (a : string) : forall b rest,
  noDot a = true -> noDot b = true ->
  String.prefix (a ++ ".") (b ++ String "." rest) = String.eqb a b.
Proof.
  unfold noDot.
  induction a as [|ca a IH]; intros b rest Ha Hb.
  - destruct b as [|cb b]; simpl append; rewrite prefix_cons.
    + now rewrite prefix_nil.
    + simpl in Hb. apply andb_true_iff in Hb as [Hcb _]. apply negb_true_iff in Hcb.
      unfold Path.isDot in Hcb. rewrite Ascii.eqb_sym, Hcb. reflexivity.
  - simpl in Ha. apply andb_true_iff in Ha as [Hca Ha]. apply negb_true_iff in Hca.
    destruct b as [|cb b].
    + simpl append. rewrite prefix_cons. unfold Path.isDot in Hca.
      rewrite Hca. reflexivity.
    + simpl in Hb. apply andb_true_iff in Hb as [_ Hb].
      simpl append. rewrite prefix_cons, IH by assumption. reflexivity.
Qed.

Lemma prefix_dot_free (a b : string) :
  noDot b = true -> String.prefix (a ++ ".") b = false.
Proof.
  unfold noDot. revert b. induction a as [|ca a IH]; intros b Hb.
  - destruct b as [|cb b]; [reflexivity|]. simpl append. rewrite prefix_cons.
    simpl in Hb. apply andb_true_iff in Hb as [Hcb _]. apply negb_true_iff in Hcb.
    unfold Path.isDot in Hcb. rewrite Ascii.eqb_sym, Hcb. reflexivity.
  - destruct b as [|cb b]; [reflexivity|].
    simpl in Hb. apply andb_true_iff in Hb as [_ Hb].
    simpl append. rewrite prefix_cons, IH by assumption. apply andb_false_r.
Qed.

Lemma noDot_rev (s : string) : noDot (Path.rev s) = noDot s.
Proof. apply allChars_rev. Qed.

Lemma endsWith_extension (stem suf t : string) :
  noDot suf = true -> noDot t = true ->
  JS.endsWith (stem ++ String "." suf) (String "." t) = String.eqb suf t.
Proof.
  intros Hs Ht. rewrite endsWith_rev, rev_cons, rev_app, rev_cons.
  rewrite append_assoc. simpl (String "." "" ++ _).
  rewrite prefix_up_to_dot by now rewrite noDot_rev.
  destruct (String.eqb_spec (Path.rev t) (Path.rev suf)) as [E|Hne];
    destruct (String.eqb_spec suf t) as [E'|Hne']; try reflexivity.
  - exfalso. apply Hne'. now rewrite <- (rev_involutive suf), <- E, rev_involutive.
  - exfalso. apply Hne. now rewrite E'.
Qed.

Lemma endsWith_no_extension (stem t : string) :
  noDot stem = true -> JS.endsWith stem (String "." t) = false.
Proof.
  intros Hs. rewrite endsWith_rev, rev_cons.
  apply prefix_dot_free. now rewrite noDot_rev.
Qed.

(** On a numbered page, a test for suffixes looks at the extension
    only. *)
Lemma suffix_test_numbered (sfxs : list string) (num p : string) :
  forallb isExtension sfxs = true ->
  allChars isDigit num = true ->
  existsb (JS.endsWith (JS.toLowerCase (num ++ Path.extname p))) sfxs =
  JS.includes sfxs (JS.toLowerCase (Path.extname p)).
Proof.
  intros Hsfx Hnum. unfold JS.includes.
  assert (Hnd : noDot num = true).
  { unfold noDot. eapply allChars_weaken; [|exact Hnum].
    intros c Hc. apply digit_plain in Hc. now apply andb_true_iff in Hc as [_ Hc]. }
  induction sfxs as [|sfx sfxs IH]; [reflexivity|].
  simpl in Hsfx. apply andb_true_iff in Hsfx as [Hx Hrest].
  simpl existsb. rewrite (IH Hrest). f_equal.
  destruct sfx as [|c t]; [discriminate Hx|].
  simpl in Hx. apply andb_true_iff in Hx as [Hc Ht].
  apply Ascii.eqb_eq in Hc. subst c.
  rewrite toLowerCase_app, (toLowerCase_digits num Hnum).
  destruct (extname_shape p) as [-> | (suf & -> & Hsuf)].
  - simpl JS.toLowerCase. rewrite append_nil_r.
    now rewrite endsWith_no_extension.
  - simpl JS.toLowerCase.
    change (JS.lowerChar ".") with "."%char.
    rewrite endsWith_extension; [| |exact Ht].
    + reflexivity.
    + rewrite noDot_toLowerCase. now apply plain_nodot.
Qed.

Lemma pageNumber_head (padding idx : nat) :
  exists c s, pageNumber padding idx = String c s /\ isDigit c = true.
Proof.
  pose proof (pageNumber_digits padding idx) as Hd.
  pose proof (pageNumber_nonempty padding idx) as Hne.
  destruct (pageNumber padding idx) as [|c s]; [contradiction|].
  simpl in Hd. apply andb_true_iff in Hd as [Hc _]. now exists c, s.
Qed.

Lemma startsWith_numbered (padding idx : nat) (e lit : string) (c : ascii) :
  isDigit c = false ->
  startsWith (pageNumber padding idx ++ e) (String c lit) = false.
Proof.
  intros Hc. destruct (pageNumber_head padding idx) as (d & s & -> & Hd).
  unfold startsWith. simpl append. rewrite prefix_cons.
  destruct (Ascii.eqb_spec c d) as [->|_]; [congruence | reflexivity].
Qed.

Lemma includes_subset (small big : list string) (s : string) :
  (forall x, In x small -> In x big) ->
  JS.includes small s = true -> JS.includes big s = true.
Proof.
  unfold JS.includes. intros Hsub H.
  apply existsb_exists in H as (x & Hx & E). apply existsb_exists. exists x. auto.
Qed.

(** *** The folder copy *)

Lemma filesToCopy_numberFrom (padding : nat) (l : list string) : forall c,
  (forall f, In f l -> JS.includes validExts (JS.toLowerCase (Path.extname f)) = true) ->
  filesToCopy (renumberFrom padding c l) = renumberFrom padding c l.
Proof.
  induction l as [|f l IH]; intros c Hall; [reflexivity|].
  simpl renumberFrom. unfold filesToCopy. cbn [filter]. unfold isCopied at 1.
  rewrite !startsWith_numbered by reflexivity.
  rewrite suffix_test_numbered; [|reflexivity|apply pageNumber_digits].
  rewrite (includes_subset validExts imageSuffixes).
  - simpl. f_equal. apply IH. intros g Hg. apply Hall. now right.
  - intros x Hx. simpl in Hx |- *. intuition.
  - apply Hall. now left.
Qed.

(** The extension of a name made of a stem without dot or slash, a
    dot and a suffix without dot or slash. *)
Lemma extname_stem (stem suf : string) :
  allChars plain stem = true -> stem <> "" -> allChars plain suf = true ->
  Path.extname (stem ++ String "." suf) = String "." suf.
Proof.
  intros Hstem Hne Hsuf. unfold Path.extname.
  rewrite lastPart_plain.
  2:{ rewrite allChars_app. simpl. rewrite !plain_noslash; auto. }
  rewrite rev_app, rev_cons, append_assoc. simpl.
  rewrite splitDot_app by (rewrite allChars_rev; now apply plain_nodot).
  destruct (String.eqb_spec (Path.rev stem) "") as [E|Hn].
  { exfalso. apply Hne. rewrite <- (rev_involutive stem), E. reflexivity. }
  destruct (String.eqb_spec (Path.rev suf ++ String "." (Path.rev stem)) "..") as [E|_].
  { exfalso.
    assert (Hr : allChars plain (Path.rev stem) = true) by now rewrite allChars_rev.
    destruct (Path.rev suf) as [|c1 [|c2 s2]]; simpl in E.
    - injection E as E. rewrite E in Hr. discriminate Hr.
    - injection E as _ E. contradiction.
    - injection E as _ _ E. destruct s2; discriminate. }
  now rewrite rev_involutive.
Qed.

Lemma extname_leftName (i : nat) : Path.extname (leftName i) = ".jpg".
Proof.
  unfold leftName.
  change ("split_" ++ JS.natToString (i + 1) ++ "_a.jpg")
    with ("split_" ++ JS.natToString (i + 1) ++ "_a" ++ String "." "jpg").
  rewrite <- !append_assoc. apply extname_stem; [|discriminate|reflexivity].
  rewrite !allChars_app. simpl.
  rewrite (allChars_weaken isDigit plain _ digit_plain (natToString_digits _)). reflexivity.
Qed.

Lemma extname_rightName (i : nat) : Path.extname (rightName i) = ".jpg".
Proof.
  unfold rightName.
  change ("split_" ++ JS.natToString (i + 1) ++ "_b.jpg")
    with ("split_" ++ JS.natToString (i + 1) ++ "_b" ++ String "." "jpg").
  rewrite <- !append_assoc. apply extname_stem; [|discriminate|reflexivity].
  rewrite !allChars_app. simpl.
  rewrite (allChars_weaken isDigit plain _ digit_plain (natToString_digits _)). reflexivity.
Qed.

(** Every final page of a PDF task is a page image or a half. *)
Lemma splitFrom_In ltr pages : forall i f,
  In f (splitFrom ltr i pages) ->
  (exists p, In p pages /\ f = pname p) \/ (exists k, f = leftName k \/ f = rightName k).
Proof.
  induction pages as [|p pages IH]; intros i f Hin; [destruct Hin|].
  simpl in Hin. apply in_app_or in Hin as [Hin|Hin].
  - unfold splitPage in Hin.
    destruct (psize p) as [[w h]|].
    + destruct (isDouble w h).
      * right. exists i. destruct ltr; destruct Hin as [<-|[<-|[]]]; auto.
      * left. exists p. destruct Hin as [<-|[]]. split; [now left | reflexivity].
    + left. exists p. destruct Hin as [<-|[]]. split; [now left | reflexivity].
  - destruct (IH _ _ Hin) as [(q & Hq & ->)|Hk]; [|now right].
    left. exists q. split; [now right | reflexivity].
Qed.

Lemma In_firstn {A} (n : nat) : forall (l : list A) (x : A), In x (firstn n l) -> In x l.
Proof.
  induction n as [|n IH]; intros l x H; [destruct H|].
  destruct l as [|y l]; [destruct H|].
  destruct H as [<-|H]; [now left | right; now apply IH].
Qed.

Lemma slice0_In {A} (l : list A) (n : JS.num) (x : A) : In x (JS.slice0 l n) -> In x l.
Proof.
  unfold JS.slice0. destruct (JS.toNumber n) as [z|]; [|intros []].
  destruct (z <? 0); apply In_firstn.
Qed.

Lemma expandedFiles_In sharp b eff imgFiles f :
  In f (expandedFiles sharp b eff imgFiles) ->
  (exists p, In p imgFiles /\ f = pname p) \/ (exists k, f = leftName k \/ f = rightName k).
Proof.
  unfold expandedFiles. destruct (splitting sharp b).
  - intros Hin. destruct (splitFrom_In _ _ _ _ Hin) as [(p & Hp & ->)|Hk]; [|now right].
    left. exists p. split; [|reflexivity]. eapply In_firstn. exact Hp.
  - intros Hin. apply in_map_iff in Hin as (p & <- & Hp).
    left. exists p. split; [|reflexivity]. eapply slice0_In. exact Hp.
Qed.

Lemma expandedFiles_valid sharp b eff imgFiles :
  (forall p, In p imgFiles -> isPageImage (pname p) = true) ->
  forall f, In f (expandedFiles sharp b eff imgFiles) ->
  JS.includes validExts (JS.toLowerCase (Path.extname f)) = true.
Proof.
  intros Hall f Hin.
  destruct (expandedFiles_In _ _ _ _ _ Hin) as [(p & Hp & ->)|(k & [-> | ->])].
  - specialize (Hall p Hp). unfold isPageImage in Hall.
    now apply andb_true_iff in Hall as [Hall _].
  - now rewrite extname_leftName.
  - now rewrite extname_rightName.
Qed.

(** A PDF task that writes to a folder loses no page to the copy
    filter: when the page images are those the listing filter keeps,
    every renumbered page, split half or not, is copied. *)
Theorem folder_output_receives_every_page (sharp : bool) (b : body) (eff : JS.num)
    (imgFiles : list page) :
  (forall p, In p imgFiles -> isPageImage (pname p) = true) ->
  filesToCopy (renumber (expandedFiles sharp b eff imgFiles)) =
  renumber (expandedFiles sharp b eff imgFiles).
Proof.
  intros Hall. unfold renumber. apply filesToCopy_numberFrom.
  now apply expandedFiles_valid.
Qed.

Lemma folder_output_receives_every_page_witness :
  filesToCopy (renumber (expandedFiles true splitRtl (JS.Num 1) [widePage])) =
  ["001.jpg"; "002.jpg"].
Proof.
  rewrite (folder_output_receives_every_page true splitRtl (JS.Num 1) [widePage]).
  - reflexivity.
  - intros p [<-|[]]. reflexivity.
Defined.

(** *** The PDF assembly *)





(** *** Preview files *)

Lemma insertSorted_perm (x : string) (l : list string) : Permutation (insertSorted x l) (x :: l).
Proof.
  induction l as [|y l IH]; simpl; [reflexivity|].
  destruct (String.leb x y); [reflexivity|]. rewrite IH. apply perm_swap.
Qed.

Lemma sort_perm (l : list string) : Permutation (sort l) l.
Proof.
  induction l as [|x l IH]; simpl; [constructor|].
  rewrite insertSorted_perm. now constructor.
Qed.

(** A preview file left in the task directory, such as
    [thumb_color-1.jpg], is embedded as a page by the PDF assembly and
    is never copied to a folder output. *)
Theorem preview_embedded_but_not_copied (dir : list string) (f : string) :
  In f dir -> startsWith f "thumb_" = true -> isPdfImage f = true ->
  In f (pdfImages dir) /\ ~ In f (filesToCopy dir).
Proof.
  intros Hin Ht Hp. split.
  - unfold pdfImages. eapply Permutation_in; [symmetry; apply sort_perm|].
    apply filter_In. now split.
  - unfold filesToCopy. rewrite filter_In. intros [_ H].
    unfold isCopied in H. rewrite Ht in H. discriminate H.
Qed.

Lemma preview_embedded_but_not_copied_witness :
  In "thumb_color-1.jpg" (pdfImages ["001.jpg"; "002.jpg"; "thumb_color-1.jpg"]) /\
  ~ In "thumb_color-1.jpg" (filesToCopy ["001.jpg"; "002.jpg"; "thumb_color-1.jpg"]).
Proof.
  apply preview_embedded_but_not_copied; [simpl; tauto | reflexivity | reflexivity].
Defined.

(** ** The page count of a PDF *)

Lemma takeWhile_all (p : ascii -> bool) (s : string) : allChars p (takeWhile p s) = true.
Proof.
  induction s as [|c s IH]; simpl; [reflexivity|].
  destruct (p c) eqn:Hc; simpl; [now rewrite Hc | reflexivity].
Qed.

Lemma takeWhile_app (p : ascii -> bool) (a t : string) :
  allChars p a = true -> stopsAt p t = true -> takeWhile p (a ++ t) = a.
Proof.
  intros Ha Ht. induction a as [|c a IH]; simpl in *.
  - destruct t as [|c t]; [reflexivity|]. simpl in Ht |- *. apply negb_true_iff in Ht. now rewrite Ht.
  - apply andb_true_iff in Ha as [Hc Ha]. now rewrite Hc, IH.
Qed.

Lemma dropWhile_app (p : ascii -> bool) (a t : string) :
  allChars p a = true -> stopsAt p t = true -> dropWhile p (a ++ t) = t.
Proof.
  intros Ha Ht. induction a as [|c a IH]; simpl in *.
  - destruct t as [|c t]; [reflexivity|]. simpl in Ht |- *. apply negb_true_iff in Ht. now rewrite Ht.
  - apply andb_true_iff in Ha as [Hc Ha]. now rewrite Hc, IH.
Qed.

Lemma afterLiteral_app (lit r : string) : afterLiteral lit (lit ++ r) = Some r.
Proof. induction lit as [|c lit IH]; simpl; [reflexivity|]. now rewrite Ascii.eqb_refl. Qed.

Lemma afterLiteral_some (lit : string) : forall s r,
  afterLiteral lit s = Some r -> s = lit ++ r.
Proof.
  induction lit as [|a lit IH]; intros s r H; simpl in H.
  - now injection H as <-.
  - destruct s as [|c s]; [discriminate|].
    destruct (Ascii.eqb_spec a c) as [<-|_]; [|discriminate].
    simpl. f_equal. now apply IH.
Qed.

Lemma prefix_app_iff (lit s : string) :
  String.prefix lit s = true <-> exists r, s = lit ++ r.
Proof.
  split.
  - revert s. induction lit as [|a lit IH]; intros s H.
    + now exists s.
    + destruct s as [|c s]; [discriminate|].
      rewrite prefix_cons in H. apply andb_true_iff in H as [Hc Hs].
      apply Ascii.eqb_eq in Hc. subst c.
      destruct (IH _ Hs) as [r ->]. now exists r.
  - intros [r ->]. apply prefix_app.
Qed.

(** On a numeral that starts with a digit, the [parseInt] of the
    examples is its decimal value. *)
Lemma parseDecimal_digits (d : ascii) (ds : string) :
  isDigit d = true ->
  parseDecimal (String d ds) =
  match digitsValue (String d ds) 0 with Some z => JS.Num z | None => JS.NaN end.
Proof.
  intros Hd. unfold parseDecimal.
  destruct (Ascii.eqb_spec d "-") as [->|Hne]; [discriminate Hd|].
  destruct d as [[] [] [] [] [] [] [] []]; try reflexivity; try discriminate Hd.
Qed.

Lemma parseDecimal_natToString (n : nat) : parseDecimal (JS.natToString n) = JS.ofNat n.
Proof.
  pose proof (natToString_digits n) as Hd. pose proof (natToString_nonempty n) as Hne.
  pose proof (digitsValue_natToString n) as Hv.
  destruct (JS.natToString n) as [|c s]; [contradiction|].
  simpl in Hd. apply andb_true_iff in Hd as [Hc _].
  now rewrite (parseDecimal_digits c s Hc), Hv.
Qed.

Lemma matchPagesAt_digits (s ds : string) :
  matchPagesAt s = Some ds ->
  exists d r, ds = String d r /\ allChars isDigit ds = true.
Proof.
  unfold matchPagesAt. destruct (afterLiteral "Pages:" s) as [r|]; [|discriminate].
  destruct (takeWhile isSpace r); [discriminate|].
  pose proof (takeWhile_all isDigit (dropWhile isSpace r)) as Hall.
  destruct (takeWhile isDigit (dropWhile isSpace r)) as [|d ds']; [discriminate|].
  intros H. injection H as <-. now exists d, ds'.
Qed.

Lemma matchPages_digits (s ds : string) :
  matchPages s = Some ds ->
  exists d r, ds = String d r /\ allChars isDigit ds = true.
Proof.
  induction s as [|c s IH]; simpl.
  - discriminate.
  - destruct (matchPagesAt (String c s)) eqn:H.
    + intros E. injection E as <-. now apply matchPagesAt_digits in H.
    + exact IH.
Qed.

(** [getPageCount] resolves to [null] or to a non-negative integer,
    never to [NaN]: when [pdfinfo] fails or prints no [Pages:] line
    the count is [null]. *)
Theorem getPageCount_null_or_count (pdfinfo : option string) :
  getPageCount pdfinfo = JS.Null \/
  exists z, 0 <= z /\ getPageCount pdfinfo = JS.Num z.
Proof.
  destruct pdfinfo as [stdout|]; [|now left]. simpl.
  destruct (matchPages stdout) as [ds|] eqn:H; [|now left]. right.
  destruct (matchPages_digits _ _ H) as (d & r & -> & Hall).
  pose proof Hall as Hall'. simpl in Hall'. apply andb_true_iff in Hall' as [Hd _].
  rewrite (parseDecimal_digits d r Hd).
  destruct (digitsValue_digits _ Hall) as (v & Hv & Hacc).
  rewrite Hacc. exists v. split; [lia | f_equal; lia].
Qed.

Lemma no_match_before (pre tail : string) :
  pre <> "" -> String.prefix "Pages:" pre = false ->
  afterLiteral "Pages:" (pre ++ "Pages:" ++ tail) = None.
Proof.
  intros Hne Hpre.
  destruct (afterLiteral "Pages:" (pre ++ "Pages:" ++ tail)) as [r|] eqn:H; [|reflexivity].
  exfalso. apply afterLiteral_some in H.
  assert (Hno : ~ exists q, pre = "Pages:" ++ q).
  { intros Hq. apply prefix_app_iff in Hq. congruence. }
  destruct pre as [|c1 [|c2 [|c3 [|c4 [|c5 [|c6 pre]]]]]]; simpl in H;
    try contradiction; try discriminate H.
  injection H as -> -> -> -> -> -> _. apply Hno. now exists pre.
Qed.

Lemma matchPages_skips (pre tail : string) :
  stringIncludes pre "Pages:" = false ->
  matchPages (pre ++ "Pages:" ++ tail) = matchPages ("Pages:" ++ tail).
Proof.
  induction pre as [|c pre IH]; intros Hinc; [reflexivity|].
  simpl in Hinc. apply orb_false_iff in Hinc as [Hp Hrest].
  change (matchPages (String c pre ++ "Pages:" ++ tail))
    with (match matchPagesAt (String c pre ++ "Pages:" ++ tail) with
          | Some ds => Some ds
          | None => matchPages (pre ++ "Pages:" ++ tail)
          end).
  unfold matchPagesAt at 1. rewrite no_match_before by (discriminate || assumption).
  apply IH.
  destruct pre; simpl in Hrest |- *; [|exact Hrest].
  reflexivity.
Qed.

(** When no earlier part of the output of [pdfinfo] contains
    [Pages:], the count is the number printed after the first
    [Pages:] and its blanks. *)
Theorem getPageCount_reads_pages_line (pre ws rest : string) (n : nat) :
  stringIncludes pre "Pages:" = false ->
  ws <> "" -> allChars isSpace ws = true ->
  stopsAt isDigit rest = true ->
  getPageCount (Some (pre ++ "Pages:" ++ ws ++ JS.natToString n ++ rest)) = JS.ofNat n.
Proof.
  intros Hpre Hws Hsp Hrest. unfold getPageCount.
  rewrite matchPages_skips by exact Hpre.
  assert (Hat : matchPagesAt ("Pages:" ++ ws ++ JS.natToString n ++ rest) = Some (JS.natToString n)).
  { unfold matchPagesAt. rewrite afterLiteral_app.
    pose proof (natToString_digits n) as Hd. pose proof (natToString_nonempty n) as Hne.
    assert (Hstop : stopsAt isSpace (JS.natToString n ++ rest) = true).
    { destruct (JS.natToString n) as [|c s]; [contradiction|]. simpl in Hd |- *.
      apply andb_true_iff in Hd as [Hc _]. unfold isDigit in Hc. unfold isSpace.
      apply andb_true_iff in Hc as [H1 H2]. apply Nat.leb_le in H1, H2.
      apply negb_true_iff.
      destruct (Nat.leb_spec (nat_of_ascii c) 13); [lia|]. rewrite andb_false_r. simpl.
      apply orb_false_iff. split; apply Nat.eqb_neq; lia. }
    rewrite takeWhile_app, dropWhile_app, takeWhile_app by assumption.
    destruct ws; [contradiction|].
    destruct (JS.natToString n); [contradiction | reflexivity]. }
  assert (Hm : matchPages ("Pages:" ++ ws ++ JS.natToString n ++ rest) = Some (JS.natToString n)).
  { change (matchPages ("Pages:" ++ ws ++ JS.natToString n ++ rest))
      with (match matchPagesAt ("Pages:" ++ ws ++ JS.natToString n ++ rest) with
            | Some ds => Some ds
            | None => matchPages ("ages:" ++ ws ++ JS.natToString n ++ rest)
            end).
    now rewrite Hat. }
  rewrite Hm. apply parseDecimal_natToString.
Qed.

Lemma getPageCount_reads_pages_line_witness :
  getPageCount (Some ("Title:          Tome 1" ++ LF ++ "Pages:          12" ++ LF ++
                      "Encrypted:      no" ++ LF)) = JS.Num 12.
Proof.
  exact (getPageCount_reads_pages_line ("Title:          Tome 1" ++ LF) "          "
           (LF ++ "Encrypted:      no" ++ LF) 12 eq_refl ltac:(discriminate) eq_refl eq_refl).
Defined.

Section UnknownCount.

Variable parseInt : string -> JS.num.

Lemma expandedFiles_none sharp b (imgFiles : list page) (T : JS.num) :
  T = JS.Null \/ T = JS.Num 0 ->
  expandedFiles sharp b T imgFiles = [].
Proof.
  intros [-> | ->]; unfold expandedFiles; destruct (splitting sharp b);
    unfold JS.slice0, turns, JS.min, JS.lift2, JS.ofNat; simpl JS.toNumber; cbv iota;
    try reflexivity;
    replace (Z.to_nat (Z.min (Z.of_nat (List.length imgFiles)) 0)) with 0%nat by lia;
    reflexivity.
Qed.

(** When the page count of a PDF is not known, because [pdfinfo]
    failed, printed no [Pages:] line or printed [Pages: 0], the task
    goes on with the page images the rasterizer left, but selects none
    of them: the effective page count is the unknown count itself, no
    page is renumbered, and the result counts for 0 pages in the
    totals. *)
Theorem unknown_page_count_selects_no_page (sharp : bool) (b : body) (originalname : string)
    (pdfinfo : option string) (imgFiles : list page) :
  JS.truthy (getPageCount pdfinfo) = false ->
  imgFiles <> [] ->
  pdfPages parseInt sharp b originalname (getPageCount pdfinfo) imgFiles =
    Ok (getPageCount pdfinfo, [], []) /\
  (forall n p s, pagesOrZero {| name := n; rpath := p; size := s; pages := getPageCount pdfinfo |} = 0).
Proof.
  intros Hfalsy Hne.
  assert (HT : getPageCount pdfinfo = JS.Null \/ getPageCount pdfinfo = JS.Num 0).
  { destruct (getPageCount_null_or_count pdfinfo) as [E | (z & Hz & E)]; [now left|].
    right. rewrite E in Hfalsy |- *. simpl in Hfalsy.
    apply negb_false_iff, Z.eqb_eq in Hfalsy. now subst. }
  split.
  - unfold pdfPages. destruct imgFiles as [|p0 rest]; [contradiction|].
    unfold effectiveTotalPages_pdf. rewrite Hfalsy.
    now rewrite (expandedFiles_none sharp b (p0 :: rest) _ HT).
  - intros n p s. unfold pagesOrZero. simpl. destruct HT as [-> | ->]; reflexivity.
Qed.

End UnknownCount.

Lemma unknown_page_count_selects_no_page_witness :
  pdfPages parseDecimal true render300 "book.pdf"
    (getPageCount (Some "Syntax Warning: May not be a PDF file")) [widePage] =
  Ok (JS.Null, [], []).
Proof.
  destruct (unknown_page_count_selects_no_page parseDecimal true render300 "book.pdf"
              (Some "Syntax Warning: May not be a PDF file") [widePage] eq_refl
              ltac:(discriminate)) as [H _].
  exact H.
Defined.

(** ** The [/analyze] route *)

Lemma splitLines_nonempty (s : string) : splitLines s <> [].
Proof.
  induction s as [|c s IH]; simpl; [discriminate|].
  destruct (isLF c); [discriminate|].
  assert (H : consToFirst c (splitLines s) <> [])
    by (unfold consToFirst; destruct (splitLines s); discriminate).
  destruct (isCR c); [|exact H].
  destruct s as [|c' s']; [exact H|]. destruct (isLF c'); [discriminate | exact H].
Qed.

Lemma splitLines_other (c : ascii) (s : string) :
  inLine c = true -> splitLines (String c s) = consToFirst c (splitLines s).
Proof.
  unfold inLine. intros H. apply andb_true_iff in H as [H1 H2].
  apply negb_true_iff in H1, H2. simpl. now rewrite H1, H2.
Qed.

Lemma splitLines_line (l : string) (t : string) (sep : string) :
  sep = LF \/ sep = CRLF ->
  allChars inLine l = true ->
  splitLines (l ++ sep ++ t) = l :: splitLines t.
Proof.
  intros Hsep Hl. induction l as [|c l IH].
  - destruct Hsep as [-> | ->]; reflexivity.
  - simpl in Hl. apply andb_true_iff in Hl as [Hc Hl].
    simpl append. rewrite splitLines_other by exact Hc. now rewrite (IH Hl).
Qed.

Lemma splitLines_last (l : string) : allChars inLine l = true -> splitLines l = [l].
Proof.
  induction l as [|c l IH]; intros Hl; [reflexivity|].
  simpl in Hl. apply andb_true_iff in Hl as [Hc Hl].
  rewrite splitLines_other by exact Hc. now rewrite (IH Hl).
Qed.

(** Splitting undoes joining. *)
Lemma splitLines_joinLines (sep : string) (l : string) (ls : list string) :
  sep = LF \/ sep = CRLF ->
  (forall x, In x (l :: ls) -> allChars inLine x = true) ->
  splitLines (joinLines sep (l :: ls)) = l :: ls.
Proof.
  intros Hsep. revert l. induction ls as [|l' ls IH]; intros l Hall.
  - simpl. apply splitLines_last. apply Hall. now left.
  - change (joinLines sep (l :: l' :: ls)) with (l ++ sep ++ joinLines sep (l' :: ls)).
    rewrite splitLines_line; [|exact Hsep | apply Hall; now left].
    f_equal. apply IH. intros x Hx. apply Hall. now right.
Qed.

(** When [7z] lists the archive, one name per line with lines ended
    by a line feed or by a carriage return and a line feed, the answer
    of [/analyze] is the number of lines that end in [.jpg], [.jpeg],
    [.png], [.gif], [.webp], [.tiff] or [.bmp] in any case and contain
    neither [__MACOSX] nor [thumbs.db]; when there is no such line,
    the answer is 1, as it is when [7z] fails. *)
Theorem analyze_counts_image_lines (f : file) (sep : string) (ls : list string)
    (d : list string) :
  (sep = LF \/ sep = CRLF) ->
  (forall l, In l ls -> allChars inLine l = true) ->
  fst (analyze (Some f) (Some (joinLines sep ls)) d) =
    PageCount (Nat.max 1 (List.length (filter countsAsPage ls))) /\
  fst (analyze (Some f) None d) = PageCount 1.
Proof.
  intros Hsep Hall. split; [|reflexivity].
  unfold analyze. cbv zeta. unfold fst at 1.
  assert (Hc : countPages (joinLines sep ls) = List.length (filter countsAsPage ls)).
  { unfold countPages. destruct ls as [|l ls]; [reflexivity|].
    now rewrite splitLines_joinLines. }
  rewrite Hc. f_equal.
  destruct (Nat.eqb_spec (List.length (filter countsAsPage ls)) 0) as [->|Hne]; [reflexivity|].
  lia.
Qed.

Lemma analyze_counts_image_lines_witness :
  fst (analyze (Some {| originalname := "vol1.cbz"; path := "/app/upload/5d0c" |})
         (Some (joinLines CRLF ["ch1/001.JPG"; "ch1/002.png"; "__MACOSX/ch1/._001.JPG";
                                "ch1/notes.txt"; "ch1/003.tif"]))
         ["/app/upload/5d0c"]) = PageCount 2.
Proof.
  refine (proj1 (analyze_counts_image_lines
            {| originalname := "vol1.cbz"; path := "/app/upload/5d0c" |} CRLF
            ["ch1/001.JPG"; "ch1/002.png"; "__MACOSX/ch1/._001.JPG";
             "ch1/notes.txt"; "ch1/003.tif"]
            ["/app/upload/5d0c"] (or_intror eq_refl) _)).
  intros l Hl. simpl in Hl.
  repeat (destruct Hl as [<-|Hl]; [reflexivity|]). destruct Hl.
Defined.

Lemma existsSync_removed p q l : existsSync p (removed q l) = true -> existsSync p l = true /\ p <> q.
Proof.
  intros H. split.
  - destruct (existsSync p l) eqn:E; [reflexivity|].
    now rewrite existsSync_removed_other in H.
  - intros ->. now rewrite existsSync_removed_same in H.
Qed.

Lemma existsSync_created p q l :
  existsSync p (created q l) = true -> existsSync p l = true \/ p = q.
Proof.
  unfold created. destruct (existsSync q l); [now left|].
  unfold existsSync. rewrite existsb_app. simpl. rewrite orb_false_r.
  intros H. apply orb_true_iff in H as [H|H]; [now left|].
  right. now apply String.eqb_eq.
Qed.



(** ** The technical suffix of an upload name *)

Lemma takeClass_app (p : ascii -> bool) (a t : string) :
  allChars p a = true -> takeClass p (String.length a) (a ++ t) = Some t.
Proof.
  induction a as [|c a IH]; simpl; [reflexivity|].
  intros H. apply andb_true_iff in H as [Hc Ha]. now rewrite Hc, IH.
Qed.

Lemma takeClass_some (p : ascii -> bool) (n : nat) : forall s t,
  takeClass p n s = Some t ->
  exists a, s = a ++ t /\ String.length a = n /\ allChars p a = true.
Proof.
  induction n as [|n IH]; intros s t H; simpl in H.
  - injection H as <-. now exists "".
  - destruct s as [|c s]; [discriminate|].
    destruct (p c) eqn:Hc; [|discriminate].
    destruct (IH _ _ H) as (a & -> & Hlen & Ha).
    exists (String c a). simpl. now rewrite Hlen, Hc, Ha.
Qed.

(** [stripTechnicalSuffix] removes an underscore, thirteen digits,
    an underscore and thirty-six characters among the hexadecimal
    digits and the dash from the end of a name, and leaves every name
    that does not end so as it is. *)
Theorem stripTechnicalSuffix_spec (fileName : string) :
  (forall base ts id,
     allChars isDigit ts = true -> String.length ts = 13%nat ->
     allChars isHexOrDash id = true -> String.length id = 36%nat ->
     fileName = base ++ "_" ++ ts ++ "_" ++ id ->
     stripTechnicalSuffix fileName = base) /\
  (stripTechnicalSuffix fileName = fileName \/
   exists ts id,
     allChars isDigit ts = true /\ String.length ts = 13%nat /\
     allChars isHexOrDash id = true /\ String.length id = 36%nat /\
     fileName = stripTechnicalSuffix fileName ++ "_" ++ ts ++ "_" ++ id).
Proof.
  split.
  - intros base ts id Hts Hlts Hid Hlid ->. unfold stripTechnicalSuffix.
    rewrite !rev_app. rewrite !append_assoc.
    assert (H36 : String.length (Path.rev id) = 36%nat).
    { rewrite <- Hlid. clear. induction id as [|c s IH]; [reflexivity|].
      rewrite rev_cons, length_append, IH. simpl. lia. }
    assert (H13 : String.length (Path.rev ts) = 13%nat).
    { rewrite <- Hlts. clear. induction ts as [|c s IH]; [reflexivity|].
      rewrite rev_cons, length_append, IH. simpl. lia. }
    rewrite <- H36, takeClass_app by now rewrite allChars_rev.
    change (Path.rev "_" ++ Path.rev ts ++ Path.rev "_" ++ Path.rev base)
      with (String "_" (Path.rev ts ++ String "_" (Path.rev base))).
    cbv iota beta.
    rewrite <- H13, takeClass_app by now rewrite allChars_rev.
    apply rev_involutive.
  - unfold stripTechnicalSuffix.
    destruct (takeClass isHexOrDash 36 (Path.rev fileName)) as [[|c r1]|] eqn:H1;
      try (now left).
    destruct (Ascii.eqb_spec c "_") as [->|Hne];
      [|destruct c as [[] [] [] [] [] [] [] []]; try (now left); contradiction].
    destruct (takeClass isDigit 13 r1) as [[|c2 r2]|] eqn:H2; try (now left).
    destruct (Ascii.eqb_spec c2 "_") as [->|Hne];
      [|destruct c2 as [[] [] [] [] [] [] [] []]; try (now left); contradiction].
    right.
    apply takeClass_some in H1 as (a1 & E1 & L1 & A1).
    apply takeClass_some in H2 as (a2 & E2 & L2 & A2).
    exists (Path.rev a2), (Path.rev a1).
    assert (Hlen : forall s, String.length (Path.rev s) = String.length s).
    { induction s as [|x s IH]; [reflexivity|].
      rewrite rev_cons, length_append, IH. simpl. lia. }
    rewrite !allChars_rev, !Hlen. repeat split; try assumption.
    rewrite <- (rev_involutive fileName), E1, E2.
    rewrite !rev_app, !rev_cons, !rev_app, !rev_cons, !append_assoc. reflexivity.
Qed.

Lemma stripTechnicalSuffix_spec_witness :
  stripTechnicalSuffix "Tome 1_1700000000000_123e4567-e89b-12d3-a456-426614174000" = "Tome 1".
Proof.
  apply (proj1 (stripTechnicalSuffix_spec
                  "Tome 1_1700000000000_123e4567-e89b-12d3-a456-426614174000")
           "Tome 1" "1700000000000" "123e4567-e89b-12d3-a456-426614174000");
    reflexivity.
Defined.

Local Open Scope list_scope.

(** ** When classification fails *)

Lemma includes_In (l : list string) (s : string) : JS.includes l s = true <-> In s l.
Proof.
  unfold JS.includes. rewrite existsb_exists. split.
  - intros (x & Hx & E). apply String.eqb_eq in E. now subst.
  - intros H. exists s. split; [exact H | apply String.eqb_refl].
Qed.

Lemma pushOwn_keys k x g g' : pushOwn k x g = Some g' -> map fst g' = map fst g.
Proof.
  revert g'. induction g as [|[k' v] g IH]; simpl; intros g' H; [discriminate|].
  destruct (String.eqb k k').
  - now injection H as <-.
  - destruct (pushOwn k x g) as [r'|]; [|discriminate]. injection H as <-.
    simpl. now rewrite (IH _ eq_refl).
Qed.

Lemma pushOwn_none k x g : pushOwn k x g = None <-> ~ In k (map fst g).
Proof.
  induction g as [|[k' v] g IH]; simpl; [tauto|].
  destruct (String.eqb_spec k k') as [->|Hne].
  - split; [discriminate | intros H; exfalso; apply H; now left].
  - destruct (pushOwn k x g) as [r'|].
    + split; [discriminate|]. intros H. exfalso.
      destruct (in_dec string_dec k (map fst g)) as [Hin|Hnin]; [apply H; now right|].
      apply IH in Hnin. discriminate.
    + split; [|reflexivity]. intros _ [E|Hin]; [congruence|]. now apply IH.
Qed.

Lemma groupPush_ownKeysOnly k x g g' :
  groupPush k x g = Ok g' -> ownKeysOnly g -> ownKeysOnly g'.
Proof.
  unfold groupPush. destruct (pushOwn k x g) as [g1|] eqn:Hp.
  - intros H Hg. injection H as <-. intros k1 Hk1.
    rewrite (pushOwn_keys _ _ _ _ Hp) in Hk1. now apply Hg.
  - destruct (JS.includes objectPrototypeKeys k) eqn:Hk; [discriminate|].
    intros H Hg. injection H as <-. intros k1 Hk1.
    rewrite map_app in Hk1. apply in_app_or in Hk1 as [Hk1|[<-|[]]]; [now apply Hg | exact Hk].
Qed.

Lemma groupPush_outcome k x g :
  ownKeysOnly g ->
  if JS.includes objectPrototypeKeys k
  then groupPush k x g = Throw PushIsNotAFunction
  else exists g', groupPush k x g = Ok g'.
Proof.
  intros Hg. unfold groupPush.
  destruct (JS.includes objectPrototypeKeys k) eqn:Hk.
  - destruct (pushOwn k x g) as [g1|] eqn:Hp; [|reflexivity].
    exfalso. assert (Hin : In k (map fst g)).
    { destruct (in_dec string_dec k (map fst g)) as [H|H]; [exact H|].
      apply (pushOwn_none k x g) in H. congruence. }
    rewrite (Hg _ Hin) in Hk. discriminate.
  - destruct (pushOwn k x g) as [g1|]; eauto.
Qed.

Lemma groupFiles_outcome files : forall idx groups rootFiles,
  ownKeysOnly groups ->
  if existsb inPrototypeFolder files
  then groupFiles idx files groups rootFiles = Throw PushIsNotAFunction
  else exists G R, groupFiles idx files groups rootFiles = Ok (G, R).
Proof.
  induction files as [|f files IH]; intros idx groups rootFiles Hg; simpl.
  - eauto.
  - unfold inPrototypeFolder at 1.
    destruct (rootDir (originalname f)) as [d|] eqn:Hd.
    + pose proof (groupPush_outcome d (idx, f) groups Hg) as Hp.
      destruct (JS.includes objectPrototypeKeys d) eqn:Hk; simpl.
      * now rewrite Hp.
      * destruct Hp as (g' & Hp). rewrite Hp. apply IH.
        now apply (groupPush_ownKeysOnly _ _ _ _ Hp).
    + simpl. now apply IH.
Qed.

(** Classification fails exactly when some uploaded file lies in a
    folder, at the top of its relative path, that is named like a
    property of [Object.prototype] ([constructor], [toString],
    [__proto__], ...); the error is then the [TypeError] of the call
    to [push], whatever else was uploaded. *)
Theorem classify_fails_on_prototype_folder (files : list file) :
  (classify files = Throw PushIsNotAFunction <->
   exists f d, In f files /\ rootDir (originalname f) = Some d /\ In d objectPrototypeKeys) /\
  (forall e, classify files = Throw e -> e = PushIsNotAFunction).
Proof.
  assert (Hown : ownKeysOnly []) by (intros k []).
  pose proof (groupFiles_outcome files 0 [] [] Hown) as Hout.
  assert (Hex : existsb inPrototypeFolder files = true <->
                exists f d, In f files /\ rootDir (originalname f) = Some d /\
                            In d objectPrototypeKeys).
  { rewrite existsb_exists. unfold inPrototypeFolder. split.
    - intros (f & Hf & H). destruct (rootDir (originalname f)) as [d|] eqn:Hd; [|discriminate].
      exists f, d. repeat split; try assumption. now apply includes_In.
    - intros (f & d & Hf & Hd & Hin). exists f. split; [exact Hf|].
      rewrite Hd. now apply includes_In. }
  unfold classify.
  destruct (existsb inPrototypeFolder files) eqn:Hb.
  - rewrite Hout. split.
    + split; [intros _; now apply Hex | reflexivity].
    + intros e H. now injection H as <-.
  - destruct Hout as (G & R & ->). split.
    + split; [discriminate|]. intros H. apply Hex in H. discriminate.
    + discriminate.
Qed.

(** ** The order of tasks and of their files *)

Lemma inOrderBelow_push idx v f :
  inOrderBelow idx v -> inOrderBelow (S idx) (v ++ [(idx, f)]).
Proof.
  intros [Hs Hb]. unfold inOrderBelow. rewrite map_app. simpl. split.
  - induction (map fst v) as [|i l IH]; simpl.
    + repeat constructor.
    + inversion Hs as [|? ? Hl Hi]; subst. inversion Hb as [|? ? Hlt Hb']; subst.
      constructor; [now apply IH|].
      apply Forall_app. split; [exact Hi | now repeat constructor].
  - apply Forall_app. split.
    + eapply Forall_impl; [|exact Hb]. simpl. lia.
    + repeat constructor.
Qed.

Lemma inOrderBelow_weaken idx v : inOrderBelow idx v -> inOrderBelow (S idx) v.
Proof.
  intros [Hs Hb]. split; [exact Hs|]. eapply Forall_impl; [|exact Hb]. simpl. lia.
Qed.

Lemma pushOwn_inOrder idx k f g g' :
  pushOwn k (idx, f) g = Some g' -> groupsInOrder idx g -> groupsInOrder (S idx) g'.
Proof.
  revert g'. induction g as [|[k' v] g IH]; simpl; intros g' H Hg; [discriminate|].
  destruct (String.eqb k k').
  - injection H as <-. intros k1 v1 [E|Hin].
    + injection E as <- <-. apply inOrderBelow_push. eapply Hg. now left.
    + apply inOrderBelow_weaken. eapply Hg. right. exact Hin.
  - destruct (pushOwn k (idx, f) g) as [r'|]; [|discriminate]. injection H as <-.
    intros k1 v1 [E|Hin].
    + injection E as <- <-. apply inOrderBelow_weaken. eapply Hg. now left.
    + eapply (IH _ eq_refl); [|exact Hin]. intros k2 v2 H2. eapply Hg. right. exact H2.
Qed.

Lemma groupPush_inOrder idx k f g g' :
  groupPush k (idx, f) g = Ok g' -> groupsInOrder idx g -> groupsInOrder (S idx) g'.
Proof.
  unfold groupPush. destruct (pushOwn k (idx, f) g) as [g1|] eqn:Hp.
  - intros H. injection H as <-. now apply pushOwn_inOrder with (k := k) (f := f).
  - destruct (JS.includes objectPrototypeKeys k); [discriminate|].
    intros H Hg. injection H as <-. intros k1 v1 Hin.
    apply in_app_or in Hin as [Hin|[E|[]]].
    + apply inOrderBelow_weaken. eapply Hg. exact Hin.
    + injection E as <- <-. apply (inOrderBelow_push idx [] f). split; constructor.
Qed.

Lemma groupFiles_inOrder files : forall idx groups rootFiles G R,
  groupFiles idx files groups rootFiles = Ok (G, R) ->
  groupsInOrder idx groups -> inOrderBelow idx rootFiles ->
  groupsInOrder (idx + List.length files) G /\ inOrderBelow (idx + List.length files) R.
Proof.
  induction files as [|f files IH]; simpl; intros idx groups rootFiles G R H Hg Hr.
  - injection H as <- <-. now rewrite Nat.add_0_r.
  - rewrite <- Nat.add_succ_comm.
    destruct (rootDir (originalname f)) as [d|].
    + destruct (groupPush d (idx, f) groups) as [g'|e] eqn:Hp; [|discriminate].
      apply (IH _ _ _ _ _ H).
      * now apply (groupPush_inOrder _ _ _ _ _ Hp).
      * now apply inOrderBelow_weaken.
    + apply (IH _ _ _ _ _ H).
      * intros k v Hin. apply inOrderBelow_weaken. eapply Hg. exact Hin.
      * now apply inOrderBelow_push.
Qed.

Lemma increasing_filter (p : nat * file -> bool) (v : list (nat * file)) :
  increasing (map fst v) -> increasing (map fst (filter p v)).
Proof.
  unfold increasing. induction v as [|x v IH]; simpl; intros H; [constructor|].
  inversion H as [|? ? Hl Hx]; subst.
  destruct (p x); simpl; [|now apply IH].
  constructor; [now apply IH|].
  apply Forall_forall. intros i Hi. rewrite Forall_forall in Hx. apply Hx.
  apply in_map_iff in Hi as (y & <- & Hy). apply filter_In in Hy as [Hy _].
  apply in_map_iff. now exists y.
Qed.

(** The merge tasks come first and the convert tasks last; every
    merge task holds at least one file and holds its files in upload
    order, so the pages of a merged archive follow the order in which
    the files were sent, not the order of their names; the convert
    tasks follow upload order too. *)
Theorem classify_keeps_upload_order (files : list file) (tasks : list task) :
  classify files = Ok tasks ->
  (forall fs name, In (MERGE fs name) tasks -> fs <> [] /\ increasing fs) /\
  (exists merges docs,
     tasks = merges ++ map CONVERT docs /\
     (forall t, In t merges -> exists fs name, t = MERGE fs name) /\
     increasing docs).
Proof.
  unfold classify.
  destruct (groupFiles 0 files [] []) as [[G R]|e] eqn:Hg; [|discriminate].
  intros H. injection H as <-.
  destruct (groupFiles_inOrder _ _ _ _ _ _ Hg) as [HG [HR _]];
    [intros k v [] | split; constructor |].
  assert (Hroot : forall t, In t (rootTask (filter isImage R)) ->
            exists fs name, t = MERGE fs name /\ fs <> [] /\ increasing fs).
  { intros t Ht. pose proof (increasing_filter isImage R HR) as Hinc.
    unfold rootTask in Ht. destruct (filter isImage R) as [|x l]; [destruct Ht|].
    destruct Ht as [<-|[]]. eexists _, _. split; [reflexivity|]. split; [discriminate | exact Hinc]. }
  assert (Hfold : forall t, In t (flat_map folderTask (Object_entries G)) ->
            exists fs name, t = MERGE fs name /\ fs <> [] /\ increasing fs).
  { intros t Ht. apply in_flat_map in Ht as ([k v] & Hkv & Ht).
    eapply Permutation_in in Hkv; [|apply Object_entries_perm].
    destruct (HG _ _ Hkv) as [Hinc _].
    pose proof (increasing_filter isImage v Hinc) as Hinc'.
    unfold folderTask in Ht. simpl in Ht.
    destruct (filter isImage v) as [|x l]; [destruct Ht|].
    destruct Ht as [<-|[]]. eexists _, _. split; [reflexivity|]. split; [discriminate | exact Hinc']. }
  split.
  - intros fs name Hin. apply in_app_or in Hin as [Hin|Hin].
    + destruct (Hroot _ Hin) as (fs' & n' & E & H1 & H2). injection E as -> ->. now split.
    + apply in_app_or in Hin as [Hin|Hin].
      * destruct (Hfold _ Hin) as (fs' & n' & E & H1 & H2). injection E as -> ->. now split.
      * apply in_map_iff in Hin as (x & E & _). discriminate E.
  - exists (rootTask (filter isImage R) ++ flat_map folderTask (Object_entries G)),
           (map fst (filter (fun d => negb (isImage d)) R)).
    split; [|split].
    + rewrite <- app_assoc, map_map. reflexivity.
    + intros t Ht. apply in_app_or in Ht as [Ht|Ht].
      * destruct (Hroot _ Ht) as (fs & n & E & _). eauto.
      * destruct (Hfold _ Ht) as (fs & n & E & _). eauto.
    + now apply increasing_filter.
Qed.

Lemma classify_keeps_upload_order_witness :
  [0%nat; 2%nat] <> [] /\ increasing [0%nat; 2%nat].
Proof.
  destruct (classify_keeps_upload_order
              [ {| originalname := "ch1/b.jpg"; path := "/app/upload/01" |};
                {| originalname := "ch2/a.jpg"; path := "/app/upload/02" |};
                {| originalname := "ch1/a.jpg"; path := "/app/upload/03" |} ]
              [MERGE [0%nat; 2%nat] "ch1"; MERGE [1%nat] "ch2"] eq_refl) as [H _].
  apply (H [0%nat; 2%nat] "ch1"). simpl. tauto.
Defined.

(** ** Merge tasks *)

Section Merge.

Variable parseInt : string -> JS.num.
Variable sharp : bool.
Variable b : body.

Lemma mergeLoop_names (padding : nat) (taskFiles : list (string * string * imageState)) :
  forall idx names,
  mergeLoop parseInt sharp b padding idx taskFiles = Ok names ->
  names = numberFrom padding idx (map (mergeExt parseInt sharp b) taskFiles).
Proof.
  induction taskFiles as [|[[nm up] st] r IH]; intros idx names H; simpl in H.
  - now injection H as <-.
  - simpl map. unfold mergeExt at 1. simpl fst.
    destruct (shouldUseSharp parseInt sharp b _).
    + destruct st; try discriminate.
      destruct (mergeLoop parseInt sharp b padding (S idx) r) as [ns|e] eqn:Hr; [|discriminate].
      injection H as <-. simpl. now rewrite (IH _ _ Hr).
    + destruct (mergeLoop parseInt sharp b padding (S idx) r) as [ns|e] eqn:Hr; [|discriminate].
      injection H as <-. simpl. now rewrite (IH _ _ Hr).
Qed.

(** The pages a merge task writes: one per file, numbered from 1 in
    the order of the files and zero-padded to
    [max(3, digits of the number of files)], so that their names are
    distinct and sort in page order.  With [sharp] loaded a [.webp] or
    [.bmp] file is always written as [.jpg]; without it every file is
    copied under its own extension, in lower case. *)
Theorem merge_page_names (taskFiles : list (string * string * imageState))
    (names : list string) :
  mergeLoop parseInt sharp b (String.length (JS.natToString (List.length taskFiles))) 0
    taskFiles = Ok names ->
  names = numberFrom (String.length (JS.natToString (List.length taskFiles))) 0
            (map (mergeExt parseInt sharp b) taskFiles) /\
  List.length names = List.length taskFiles /\
  NoDup names /\ sort names = names /\
  (forall x, In x taskFiles ->
     (sharp = true ->
      JS.includes [".webp"; ".bmp"] (JS.toLowerCase (Path.extname (fst (fst x)))) = true ->
      mergeExt parseInt sharp b x = ".jpg") /\
     (sharp = false ->
      mergeExt parseInt sharp b x = JS.toLowerCase (Path.extname (fst (fst x))))).
Proof.
  intros H. apply mergeLoop_names in H. subst names.
  assert (Hasc : ascending (numberFrom (String.length (JS.natToString (List.length taskFiles))) 0
                              (map (mergeExt parseInt sharp b) taskFiles))).
  { apply numberFrom_ascending. rewrite length_map, Nat.add_0_l.
    pose proof (natToString_upper (List.length taskFiles)) as Hup.
    assert (10 ^ Z.of_nat (String.length (JS.natToString (List.length taskFiles)))
            <= 10 ^ Z.of_nat (Nat.max 3 (String.length (JS.natToString (List.length taskFiles)))))
      by (apply Z.pow_le_mono_r; lia).
    lia. }
  split; [reflexivity|]. split; [now rewrite numberFrom_length, length_map|].
  split; [now apply ascending_NoDup|]. split; [now apply ascending_sort|].
  intros x _. split.
  - intros -> Hex. unfold mergeExt, shouldUseSharp, outExt_merge. rewrite Hex. reflexivity.
  - intros ->. reflexivity.
Qed.

End Merge.

Lemma merge_page_names_witness :
  List.length ["001.jpg"; "002.jpg"] = 2%nat /\
  NoDup ["001.jpg"; "002.jpg"] /\ sort ["001.jpg"; "002.jpg"] = ["001.jpg"; "002.jpg"].
Proof.
  destruct (merge_page_names parseDecimal true render300
              [("p1.png", "/app/upload/a1", Readable); ("p2.WEBP", "/app/upload/a2", Readable)]
              ["001.jpg"; "002.jpg"] eq_refl) as (_ & Hlen & Hnd & Hsort & _).
  auto.
Defined.

(** ** What a completed task leaves *)

Lemma grows_refl s : grows [] s s.
Proof. repeat split; auto. Qed.

Lemma grows_trans X Y s1 s2 s3 :
  grows X s1 s2 -> grows Y s2 s3 -> grows (X ++ Y) s1 s3.
Proof.
  intros (U1 & A1 & D1) (U2 & A2 & D2). split; [congruence|]. split; [congruence|].
  intros p Hp. destruct (D2 _ Hp) as [H|H]; [|right; apply in_or_app; now right].
  destruct (D1 _ H) as [H'|H']; [now left | right; apply in_or_app; now left].
Qed.

Lemma grows_sendProgress e s u s' : sendProgress e s = (Ok u, s') -> grows [] s s'.
Proof. unfold sendProgress. intros H. injection H as _ <-. repeat split; auto. Qed.

Lemma grows_mkdirSync p s u s' : mkdirSync p s = (Ok u, s') -> grows [p] s s'.
Proof.
  unfold mkdirSync. intros H. injection H as _ <-. split; [reflexivity|]. split; [reflexivity|].
  simpl. intros q Hq. apply existsSync_created in Hq as [Hq| ->]; [now left | right; now left].
Qed.

Lemma grows_writeFile p s u s' : writeFile p s = (Ok u, s') -> grows [p] s s'.
Proof. apply grows_mkdirSync. Qed.

Lemma grows_rmSync p s u s' :
  rmSync p s = (Ok u, s') -> grows [] s s' /\ existsSync p (disk s') = false.
Proof.
  unfold rmSync. intros H. injection H as _ <-. split; [split; [reflexivity|split; [reflexivity|]]|].
  - simpl. intros q Hq. left. now apply existsSync_removed in Hq as [Hq _].
  - apply existsSync_removed_same.
Qed.

Lemma grows_unlinkSync p s u s' :
  unlinkSync p s = (Ok u, s') -> grows [] s s' /\ existsSync p (disk s') = false.
Proof.
  unfold unlinkSync. destruct (existsSync p (disk s)); [|discriminate].
  intros H. injection H as _ <-. split; [split; [reflexivity|split; [reflexivity|]]|].
  - simpl. intros q Hq. left. now apply existsSync_removed in Hq as [Hq _].
  - apply existsSync_removed_same.
Qed.

Lemma grows_copyFileSync src dst s u s' :
  copyFileSync src dst s = (Ok u, s') -> grows [dst] s s'.
Proof.
  unfold copyFileSync. destruct (existsSync src (disk s)); [|discriminate].
  intros H. injection H as _ <-. split; [reflexivity|]. split; [reflexivity|].
  simpl. intros q Hq. apply existsSync_created in Hq as [Hq| ->]; [now left | right; now left].
Qed.

Lemma recordArtifact_spec p numbered s u s' :
  recordArtifact p numbered s = (Ok u, s') ->
  uploads s' = uploads s /\ disk s' = disk s /\
  artifacts s' = artifacts s ++ [(p, numbered)].
Proof. unfold recordArtifact. intros H. injection H as _ <-. repeat split. Qed.

Lemma grows_runPacker env pk p s u s' :
  runPacker env pk p s = (Ok u, s') -> grows [p] s s'.
Proof.
  assert (Hret : forall x : unit, ret x s = (Ok u, s') -> grows [p] s s').
  { unfold ret. intros x H. injection H as _ <-. repeat split; auto. }
  unfold runPacker. destruct pk; try (apply Hret); try (apply grows_writeFile);
    destruct (packed env) as [[|]|]; try discriminate;
    try (apply grows_writeFile); apply Hret.
Qed.

(** A step that creates nothing keeps an absent path absent. *)
Lemma grows_absent s s' p :
  grows [] s s' -> existsSync p (disk s) = false -> existsSync p (disk s') = false.
Proof.
  intros (_ & _ & D) H. destruct (existsSync p (disk s')) eqn:E; [|reflexivity].
  destruct (D _ E) as [H'|[]]. congruence.
Qed.

Lemma nth_error_setPath_same i p (l : list file) f :
  nth_error l i = Some f ->
  nth_error (setPath i p l) i = Some {| originalname := originalname f; path := p |}.
Proof.
  revert i. induction l as [|g l IH]; intros [|i] H; simpl in *; try discriminate.
  - now injection H as <-.
  - now apply IH.
Qed.

Lemma nth_error_setPath_other i j p (l : list file) :
  j <> i -> nth_error (setPath i p l) j = nth_error l j.
Proof.
  revert i j. induction l as [|g l IH]; intros [|i] [|j] H; simpl; try reflexivity; try contradiction.
  apply IH. congruence.
Qed.

Lemma setPath_names i p (l : list file) :
  map originalname (setPath i p l) = map originalname l.
Proof.
  revert i. induction l as [|g l IH]; intros [|i]; simpl; try reflexivity. now rewrite IH.
Qed.

Lemma renames_refl i s : renames i s s.
Proof. repeat split; auto. Qed.

Lemma renames_renameUpload i new s u s' :
  renameUpload i new s = (Ok u, s') -> renames i s s'.
Proof.
  unfold renameUpload. destruct (nth_error (uploads s) i) as [f|] eqn:Hf.
  - destruct (existsSync (path f) (disk s)).
    + intros H. injection H as _ <-. repeat split.
      * apply setPath_names.
      * intros j Hj. now apply nth_error_setPath_other.
      * simpl. intros q Hq. apply existsSync_created in Hq as [Hq| ->].
        -- left. now apply existsSync_removed in Hq as [Hq _].
        -- right. eexists. split; [apply (nth_error_setPath_same _ _ _ _ Hf) | reflexivity].
    + intros H. injection H as _ <-. apply renames_refl.
  - intros H. injection H as _ <-. apply renames_refl.
Qed.

Section CompletedTask.

Variable parseInt : string -> JS.num.
Variable srv : server.
Variable b : body.

Lemma processConvertTask_completed (env : taskEnv) (i taskIdx totalTasks : nat)
    (st st' : state) (r : result) :
  processConvertTask parseInt srv b env i taskIdx totalTasks st = (Ok r, st') ->
  name r = outputFileName b (taskBase (uploads st) (CONVERT i)) /\
  rpath r = Path.join (OUTPUT_DIR srv) (name r) /\
  map originalname (uploads st') = map originalname (uploads st) /\
  (forall j, j <> i -> nth_error (uploads st') j = nth_error (uploads st) j) /\
  (forall p, existsSync p (disk st') = true -> existsSync p (disk st) = true \/ p = rpath r) /\
  (forall f', nth_error (uploads st') i = Some f' -> existsSync (path f') (disk st') = false).
Proof.
  intros H. unfold processConvertTask in H.
  apply bind_Ok in H as (f & s0 & H0 & H).
  unfold getFile in H0. destruct (nth_error (uploads st) i) as [f0|] eqn:Hf; [|discriminate].
  injection H0 as <- <-.
  apply bind_Ok in H as (u1 & s1 & H1 & H). apply grows_sendProgress in H1.
  apply bind_Ok in H as (u2 & s2 & H2 & H). apply grows_mkdirSync in H2.
  set (tempDir := Path.join (Path.join (dirname srv) "upload")
                    (stripTechnicalSuffix (Path.parseName (originalname f0)) ++ "_temp_" ++
                     JS.natToString (dirStamp env))) in *.
  apply bind_Ok in H as (res & s3 & H3 & H).
  assert (S3 : renames i s2 s3).
  { destruct (JS.endsWith (JS.toLowerCase (originalname f0)) ".pdf").
    - apply bind_Ok in H3 as (u & sx & Ha & Hb).
      assert (Hsx : s3 = sx).
      { destruct (rasterized env); [|discriminate].
        apply bind_Ok in Hb as (? & ? & Hl & Hr). unfold lift in Hl. injection Hl as _ <-.
        unfold ret in Hr. now injection Hr as _ <-. }
      subst sx. destruct (JS.endsWith (JS.toLowerCase (path f0)) ".pdf").
      + unfold ret in Ha. injection Ha as _ <-. apply renames_refl.
      + now apply renames_renameUpload in Ha.
    - apply bind_Ok in H3 as (u & sx & Ha & Hb).
      assert (Hsx : s3 = sx).
      { destruct (extracted env); [|discriminate]. unfold lift in Hb. now injection Hb as _ <-. }
      subst sx. destruct (negb _ && negb _).
      + now apply renames_renameUpload in Ha.
      + unfold ret in Ha. injection Ha as _ <-. apply renames_refl. }
  clear H3.
  apply bind_Ok in H as (u4 & s4 & H4 & H). apply grows_sendProgress in H4.
  apply bind_Ok in H as (u5 & s5 & H5 & H).
  apply bind_Ok in H as (s5' & s6 & H6 & H). injection H6 as <- <-.
  apply bind_Ok in H as (u7 & s7 & H7 & H).
  assert (E7 : s7 = s5).
  { destruct (negb _ && negb _); unfold ret, throw in H7; [discriminate|]. now injection H7 as _ <-. }
  subst s7. clear H7.
  set (tempOutputPath := Path.join (TEMP_DIR srv) (tempArchiveName env (safeFormat b))) in *.
  set (persistentPath := Path.join (OUTPUT_DIR srv)
         (outputFileName b (stripTechnicalSuffix (Path.parseName (originalname f0))))) in *.
  apply bind_Ok in H as (u8 & s8 & H8 & H).
  assert (S8 : grows [persistentPath] s4 s8).
  { destruct (String.eqb (safeFormat b) "folder") eqn:Hfolder.
    - apply String.eqb_eq in Hfolder. rewrite Hfolder in H5.
      unfold choosePacker, runPacker, ret in H5. simpl in H5. injection H5 as _ <-.
      apply bind_Ok in H8 as (? & sx & Hx & Hy).
      apply grows_rmSync in Hx as [Hx _]. apply grows_mkdirSync in Hy.
      exact (grows_trans _ _ _ _ _ Hx Hy).
    - apply grows_runPacker in H5.
      apply bind_Ok in H8 as (? & sx & Hx & Hy).
      apply grows_copyFileSync in Hx. apply grows_unlinkSync in Hy as [Hy Hgone].
      destruct (grows_trans _ _ _ _ _ H5 (grows_trans _ _ _ _ _ Hx Hy)) as (U & A & D).
      split; [exact U|]. split; [exact A|]. intros p Hp.
      destruct (D _ Hp) as [Hq|[<-|[<-|[]]]]; [now left | congruence | right; now left]. }
  clear H5 H8.
  apply bind_Ok in H as (u9 & s9 & H9 & H). apply recordArtifact_spec in H9 as (U9 & D9 & _).
  apply bind_Ok in H as (u10 & s10 & H10 & H). apply grows_rmSync in H10 as [H10 Hdir].
  apply bind_Ok in H as (f' & s11 & H11 & H).
  unfold getFile in H11. destruct (nth_error (uploads s10) i) as [g|] eqn:Hg; [|discriminate].
  injection H11 as <- <-.
  apply bind_Ok in H as (u12 & s12 & H12 & H). apply grows_unlinkSync in H12 as [H12 Hup].
  unfold ret in H. injection H as <- <-. simpl name. simpl rpath.
  unfold taskBase. rewrite Hf. fold persistentPath.
  (* before the rename, and after it *)
  pose proof (grows_trans _ _ _ _ _ H1 H2) as (U2 & _ & D2). simpl app in D2.
  pose proof (grows_trans _ _ _ _ _ H4 S8) as (U8 & _ & D8). simpl app in D8.
  destruct H10 as (U10 & _ & D10). rewrite D9 in D10. rewrite U9, U8 in U10.
  destruct H12 as (U12 & _ & D12). destruct S3 as (N3 & P3 & D3).
  rewrite U10 in Hg. rewrite U12, U10.
  split; [reflexivity|]. split; [reflexivity|].
  split; [now rewrite N3, U2|].
  split; [intros j Hj; now rewrite P3, U2|].
  split.
  - intros p Hp.
    assert (Hp12 : p <> path g) by (intros ->; congruence).
    destruct (D12 _ Hp) as [Hp10|[]].
    assert (Hp10' : p <> tempDir) by (intros ->; congruence).
    destruct (D10 _ Hp10) as [Hp8|[]].
    destruct (D8 _ Hp8) as [Hp3|[<-|[]]]; [|now right].
    destruct (D3 _ Hp3) as [Hp2|(f' & Hf' & ->)]; [|congruence].
    destruct (D2 _ Hp2) as [Hp0|[<-|[]]]; [now left | contradiction].
  - intros f' Hf'. rewrite Hg in Hf'. now injection Hf' as <-.
Qed.

End CompletedTask.

Lemma getFiles_spec (l : list nat) : forall s fs s',
  getFiles l s = (Ok fs, s') ->
  s' = s /\ List.length fs = List.length l /\
  (forall i f, In i l -> nth_error (uploads s) i = Some f -> In f fs).
Proof.
  induction l as [|i l IH]; intros s fs s' H; simpl in H.
  - unfold ret in H. injection H as <- <-. repeat split. intros i f [].
  - apply bind_Ok in H as (f & s1 & H1 & H).
    unfold getFile in H1. destruct (nth_error (uploads s) i) as [g|] eqn:Hg; [|discriminate].
    injection H1 as <- <-.
    apply bind_Ok in H as (fs' & s2 & H2 & H).
    destruct (IH _ _ _ H2) as (-> & Hlen & Hin).
    unfold ret in H. injection H as <- <-. repeat split.
    + simpl. now rewrite Hlen.
    + intros j f [<-|Hj] Hf.
      * left. congruence.
      * right. eapply Hin; eassumption.
Qed.

Lemma unlinkExisting_spec (fs : list file) : forall s u s',
  unlinkExisting fs s = (Ok u, s') ->
  grows [] s s' /\ (forall f, In f fs -> existsSync (path f) (disk s') = false).
Proof.
  induction fs as [|f fs IH]; intros s u s' H; simpl in H.
  - unfold ret in H. injection H as _ <-. split; [apply grows_refl | intros f []].
  - apply bind_Ok in H as (u1 & s1 & H1 & H).
    apply grows_rmSync in H1 as [H1 Hgone].
    destruct (IH _ _ _ H) as [H2 Hrest]. split.
    + exact (grows_trans _ _ _ _ _ H1 H2).
    + intros g [<-|Hg]; [|now apply Hrest].
      now apply (grows_absent _ _ _ H2).
Qed.

Section CompletedMerge.

Variable parseInt : string -> JS.num.
Variable srv : server.
Variable b : body.

Lemma processMergeTask_completed (env : taskEnv) (files : list nat) (baseName : string)
    (taskIdx totalTasks : nat) (st st' : state) (r : result) :
  processMergeTask parseInt srv b env files baseName taskIdx totalTasks st = (Ok r, st') ->
  name r = outputFileName b baseName /\
  rpath r = Path.join (OUTPUT_DIR srv) (name r) /\
  pages r = JS.ofNat (List.length files) /\
  uploads st' = uploads st /\
  (forall p, existsSync p (disk st') = true -> existsSync p (disk st) = true \/ p = rpath r) /\
  (forall i f, In i files -> nth_error (uploads st) i = Some f ->
     existsSync (path f) (disk st') = false) /\
  (exists names, artifacts st' = artifacts st ++ [(rpath r, names)] /\
                 List.length names = List.length files).
Proof.
  intros H. unfold processMergeTask in H.
  apply bind_Ok in H as (u1 & s1 & H1 & H). apply grows_sendProgress in H1.
  apply bind_Ok in H as (u2 & s2 & H2 & H). apply grows_mkdirSync in H2.
  set (tempDir := Path.join (TEMP_DIR srv)
                    ("merge_" ++ JS.natToString (dirStamp env) ++ "_" ++ dirRandom env)) in *.
  apply bind_Ok in H as (fs & s3 & H3 & H).
  apply getFiles_spec in H3 as (-> & Hlen & Hfs).
  apply bind_Ok in H as (numbered & s4 & H4 & H).
  unfold lift in H4. injection H4 as H4 <-.
  apply mergeLoop_names in H4.
  assert (Hnum : List.length numbered = List.length files).
  { rewrite H4, numberFrom_length, !length_map. exact Hlen. }
  clear H4.
  apply bind_Ok in H as (u5 & s5 & H5 & H). apply grows_sendProgress in H5.
  apply bind_Ok in H as (u6 & s6 & H6 & H).
  set (tempOutputPath := Path.join (TEMP_DIR srv) (tempArchiveName env (safeFormat b))) in *.
  set (persistentPath := Path.join (OUTPUT_DIR srv) (outputFileName b baseName)) in *.
  apply bind_Ok in H as (u7 & s7 & H7 & H).
  assert (S7 : grows [persistentPath] s5 s7).
  { destruct (String.eqb (safeFormat b) "folder") eqn:Hfolder.
    - apply String.eqb_eq in Hfolder. rewrite Hfolder in H6.
      unfold choosePacker, runPacker, ret in H6. simpl in H6. injection H6 as _ <-.
      apply bind_Ok in H7 as (? & sx & Hx & Hy).
      apply grows_rmSync in Hx as [Hx _]. apply grows_mkdirSync in Hy.
      exact (grows_trans _ _ _ _ _ Hx Hy).
    - apply grows_runPacker in H6.
      apply bind_Ok in H7 as (? & sx & Hx & Hy).
      apply grows_copyFileSync in Hx. apply grows_unlinkSync in Hy as [Hy Hgone].
      destruct (grows_trans _ _ _ _ _ H6 (grows_trans _ _ _ _ _ Hx Hy)) as (U & A & D).
      split; [exact U|]. split; [exact A|]. intros p Hp.
      destruct (D _ Hp) as [Hq|[<-|[<-|[]]]]; [now left | congruence | right; now left]. }
  clear H6 H7.
  apply bind_Ok in H as (u8 & s8 & H8 & H). apply recordArtifact_spec in H8 as (U8 & D8 & A8).
  apply bind_Ok in H as (u9 & s9 & H9 & H). apply grows_rmSync in H9 as [H9 Hdir].
  apply bind_Ok in H as (u10 & s10 & H10 & H).
  apply unlinkExisting_spec in H10 as [H10 Hgone].
  unfold ret in H. injection H as <- <-. simpl name. simpl rpath. simpl pages.
  fold persistentPath.
  pose proof (grows_trans _ _ _ _ _ H1 H2) as (U2 & A2 & D2). simpl app in D2.
  pose proof (grows_trans _ _ _ _ _ H5 S7) as (U7 & A7 & D7). simpl app in D7.
  pose proof (grows_trans _ _ _ _ _ H9 H10) as (U10 & A10 & D10). simpl app in D10.
  rewrite D8 in D10. rewrite U8, U7, U2 in U10. rewrite A8, A7, A2 in A10.
  split; [reflexivity|]. split; [reflexivity|]. split; [now rewrite Hlen|].
  split; [exact U10|]. split; [|split].
  - intros p Hp. destruct (D10 _ Hp) as [Hp7|[]].
    assert (Hne : p <> tempDir).
    { intros ->. pose proof (grows_absent _ _ _ H10 Hdir). congruence. }
    destruct (D7 _ Hp7) as [Hp2|[<-|[]]]; [|now right].
    destruct (D2 _ Hp2) as [Hp0|[<-|[]]]; [now left | contradiction].
  - intros i f Hi Hf. apply Hgone. rewrite <- U2 in Hf. eapply Hfs; eassumption.
  - exists numbered. split; [exact A10 | exact Hnum].
Qed.

(** What a completed task of either kind reports and leaves. *)
Lemma processTask_completed (envs : nat -> taskEnv) (t : task) (idx total : nat)
    (st st' : state) (r : result) :
  processTask parseInt srv b envs t idx total st = (Ok r, st') ->
  name r = outputFileName b (taskBase (uploads st) t) /\
  rpath r = Path.join (OUTPUT_DIR srv) (name r) /\
  (forall fs nm, t = MERGE fs nm -> pages r = JS.ofNat (List.length fs)) /\
  map originalname (uploads st') = map originalname (uploads st) /\
  (forall j, ~ In j (taskFiles t) -> nth_error (uploads st') j = nth_error (uploads st) j) /\
  (forall p, existsSync p (disk st') = true -> existsSync p (disk st) = true \/ p = rpath r) /\
  (forall i f', In i (taskFiles t) -> nth_error (uploads st') i = Some f' ->
     existsSync (path f') (disk st') = false).
Proof.
  destruct t as [fs nm|i]; simpl processTask; intros H.
  - apply processMergeTask_completed in H as (Hn & Hp & Hpg & U & D & G & _).
    split; [exact Hn|]. split; [exact Hp|].
    split; [intros fs' nm' E; injection E as <- <-; exact Hpg|].
    split; [now rewrite U|]. split; [intros j _; now rewrite U|].
    split; [exact D|].
    intros i f' Hi Hf'. rewrite U in Hf'. eapply G; eassumption.
  - apply processConvertTask_completed in H as (Hn & Hp & N & P & D & G).
    split; [exact Hn|]. split; [exact Hp|].
    split; [intros fs nm E; discriminate E|].
    split; [exact N|].
    split; [intros j Hj; apply P; intros ->; apply Hj; now left|].
    split; [exact D|].
    intros j f' [<-|[]] Hf'. now apply G.
Qed.

End CompletedMerge.

Section TaskTheorems.

Variable parseInt : string -> JS.num.
Variable srv : server.
Variable b : body.



End TaskTheorems.



(** ** A completed batch *)

Lemma nth_error_names (l l' : list file) (i : nat) :
  map originalname l = map originalname l' ->
  option_map originalname (nth_error l i) = option_map originalname (nth_error l' i).
Proof. intros H. rewrite <- !nth_error_map. now rewrite H. Qed.

Lemma taskBase_names (l l' : list file) (t : task) :
  map originalname l = map originalname l' -> taskBase l t = taskBase l' t.
Proof.
  intros H. destruct t as [fs nm|i]; [reflexivity|]. simpl.
  pose proof (nth_error_names l l' i H) as Hi.
  destruct (nth_error l i), (nth_error l' i); simpl in Hi; try discriminate; [|reflexivity].
  injection Hi as ->. reflexivity.
Qed.

Section CompletedBatch.

Variable parseInt : string -> JS.num.
Variable srv : server.
Variable b : body.
Variable envs : nat -> taskEnv.

Lemma taskLoop_completed (total : nat) (tasks : list task) :
  forall idx results st rs st',
  NoDup (flat_map taskFiles tasks) ->
  taskLoop (processTask parseInt srv b envs) total idx tasks results st = (Ok rs, st') ->
  exists rs1,
    rs = results ++ rs1 /\
    Forall2 (reports srv b (uploads st)) tasks rs1 /\
    map originalname (uploads st') = map originalname (uploads st) /\
    (forall j, ~ In j (flat_map taskFiles tasks) ->
       nth_error (uploads st') j = nth_error (uploads st) j) /\
    (forall p, existsSync p (disk st') = true ->
       existsSync p (disk st) = true \/ In p (map rpath rs1)) /\
    (forall i f', In i (flat_map taskFiles tasks) ->
       nth_error (uploads st') i = Some f' ->
       existsSync (path f') (disk st') = true -> In (path f') (map rpath rs1)).
Proof.
  induction tasks as [|t tasks IH]; intros idx results st rs st' Hnd H; simpl in H.
  - unfold ret in H. injection H as <- <-. exists []. rewrite List.app_nil_r.
    repeat split; auto; try constructor. all: try (intros i f' []).
  - apply bind_Ok in H as (r & s1 & Ht & H).
    simpl in Hnd. apply NoDup_app_remove_l in Hnd as Hnd'.
    destruct (IH _ _ _ _ _ Hnd' H) as (rs2 & -> & F2 & N2 & P2 & D2 & G2).
    apply processTask_completed in Ht as (Hn & Hp & Hpg & N1 & P1 & D1 & G1).
    exists (r :: rs2). rewrite <- List.app_assoc. split; [reflexivity|].
    split; [|split; [|split; [|split]]].
    + constructor; [now repeat split|].
      eapply Forall2_impl; [|exact F2]. intros t' r' (A & B & C).
      repeat split; auto. now rewrite <- (taskBase_names _ _ t' N1).
    + congruence.
    + intros j Hj. rewrite P2, P1; [reflexivity| |];
        intros Hin; apply Hj; simpl; apply in_or_app; auto.
    + intros p Hp'. destruct (D2 _ Hp') as [H1|H1]; [|right; now right].
      destruct (D1 _ H1) as [H0| ->]; [now left | right; now left].
    + intros i f' Hi Hf' Hex. simpl in Hi. apply in_app_or in Hi as [Hi|Hi].
      * right.
        assert (Hni : ~ In i (flat_map taskFiles tasks)).
        { intros Hin. clear - Hnd Hi Hin.
          induction (taskFiles t) as [|x l IHl]; [destruct Hi|].
          simpl in Hnd. inversion Hnd as [|? ? Hx Hl]; subst.
          destruct Hi as [->|Hi]; [|now apply IHl].
          apply Hx. apply in_or_app. now right. }
        rewrite (P2 _ Hni) in Hf'.
        destruct (D2 _ Hex) as [H1|H1]; [|exact H1].
        rewrite (G1 _ _ Hi Hf') in H1. discriminate H1.
      * right. eapply G2; eassumption.
Qed.

Lemma classify_NoDup (files : list file) (tasks : list task) :
  classify files = Ok tasks -> NoDup (flat_map taskFiles tasks).
Proof.
  intros Hc. eapply Permutation_NoDup; [symmetry; apply (classify_files _ _ Hc) | apply kept_NoDup].
Qed.

Lemma convert_completed (st st' : state) (n : nat) (pgs : Z) (sz : nat) (rs : list result) :
  convert parseInt srv b envs st = (Completed n pgs sz rs, st') ->
  exists tasks,
    classify (uploads st) = Ok tasks /\
    n = List.length tasks /\
    pgs = fold_left (fun acc r => acc + pagesOrZero r) rs 0 /\
    Forall2 (reports srv b (uploads st)) tasks rs /\
    (forall p, existsSync p (disk st') = true ->
       existsSync p (disk st) = true \/ In p (map rpath rs)) /\
    (forall i f', In i (flat_map taskFiles tasks) ->
       nth_error (uploads st') i = Some f' ->
       existsSync (path f') (disk st') = true -> In (path f') (map rpath rs)).
Proof.
  unfold convert, handle. destruct (uploads st) as [|f0 fs0] eqn:Hu; [discriminate|].
  destruct (tryBlock _ st) as [[results|e] s1] eqn:Ht; [|discriminate].
  intros H. injection H as <- <- _ <- <-.
  unfold tryBlock in Ht.
  apply bind_Ok in Ht as (s0 & s0' & H0 & Ht). injection H0 as <- <-.
  apply bind_Ok in Ht as (u1 & s2 & H1 & Ht). apply grows_sendProgress in H1 as (U1 & _ & D1).
  apply bind_Ok in Ht as (tasks & s3 & H2 & Ht). unfold lift in H2. injection H2 as H2 <-.
  apply bind_Ok in Ht as (u3 & s4 & H3 & Ht). apply grows_sendProgress in H3 as (U3 & _ & D3).
  rewrite Hu in H2.
  assert (Hc : classify (uploads st) = Ok tasks) by now rewrite Hu.
  pose proof (classify_NoDup _ _ Hc) as Hnd.
  destruct (taskLoop_completed _ _ _ _ _ _ _ Hnd Ht) as (rs1 & E & F & N & P & D & G).
  simpl in E. subst rs1. rewrite U3, U1 in F.
  exists tasks. rewrite <- Hu. split; [exact Hc|].
  split; [symmetry; eapply Forall2_length; exact F|].
  split; [reflexivity|].
  split; [exact F|]. split.
  - intros p Hp. destruct (D _ Hp) as [H4|H4]; [|now right].
    destruct (D3 _ H4) as [H5|[]]. destruct (D1 _ H5) as [H6|[]]. now left.
  - exact G.
Qed.



End CompletedBatch.



(** ** A batch of images *)

Lemma numbered_snd_filter (files : list file) : forall idx,
  map snd (filter isImage (numbered idx files)) = filter isImageFile files.
Proof.
  induction files as [|f files IH]; intros idx; [reflexivity|].
  change (numbered idx (f :: files)) with ((idx, f) :: numbered (S idx) files).
  simpl. unfold isImage at 1. simpl.
  destruct (isImageFile f); simpl; now rewrite IH.
Qed.

Lemma numbered_In_snd (files : list file) (x : nat * file) (idx : nat) :
  In x (numbered idx files) -> In (snd x) files.
Proof.
  destruct x as [i f]. intros H. apply numbered_In in H as [_ H]. eapply nth_error_In. exact H.
Qed.

Lemma filter_same {A} (p q : A -> bool) (l : list A) :
  (forall x, In x l -> p x = q x) -> filter p l = filter q l.
Proof.
  induction l as [|x l IH]; intros H; [reflexivity|].
  simpl. rewrite (H x (or_introl eq_refl)), IH; [reflexivity|].
  intros y Hy. apply H. now right.
Qed.

Lemma sum_pages (rs : list result) : forall acc,
  fold_left (fun a r => a + pagesOrZero r) rs acc =
  acc + fold_right (fun r a => pagesOrZero r + a) 0 rs.
Proof.
  induction rs as [|r rs IH]; intros acc; simpl; [lia|]. rewrite IH. lia.
Qed.

Section ImageBatch.

Variable parseInt : string -> JS.num.
Variable srv : server.
Variable b : body.
Variable envs : nat -> taskEnv.

Lemma merge_pages_sum (files : list file) (tasks : list task) (rs : list result) :
  Forall2 (reports srv b files) tasks rs ->
  (forall t, In t tasks -> exists fs nm, t = MERGE fs nm) ->
  fold_right (fun r a => pagesOrZero r + a) 0 rs =
  Z.of_nat (List.length (flat_map taskFiles tasks)).
Proof.
  induction 1 as [|t r tasks rs (_ & _ & Hpg) F IH]; intros Hall; [reflexivity|].
  simpl. rewrite IH by (intros t' Ht'; apply Hall; now right).
  destruct (Hall t (or_introl eq_refl)) as (fs & nm & ->).
  unfold pagesOrZero. rewrite (Hpg fs nm eq_refl). simpl.
  rewrite length_app. lia.
Qed.

(** When every file uploaded outside a folder is an image, a batch
    that completes reports as its total number of pages the number of
    images uploaded, inside folders or not. *)
Theorem image_batch_counts_images (st st' : state) (n : nat) (pgs : Z) (sz : nat)
    (rs : list result) :
  convert parseInt srv b envs st = (Completed n pgs sz rs, st') ->
  (forall f, In f (uploads st) -> rootDir (originalname f) = None -> isImageFile f = true) ->
  pgs = Z.of_nat (List.length (filter isImageFile (uploads st))).
Proof.
  intros H Himg.
  destruct (convert_completed _ _ _ _ _ _ _ _ _ _ H) as (tasks & Hc & _ & -> & F & _).
  assert (Hkept : filter kept (numbered 0 (uploads st)) = filter isImage (numbered 0 (uploads st))).
  { apply filter_same. intros [i f] Hin. unfold kept, isRoot, isImage. simpl.
    destruct (rootDir (originalname f)) eqn:Hr; [reflexivity|].
    simpl. symmetry. apply Himg; [|exact Hr]. now apply (numbered_In_snd _ (i, f) 0). }
  assert (Hmerge : forall t, In t tasks -> exists fs nm, t = MERGE fs nm).
  { intros t Ht. destruct t as [fs nm|i]; [eauto|]. exfalso.
    assert (Hi : In i (flat_map taskFiles tasks)).
    { apply in_flat_map. exists (CONVERT i). split; [exact Ht | now left]. }
    eapply Permutation_in in Hi; [|apply (classify_files _ _ Hc)].
    rewrite Hkept in Hi.
    pose proof Hc as Hc'. unfold classify in Hc'.
    destruct (groupFiles 0 (uploads st) [] []) as [[G R]|e] eqn:Hg; [|discriminate].
    injection Hc' as <-.
    destruct (groupFiles_spec _ _ _ _ _ _ Hg) as (HR & _ & _). simpl in HR.
    apply in_app_or in Ht as [Ht|Ht].
    - unfold rootTask in Ht. destruct (filter isImage R); [destruct Ht|].
      destruct Ht as [Ht|[]]. discriminate Ht.
    - apply in_app_or in Ht as [Ht|Ht].
      + apply in_flat_map in Ht as (e & _ & Ht). unfold folderTask in Ht.
        destruct (filter isImage (snd e)); [destruct Ht|].
        destruct Ht as [Ht|[]]. discriminate Ht.
      + apply in_map_iff in Ht as ([j f] & _ & Hd).
        apply filter_In in Hd as [HinR Hnot]. rewrite HR in HinR.
        apply filter_In in HinR as [Hnum Hroot].
        unfold isImage in Hnot. simpl in Hnot.
        unfold isRoot in Hroot. simpl in Hroot.
        destruct (rootDir (originalname f)) eqn:Hr; [discriminate|].
        rewrite Himg in Hnot; [discriminate| |exact Hr].
        now apply (numbered_In_snd _ (j, f) 0). }
  rewrite sum_pages, (merge_pages_sum _ _ _ F Hmerge). simpl.
  f_equal.
  rewrite (Permutation_length (classify_files _ _ Hc)), length_map, Hkept.
  rewrite <- (numbered_snd_filter (uploads st) 0). now rewrite length_map.
Qed.

End ImageBatch.

Lemma image_batch_counts_images_witness :
  2 = Z.of_nat (List.length (filter isImageFile
                               [ {| originalname := "p1.png"; path := "/app/upload/a1" |};
                                 {| originalname := "ch1/p2.png"; path := "/app/upload/a2" |};
                                 {| originalname := "ch1/notes.txt"; path := "/app/upload/a3" |} ])).
Proof.
  apply (image_batch_counts_images parseDecimal docker render300 calmEnv
           (uploaded [ {| originalname := "p1.png"; path := "/app/upload/a1" |};
                       {| originalname := "ch1/p2.png"; path := "/app/upload/a2" |};
                       {| originalname := "ch1/notes.txt"; path := "/app/upload/a3" |} ])
           (snd (convert parseDecimal docker render300 calmEnv
                   (uploaded [ {| originalname := "p1.png"; path := "/app/upload/a1" |};
                               {| originalname := "ch1/p2.png"; path := "/app/upload/a2" |};
                               {| originalname := "ch1/notes.txt"; path := "/app/upload/a3" |} ])))
           2 2 (4096 + 4096)%nat
           [ {| name := "p1.cbz"; rpath := "/app/output/p1.cbz"; size := 4096; pages := JS.Num 1 |};
             {| name := "ch1.cbz"; rpath := "/app/output/ch1.cbz"; size := 4096; pages := JS.Num 1 |} ]).
  - vm_compute. reflexivity.
  - intros f Hin Hroot. simpl in Hin.
    destruct Hin as [<-|[<-|[<-|[]]]]; solve [reflexivity | discriminate Hroot].
Defined.

(** ** The two halves of a double page *)

(** The halves the splitting loop cuts from a double page are not
    empty, have the same size and the height of the page, lie within
    the page and do not overlap: the left one starts at the left edge
    and the right one ends at the right edge; together they cover the
    page except, when its width is odd, the middle column. *)
Theorem split_halves_within_page (i : nat) (p : page) (w h : nat) :
  psize p = Some (w, h) -> isDouble w h = true ->
  exists L R,
    splitWrites i p = [(leftName i, L); (rightName i, R)] /\
    (0 < width L)%nat /\ width L = width R /\
    height L = h /\ height R = h /\ top L = 0%nat /\ top R = 0%nat /\
    left L = 0%nat /\ (left L + width L <= left R)%nat /\ (left R + width R = w)%nat /\
    (width L + width R = w - Nat.modulo w 2)%nat.
Proof.
  intros Hs Hd. unfold splitWrites. rewrite Hs, Hd.
  eexists _, _. split; [reflexivity|]. cbn [left top width height]. unfold halfW.
  unfold isDouble in Hd. apply andb_true_iff in Hd as [Hd Hr].
  apply andb_true_iff in Hd as [Hw Hh].
  apply negb_true_iff, Nat.eqb_neq in Hw, Hh. apply Nat.ltb_lt in Hr.
  pose proof (Nat.div_mod_eq w 2) as Hdm.
  pose proof (Nat.mod_upper_bound w 2 ltac:(lia)) as Hm.
  repeat split; lia.
Qed.

Lemma split_halves_within_page_witness :
  exists L R,
    splitWrites 0 {| pname := "page-1.jpg"; psize := Some (2001, 1000)%nat |} =
      [(leftName 0, L); (rightName 0, R)] /\
    (0 < width L)%nat /\ width L = width R /\
    height L = 1000%nat /\ height R = 1000%nat /\ top L = 0%nat /\ top R = 0%nat /\
    left L = 0%nat /\ (left L + width L <= left R)%nat /\ (left R + width R = 2001)%nat /\
    (width L + width R = 2001 - Nat.modulo 2001 2)%nat.
Proof.
  exact (split_halves_within_page 0 {| pname := "page-1.jpg"; psize := Some (2001, 1000)%nat |}
           2001 1000 eq_refl eq_refl).
Defined.

(** ** An archive without a page in range *)

Section EmptyRange.

Variable parseInt : string -> JS.num.
Variable sharp : bool.
Variable b : body.

Lemma archiveLoop_error (total padding : nat) (imgs : list image) : forall i c e,
  archiveLoop parseInt sharp b total padding i c imgs = Throw e ->
  exists input, e = SharpError input.
Proof.
  induction imgs as [|img r IH]; intros i c e H; simpl in H; [discriminate|].
  destruct (JS.lt _ _ || JS.gt _ _); [now apply IH in H|].
  destruct (negb (needsProcessing parseInt b)).
  - destruct (archiveLoop parseInt sharp b total padding (S i) (S c) r) eqn:Hr; [discriminate|].
    injection H as <-. now apply IH in Hr.
  - destruct sharp.
    + destruct (istate img).
      * destruct (archiveLoop parseInt true b total padding (S i) (S c) r) eqn:Hr; [discriminate|].
        injection H as <-. now apply IH in Hr.
      * destruct (archiveLoop parseInt true b total padding (S i) (S c) r) eqn:Hr; [discriminate|].
        injection H as <-. now apply IH in Hr.
      * injection H as <-. eauto.
    + destruct (archiveLoop parseInt false b total padding (S i) (S c) r) eqn:Hr; [discriminate|].
      injection H as <-. now apply IH in Hr.
Qed.

(** For an archive source whose range bounds are integers, the task
    fails with [No images in range.] exactly when no position lies in
    the range, that is when [min(total, end) < max(1, start)]; so an
    archive that holds no image always fails so. *)
Theorem archive_fails_without_page_in_range (s e : Z) (imgs : list image) :
  parsedOr parseInt (pageStart b) (JS.Num 1) = JS.Num s ->
  parsedOr parseInt (pageEnd b) (JS.ofNat (List.length imgs)) = JS.Num e ->
  (archivePages parseInt sharp b imgs = Throw NoImagesInRange <->
   Z.min (Z.of_nat (List.length imgs)) e < Z.max 1 s) /\
  (imgs = [] -> archivePages parseInt sharp b imgs = Throw NoImagesInRange).
Proof.
  intros Hs He.
  assert (Hiff : archivePages parseInt sharp b imgs = Throw NoImagesInRange <->
                 Z.min (Z.of_nat (List.length imgs)) e < Z.max 1 s).
  { unfold archivePages.
    rewrite (effective_archive_value parseInt b (List.length imgs) s e Hs He).
    unfold JS.strictEq.
    destruct (Z.eqb_spec (Z.max 0 (Z.min (Z.of_nat (List.length imgs)) e - Z.max 1 s + 1)) 0)
      as [E|Hne].
    - split; [lia | reflexivity].
    - split; [|lia].
      destruct (archiveLoop _ _ _ _ _ _ _ imgs) as [names|err] eqn:Hl; [discriminate|].
      intros H. injection H as ->. apply archiveLoop_error in Hl as (input & Hx). discriminate Hx. }
  split; [exact Hiff|].
  intros ->. apply Hiff. simpl. lia.
Qed.

End EmptyRange.

Lemma archive_fails_without_page_in_range_witness :
  archivePages parseDecimal true (withRange "8" "3" render300) eightImages = Throw NoImagesInRange.
Proof.
  apply (proj1 (archive_fails_without_page_in_range parseDecimal true
                  (withRange "8" "3" render300) 8 3 eightImages eq_refl eq_refl)).
  reflexivity.
Defined.
